(** * Ledger and settlement engine of the betting tracker

    A shallow embedding of [database.py] (class [Database], the SQLite ledger
    store) and of the money-handling parts of [stake.py] (the stake
    calculator, [update_account_balance], the betting form's submit handler
    and the settlement buttons), followed by the properties of the
    specification that were checked against them.

    Conventions of the model.
    - The stake calculator works on Python floats, which are IEEE 754
      binary64 numbers: they are the primitive [float] of the kernel, whose
      division is the machine's, and [math.ceil] returns a Python [int], an
      unbounded integer.
    - The amounts of the ledger (balances, odds, stakes and profits as they
      are stored, compared, added and subtracted by the store and by the
      handlers) are SQLite DECIMAL columns and Python numbers in the source.
      They are modelled by their exact value, a rational ([Q]); the rounding
      of the additions and subtractions of the ledger is outside the model.
      A stake enters the ledger as the exact value of the number that the
      calculator returned ([draw_form]).
    - The account identifier given to [save_account] is bound to an INTEGER
      parameter: sqlite3 raises [OverflowError] for a Python [int] outside 64
      bits, and [save_account] is modelled with that check.  The other
      identifiers that the store binds reach it from rows that were read from
      the database (the key of a listed bet, the accounts of a bet, the
      AUTOINCREMENT key of the row just inserted) or from the account numbers
      of the form ([range(1, num_accounts + 1)]); their statements are
      modelled without the check.  A fault of the oracle comes before the
      binding: it stands for any failure of the call, the preparation of the
      statement included.
    - Python exceptions are values of [exn]; a computation is a function from
      the state to a result-or-exception and the state reached, so that the
      side effects performed before an exception is raised are kept, as in
      Python.
    - A SQLite connection is a committed database, the working copy seen by
      the statements of the open transaction, the clock used for
      CURRENT_TIMESTAMP and a fault oracle: one boolean is consumed by every
      statement and every commit, and [true] makes that call raise
      [OperationalError] (disk full, database locked, ...). *)

From Stdlib Require Import ZArith QArith Qround Qabs List String Bool Lia.
From Stdlib Require Import DecimalString.
From Stdlib Require Import PrimFloat SpecFloat FloatOps FloatAxioms.
Import ListNotations.

Local Open Scope string_scope.
Local Open Scope list_scope.
Local Open Scope Z_scope.
Set Warnings "-inexact-float".

(* ===================================================================== *)
(** ** Exceptions and the state-and-exception monad                       *)
(* ===================================================================== *)

(** The Python exceptions that the modelled code can raise. *)
Inductive exn : Type :=
| OperationalError                 (* a failed storage call (sqlite3.OperationalError) *)
| IntegrityError (msg : string)    (* sqlite3.IntegrityError: a violated constraint *)
| ValueError (msg : string)
| IndexError                       (* .iloc[0] on an empty frame *)
| KeyError (key : string)
| ZeroDivisionError
| OverflowError (msg : string).

Inductive res (A : Type) : Type :=
| Ok (a : A)
| Raise (e : exn).
Arguments Ok {A} a.
Arguments Raise {A} e.

(** A computation over a state [S]: the state is returned in both cases. *)
Definition M (S A : Type) : Type := S -> res A * S.

Definition ret {S A} (a : A) : M S A := fun s => (Ok a, s).

Definition raise {S A} (e : exn) : M S A := fun s => (Raise e, s).

Definition bind {S A B} (c : M S A) (k : A -> M S B) : M S B :=
  fun s => match c s with
           | (Ok a, s') => k a s'
           | (Raise e, s') => (Raise e, s')
           end.

Definition get {S} : M S S := fun s => (Ok s, s).

Definition modify {S} (f : S -> S) : M S unit := fun s => (Ok tt, f s).

(** [try: body except Exception as e: handler e]. *)
Definition try_except {S A} (body : M S A) (handler : exn -> M S A) : M S A :=
  fun s => match body s with
           | (Ok a, s') => (Ok a, s')
           | (Raise e, s') => handler e s'
           end.

(** A pure computation that may raise, run inside [M]. *)
Definition lift_res {S A} (r : res A) : M S A := fun s => (r, s).

Declare Scope monad_scope.
Delimit Scope monad_scope with monad.
Notation "x <- c ;; k" := (bind c (fun x => k))
  (at level 100, c at next level, right associativity) : monad_scope.
Notation "c ;; k" := (bind c (fun _ => k))
  (at level 100, right associativity) : monad_scope.
Local Open Scope monad_scope.

(** [for x in l: body x]. *)
Fixpoint for_each {S A} (l : list A) (body : A -> M S unit) : M S unit :=
  match l with
  | [] => ret tt
  | x :: l' => body x ;; for_each l' body
  end.

(** A loop that appends to an accumulator list:
    [acc = []; for x in l: ... acc.append(y)]. *)
Fixpoint for_collect {S A B} (l : list A) (body : A -> M S (list B)) : M S (list B) :=
  match l with
  | [] => ret []
  | x :: l' => ys <- body x ;; zs <- for_collect l' body ;; ret (ys ++ zs)
  end.

(* ===================================================================== *)
(** ** Stake calculator ([stake.py], [calculate_bet_amount])              *)
(* ===================================================================== *)

(** A Python number: a [float] (binary64) or an [int] (unbounded). *)
Inductive number : Type :=
| PyFloat (x : float)
| PyInt (n : Z).

(** The exact value [(-1)^s * m * 2^e] of a finite binary64 number, in lowest
    terms. *)
Definition finite_value (s : bool) (m : positive) (e : Z) : Q :=
  let mantissa := if s then Zneg m else Zpos m in
  Qred (match e with
        | Zneg p => mantissa # (2 ^ p)
        | _ => inject_Z (mantissa * 2 ^ e)
        end).

(** The exact value of a float that is neither infinite nor NaN. *)
Definition float_value (x : float) : option Q :=
  match Prim2SF x with
  | S754_zero _ => Some 0%Q
  | S754_finite s m e => Some (finite_value s m e)
  | S754_infinity _ | S754_nan => None
  end.

(** The exact value of a number. *)
Definition number_value (n : number) : option Q :=
  match n with
  | PyFloat x => float_value x
  | PyInt n => Some (inject_Z n)
  end.

(** Python's [/] on floats: [ZeroDivisionError] when the divisor compares
    equal to zero (either zero), and otherwise the binary64 quotient, which
    may be infinite or NaN. *)
Definition py_div (a b : float) : res float :=
  if (b =? 0)%float then Raise ZeroDivisionError else Ok (a / b)%float.

(** [math.ceil] on a float: the least integer not below it, as an [int];
    [OverflowError] on an infinity and [ValueError] on NaN. *)
Definition ceil_of_infinity : exn :=
  OverflowError "cannot convert float infinity to integer".
Definition ceil_of_nan : exn :=
  ValueError "cannot convert float NaN to integer".

Definition math_ceil (x : float) : res Z :=
  match Prim2SF x with
  | S754_zero _ => Ok 0
  | S754_finite s m e => Ok (Qceiling (finite_value s m e))
  | S754_infinity _ => Raise ceil_of_infinity
  | S754_nan => Raise ceil_of_nan
  end.

(** [[
def calculate_bet_amount(betting_value, odds, show_accurate):
    amount = betting_value / odds
    return amount if show_accurate else math.ceil(amount)
]] *)
Definition calculate_bet_amount (betting_value odds : float) (show_accurate : bool)
  : res number :=
  match py_div betting_value odds with
  | Raise e => Raise e
  | Ok amount =>
      if show_accurate then Ok (PyFloat amount)
      else match math_ceil amount with
           | Ok n => Ok (PyInt n)
           | Raise e => Raise e
           end
  end.

(* ===================================================================== *)
(** ** The ledger store: tables of [database.py]                          *)
(* ===================================================================== *)

(** Rows of the six tables created by [_setup_database].  Field prefixes are
    the aliases used by the queries of the source ([a], [m], [b], [ba], [r]).
    Timestamps are integers. *)

Record account_row : Type := {
  a_account_id : Z;            (* INTEGER PRIMARY KEY *)
  a_name : string;             (* TEXT NOT NULL *)
  a_balance : Q;               (* DECIMAL(10,2) NOT NULL DEFAULT 0.00 *)
  a_remarks : string;          (* TEXT *)
  a_created_at : Z;            (* TIMESTAMP DEFAULT CURRENT_TIMESTAMP *)
  a_updated_at : Z;            (* TIMESTAMP DEFAULT CURRENT_TIMESTAMP *)
  a_is_active : bool           (* BOOLEAN DEFAULT 1 *)
}.

Record match_row : Type := {
  m_match_id : Z;              (* INTEGER PRIMARY KEY AUTOINCREMENT *)
  m_team1 : string;
  m_team2 : string;
  m_match_date : string;
  m_match_time : string;
  m_status : string;           (* DEFAULT 'upcoming' *)
  m_created_at : Z;
  m_updated_at : Z
}.

Record bet_row : Type := {
  b_bet_id : Z;                (* INTEGER PRIMARY KEY AUTOINCREMENT *)
  b_match_id : Z;              (* REFERENCES matches(match_id) *)
  b_team1_odds : Q;
  b_team2_odds : Q;
  b_betting_value : Q;
  b_status : string;           (* DEFAULT 'active' *)
  b_created_at : Z;
  b_updated_at : Z
}.

Record bet_account_row : Type := {
  ba_bet_id : Z;               (* REFERENCES bets(bet_id) ON DELETE CASCADE *)
  ba_account_id : Z;           (* REFERENCES accounts(account_id) ON DELETE CASCADE *)
  ba_team_number : Z;          (* CHECK (team_number IN (1, 2)) *)
  ba_bet_amount : Q;
  ba_status : string;          (* DEFAULT 'active' *)
  ba_created_at : Z
}.                             (* PRIMARY KEY (bet_id, account_id) *)

Record result_row : Type := {
  r_result_id : Z;             (* INTEGER PRIMARY KEY AUTOINCREMENT *)
  r_bet_id : Z;                (* REFERENCES bets(bet_id) *)
  r_winning_team : option Z;   (* INTEGER, NULL allowed *)
  r_result_type : string;      (* TEXT NOT NULL *)
  r_profit_amount : option Q;  (* DECIMAL(10,2), NULL allowed *)
  r_loss_amount : option Q;
  r_cashout_details : list (Z * Q);   (* the list that json.dumps serialises *)
  r_created_at : Z
}.

Record settings_row : Type := {
  s_min_transfer : Q;
  s_default_betting_value : Q;
  s_updated_at : Z
}.

(** The database file.  [seq_*] are the AUTOINCREMENT counters kept by
    SQLite in [sqlite_sequence]: the next identifier is the counter plus one,
    and the counter is rolled back with the transaction.  The settings table
    holds at most the row with [setting_id = 1]. *)
Record database : Type := {
  accounts : list account_row;
  matches : list match_row;
  bets : list bet_row;
  bet_accounts : list bet_account_row;
  results : list result_row;
  settings : option settings_row;
  seq_matches : Z;
  seq_bets : Z;
  seq_results : Z
}.

(** The state of a freshly set up database: no rows but the settings row
    inserted by [_setup_database]. *)
Definition empty_database (now : Z) : database :=
  {| accounts := []; matches := []; bets := []; bet_accounts := [];
     results := [];
     settings := Some {| s_min_transfer := 250; s_default_betting_value := 2100;
                         s_updated_at := now |};
     seq_matches := 0; seq_bets := 0; seq_results := 0 |}.

(** Field updates. *)
Definition set_accounts (l : list account_row) (d : database) : database :=
  {| accounts := l; matches := matches d; bets := bets d;
     bet_accounts := bet_accounts d; results := results d;
     settings := settings d; seq_matches := seq_matches d;
     seq_bets := seq_bets d; seq_results := seq_results d |}.

Definition set_bet_accounts (l : list bet_account_row) (d : database) : database :=
  {| accounts := accounts d; matches := matches d; bets := bets d;
     bet_accounts := l; results := results d;
     settings := settings d; seq_matches := seq_matches d;
     seq_bets := seq_bets d; seq_results := seq_results d |}.

Definition set_bets (l : list bet_row) (d : database) : database :=
  {| accounts := accounts d; matches := matches d; bets := l;
     bet_accounts := bet_accounts d; results := results d;
     settings := settings d; seq_matches := seq_matches d;
     seq_bets := seq_bets d; seq_results := seq_results d |}.

Definition set_settings (s : option settings_row) (d : database) : database :=
  {| accounts := accounts d; matches := matches d; bets := bets d;
     bet_accounts := bet_accounts d; results := results d;
     settings := s; seq_matches := seq_matches d;
     seq_bets := seq_bets d; seq_results := seq_results d |}.

(** Lookups by primary key. *)
Definition find_account (id : Z) (d : database) : option account_row :=
  find (fun a => a_account_id a =? id) (accounts d).

Definition find_match (id : Z) (d : database) : option match_row :=
  find (fun m => m_match_id m =? id) (matches d).

Definition find_bet (id : Z) (d : database) : option bet_row :=
  find (fun b => b_bet_id b =? id) (bets d).

Definition has_allocation (bet_id account_id : Z) (d : database) : bool :=
  existsb (fun ba => (ba_bet_id ba =? bet_id) && (ba_account_id ba =? account_id))
          (bet_accounts d).

(** The balance of an account, when the account exists. *)
Definition balance_of (id : Z) (d : database) : option Q :=
  option_map a_balance (find_account id d).

(** Rows of a bet: its allocations and its results. *)
Definition allocations_of (bet_id : Z) (d : database) : list bet_account_row :=
  filter (fun ba => ba_bet_id ba =? bet_id) (bet_accounts d).

Definition results_of (bet_id : Z) (d : database) : list result_row :=
  filter (fun r => r_bet_id r =? bet_id) (results d).

(** ORDER BY: a stable insertion sort on a boolean "comes no later" test. *)
Fixpoint insert_sorted {A} (leb : A -> A -> bool) (x : A) (l : list A) : list A :=
  match l with
  | [] => [x]
  | y :: l' => if leb x y then x :: l else y :: insert_sorted leb x l'
  end.

Definition order_by {A} (leb : A -> A -> bool) (l : list A) : list A :=
  fold_right (insert_sorted leb) [] l.

(* ===================================================================== *)
(** ** SQL statements of the source, as functions on the database         *)
(* ===================================================================== *)

(** Each statement takes the value of CURRENT_TIMESTAMP and the working
    database, and returns its result and the new working database, or the
    exception SQLite raises.  Foreign keys are enforced
    ([PRAGMA foreign_keys = ON]). *)
Definition statement (A : Type) : Type := Z -> database -> res (A * database).

(** The argument of [save_account]: a dictionary with [account_id] and
    [balance], and optionally [name] and [remarks]. *)
Record account_dict : Type := {
  ad_account_id : Z;
  ad_name : option string;
  ad_balance : Q;
  ad_remarks : option string
}.

(** [f'Account {account_id}'] *)
Definition default_account_name (id : Z) : string :=
  "Account " ++ NilZero.string_of_int (Z.to_int id).

(** The row that [save_account] inserts: the columns that its statement does
    not list, [created_at] and [is_active], take their defaults. *)
Definition replaced_account_row (d : account_dict) (now : Z) : account_row :=
  {| a_account_id := ad_account_id d;
     a_name := match ad_name d with
               | Some n => n
               | None => default_account_name (ad_account_id d)
               end;
     a_balance := ad_balance d;
     a_remarks := match ad_remarks d with Some r => r | None => "" end;
     a_created_at := now;
     a_updated_at := now;
     a_is_active := true |}.

(** The effect of REPLACE: the row that has the same primary key, if any, is
    deleted and the new row is inserted.  The connection runs with
    [PRAGMA foreign_keys = ON], and [bet_accounts.account_id] is declared
    [REFERENCES accounts(account_id) ON DELETE CASCADE]: the deletion of the
    old account row takes the allocation rows of that account with it. *)
Definition replace_account (d : account_dict) (now : Z) (db : database) : database :=
  let id := ad_account_id d in
  match find_account id db with
  | Some _ =>
      set_accounts
        (filter (fun a => negb (a_account_id a =? id)) (accounts db)
           ++ [replaced_account_row d now])
        (set_bet_accounts
           (filter (fun ba => negb (ba_account_id ba =? id)) (bet_accounts db))
           db)
  | None => set_accounts (accounts db ++ [replaced_account_row d now]) db
  end.

(** A Python [int] bound to a parameter of a statement must fit SQLite's
    INTEGER, a signed 64-bit integer; for any other [int] the [sqlite3]
    module raises [OverflowError] and the statement is not run. *)
Definition int64_min : Z := - 2 ^ 63.
Definition int64_max : Z := 2 ^ 63 - 1.

Definition is_int64 (n : Z) : bool := (int64_min <=? n) && (n <=? int64_max).

Definition int_too_large : exn :=
  OverflowError "Python int too large to convert to SQLite INTEGER".

(** [[
INSERT OR REPLACE INTO accounts (account_id, name, balance, remarks, updated_at)
VALUES (?, ?, ?, ?, CURRENT_TIMESTAMP)
]]
    with [account_data['account_id']] bound to the first parameter. *)
Definition sql_insert_or_replace_account (d : account_dict) : statement unit :=
  fun now db =>
    if is_int64 (ad_account_id d) then Ok (tt, replace_account d now db)
    else Raise int_too_large.

Definition fk_failed : exn := IntegrityError "FOREIGN KEY constraint failed".

(** The error of the composite primary key of [bet_accounts]. *)
Definition duplicate_allocation : exn :=
  IntegrityError "UNIQUE constraint failed: bet_accounts.bet_id, bet_accounts.account_id".

(** [[
INSERT INTO matches (team1, team2, match_date, match_time) VALUES (?, ?, ?, ?)
]]
    The result is [cursor.lastrowid]. *)
Definition sql_insert_match (team1 team2 match_date match_time : string) : statement Z :=
  fun now db =>
    let id := seq_matches db + 1 in
    let row := {| m_match_id := id; m_team1 := team1; m_team2 := team2;
                  m_match_date := match_date; m_match_time := match_time;
                  m_status := "upcoming"; m_created_at := now; m_updated_at := now |} in
    Ok (id, {| accounts := accounts db; matches := matches db ++ [row];
               bets := bets db; bet_accounts := bet_accounts db;
               results := results db; settings := settings db;
               seq_matches := id; seq_bets := seq_bets db;
               seq_results := seq_results db |}).

(** [[
INSERT INTO bets (match_id, team1_odds, team2_odds, betting_value) VALUES (?, ?, ?, ?)
]] *)
Definition sql_insert_bet (match_id : Z) (team1_odds team2_odds betting_value : Q)
  : statement Z :=
  fun now db =>
    match find_match match_id db with
    | None => Raise fk_failed
    | Some _ =>
        let id := seq_bets db + 1 in
        let row := {| b_bet_id := id; b_match_id := match_id;
                      b_team1_odds := team1_odds; b_team2_odds := team2_odds;
                      b_betting_value := betting_value; b_status := "active";
                      b_created_at := now; b_updated_at := now |} in
        Ok (id, {| accounts := accounts db; matches := matches db;
                   bets := bets db ++ [row]; bet_accounts := bet_accounts db;
                   results := results db; settings := settings db;
                   seq_matches := seq_matches db; seq_bets := id;
                   seq_results := seq_results db |})
    end.

(** [[
INSERT INTO bet_accounts (bet_id, account_id, team_number, bet_amount) VALUES (?, ?, n, ?)
]]
    The team number must pass the CHECK constraint; the composite primary key
    rejects a second row for the same bet and account; both foreign keys must
    point to existing rows. *)
Definition sql_insert_bet_account (bet_id account_id team_number : Z) (bet_amount : Q)
  : statement unit :=
  fun now db =>
    if negb ((team_number =? 1) || (team_number =? 2)) then
      Raise (IntegrityError "CHECK constraint failed: team_number IN (1, 2)")
    else if has_allocation bet_id account_id db then
      Raise duplicate_allocation
    else
      match find_bet bet_id db, find_account account_id db with
      | Some _, Some _ =>
          let row := {| ba_bet_id := bet_id; ba_account_id := account_id;
                        ba_team_number := team_number; ba_bet_amount := bet_amount;
                        ba_status := "active"; ba_created_at := now |} in
          Ok (tt, set_bet_accounts (bet_accounts db ++ [row]) db)
      | _, _ => Raise fk_failed
      end.

(** [[
UPDATE bets SET status = 'completed', updated_at = CURRENT_TIMESTAMP WHERE bet_id = ?
]] *)
Definition completed (now : Z) (b : bet_row) : bet_row :=
  {| b_bet_id := b_bet_id b; b_match_id := b_match_id b;
     b_team1_odds := b_team1_odds b; b_team2_odds := b_team2_odds b;
     b_betting_value := b_betting_value b; b_status := "completed";
     b_created_at := b_created_at b; b_updated_at := now |}.

Definition complete_bet (bet_id now : Z) (db : database) : database :=
  set_bets (map (fun b => if b_bet_id b =? bet_id then completed now b else b)
                (bets db))
           db.

Definition sql_complete_bet (bet_id : Z) : statement unit :=
  fun now db => Ok (tt, complete_bet bet_id now db).

(** [[
INSERT INTO results (bet_id, winning_team, result_type,
                     profit_amount, loss_amount, cashout_details)
VALUES (?, ?, ?, ?, ?, ?)
]] *)
Definition add_result (row : result_row) (db : database) : database :=
  {| accounts := accounts db; matches := matches db;
     bets := bets db; bet_accounts := bet_accounts db;
     results := results db ++ [row]; settings := settings db;
     seq_matches := seq_matches db; seq_bets := seq_bets db;
     seq_results := r_result_id row |}.

Definition sql_insert_result (bet_id : Z) (winning_team : option Z) (result_type : string)
    (profit_amount loss_amount : option Q) (cashout_details : list (Z * Q))
  : statement unit :=
  fun now db =>
    match find_bet bet_id db with
    | None => Raise fk_failed
    | Some _ =>
        Ok (tt, add_result
                  {| r_result_id := seq_results db + 1; r_bet_id := bet_id;
                     r_winning_team := winning_team; r_result_type := result_type;
                     r_profit_amount := profit_amount; r_loss_amount := loss_amount;
                     r_cashout_details := cashout_details; r_created_at := now |}
                  db)
    end.

(** [[
UPDATE accounts SET balance = balance + ?, updated_at = CURRENT_TIMESTAMP
WHERE account_id = ?
]] *)
Definition credited (profit : Q) (now : Z) (a : account_row) : account_row :=
  {| a_account_id := a_account_id a; a_name := a_name a;
     a_balance := (a_balance a + profit)%Q; a_remarks := a_remarks a;
     a_created_at := a_created_at a; a_updated_at := now;
     a_is_active := a_is_active a |}.

Definition credit_account (profit : Q) (account_id now : Z) (db : database) : database :=
  set_accounts (map (fun a => if a_account_id a =? account_id
                              then credited profit now a else a)
                    (accounts db))
               db.

Definition sql_credit_account (profit : Q) (account_id : Z) : statement unit :=
  fun now db => Ok (tt, credit_account profit account_id now db).

(** [[
UPDATE settings SET min_transfer = ?, default_betting_value = ?,
                    updated_at = CURRENT_TIMESTAMP
WHERE setting_id = 1
]] *)
Definition sql_update_settings (min_transfer default_betting_value : Q) : statement unit :=
  fun now db =>
    Ok (tt, set_settings
              (option_map (fun _ => {| s_min_transfer := min_transfer;
                                       s_default_betting_value := default_betting_value;
                                       s_updated_at := now |})
                          (settings db))
              db).

(** A SELECT: it reads the working database and leaves it as it is. *)
Definition sql_select {A} (q : database -> A) : statement A :=
  fun _ db => Ok (q db, db).

(** [SELECT * FROM accounts WHERE is_active = 1 ORDER BY account_id] *)
Definition q_active_accounts (db : database) : list account_row :=
  order_by (fun a a' => a_account_id a <=? a_account_id a')
           (filter a_is_active (accounts db)).

(** A row of [get_active_bets]. *)
Record active_bet_row : Type := {
  ab_bet_id : Z;
  ab_team1 : string;
  ab_team2 : string;
  ab_match_date : string;
  ab_match_time : string;
  ab_team1_odds : Q;
  ab_team2_odds : Q;
  ab_betting_value : Q;
  ab_created_at : Z
}.

Definition join_match (db : database) (b : bet_row) : list active_bet_row :=
  match find_match (b_match_id b) db with
  | Some m => [ {| ab_bet_id := b_bet_id b; ab_team1 := m_team1 m; ab_team2 := m_team2 m;
                   ab_match_date := m_match_date m; ab_match_time := m_match_time m;
                   ab_team1_odds := b_team1_odds b; ab_team2_odds := b_team2_odds b;
                   ab_betting_value := b_betting_value b;
                   ab_created_at := b_created_at b |} ]
  | None => []
  end.

(** Lexicographic order on (date, time), both compared as text. *)
Definition date_time_leb (d1 t1 d2 t2 : string) : bool :=
  if String.eqb d1 d2 then String.leb t1 t2 else String.leb d1 d2.

(** [[
SELECT ... FROM bets b JOIN matches m ON b.match_id = m.match_id
WHERE b.status = 'active' ORDER BY m.match_date, m.match_time
]] *)
Definition q_active_bets (db : database) : list active_bet_row :=
  order_by (fun x y => date_time_leb (ab_match_date x) (ab_match_time x)
                                     (ab_match_date y) (ab_match_time y))
           (flat_map (join_match db)
                     (filter (fun b => String.eqb (b_status b) "active") (bets db))).

(** [SELECT b.*, m.team1, ... FROM bets b JOIN matches m ... WHERE b.bet_id = ?],
    [fetchone()]. *)
Definition q_bet_info (bet_id : Z) (db : database) : option active_bet_row :=
  match find_bet bet_id db with
  | Some b => hd_error (join_match db b)
  | None => None
  end.

(** A row of the accounts of a bet, as returned by [get_bet_details]. *)
Record bet_detail_account : Type := {
  da_team_number : Z;
  da_bet_amount : Q;
  da_account_id : Z;
  da_name : string;
  da_balance : Q
}.

Definition join_account (db : database) (ba : bet_account_row) : list bet_detail_account :=
  match find_account (ba_account_id ba) db with
  | Some a => [ {| da_team_number := ba_team_number ba; da_bet_amount := ba_bet_amount ba;
                   da_account_id := a_account_id a; da_name := a_name a;
                   da_balance := a_balance a |} ]
  | None => []
  end.

(** [[
SELECT ba.team_number, ba.bet_amount, a.account_id, a.name, a.balance
FROM bet_accounts ba JOIN accounts a ON ba.account_id = a.account_id
WHERE ba.bet_id = ? ORDER BY ba.team_number, a.account_id
]] *)
Definition q_bet_accounts (bet_id : Z) (db : database) : list bet_detail_account :=
  order_by (fun x y => if da_team_number x =? da_team_number y
                       then da_account_id x <=? da_account_id y
                       else da_team_number x <=? da_team_number y)
           (flat_map (join_account db) (allocations_of bet_id db)).

(** [SELECT * FROM settings WHERE setting_id = 1] *)
Definition q_settings (db : database) : option settings_row := settings db.

(** A row of [get_bet_history], before the account details are attached. *)
Record history_row : Type := {
  h_bet : active_bet_row;
  h_result_type : option string;
  h_winning_team : option Z;
  h_profit_amount : option Q;
  h_loss_amount : option Q;
  h_cashout_details : option (list (Z * Q))
}.

(** LEFT JOIN results: one row per result of the bet, or one row of NULLs. *)
Definition left_join_results (db : database) (b : active_bet_row) : list history_row :=
  match results_of (ab_bet_id b) db with
  | [] => [ {| h_bet := b; h_result_type := None; h_winning_team := None;
               h_profit_amount := None; h_loss_amount := None;
               h_cashout_details := None |} ]
  | rs => map (fun r => {| h_bet := b; h_result_type := Some (r_result_type r);
                           h_winning_team := r_winning_team r;
                           h_profit_amount := r_profit_amount r;
                           h_loss_amount := r_loss_amount r;
                           h_cashout_details := Some (r_cashout_details r) |}) rs
  end.

(** [[
SELECT ... FROM bets b JOIN matches m ON ... LEFT JOIN results r ON b.bet_id = r.bet_id
WHERE b.status = 'completed' ORDER BY m.match_date DESC, m.match_time DESC
]] *)
Definition q_completed_bets (db : database) : list history_row :=
  order_by (fun x y => date_time_leb (ab_match_date (h_bet y)) (ab_match_time (h_bet y))
                                     (ab_match_date (h_bet x)) (ab_match_time (h_bet x)))
           (flat_map (left_join_results db)
              (flat_map (join_match db)
                 (filter (fun b => String.eqb (b_status b) "completed") (bets db)))).

(* ===================================================================== *)
(** ** The connection and the methods of class [Database]                 *)
(* ===================================================================== *)

Record connection : Type := {
  committed : database;     (* what the file holds *)
  working : database;       (* what the statements of this connection see *)
  faults : list bool;       (* the fault oracle, one entry per storage call *)
  now : Z                   (* CURRENT_TIMESTAMP *)
}.

Definition DB (A : Type) : Type := M connection A.

(** Opens a connection on a database file. *)
Definition connect (db : database) (fs : list bool) (t : Z) : connection :=
  {| committed := db; working := db; faults := fs; now := t |}.

(** One call into SQLite: it fails when the oracle says so. *)
Definition storage_call : DB unit :=
  fun c => match faults c with
           | [] => (Ok tt, c)
           | b :: fs =>
               (if b then Raise OperationalError else Ok tt,
                {| committed := committed c; working := working c;
                   faults := fs; now := now c |})
           end.

(** [cursor.execute(...)] and [pd.read_sql_query(...)]. *)
Definition execute {A} (st : statement A) : DB A :=
  storage_call ;;
  fun c => match st (now c) (working c) with
           | Ok (a, db') =>
               (Ok a, {| committed := committed c; working := db';
                         faults := faults c; now := now c |})
           | Raise e => (Raise e, c)
           end.

(** [cursor.execute("BEGIN TRANSACTION")] *)
Definition begin_transaction : DB unit :=
  execute (fun _ db => Ok (tt, db)).

(** [conn.commit()] *)
Definition commit : DB unit :=
  storage_call ;;
  modify (fun c => {| committed := working c; working := working c;
                      faults := faults c; now := now c |}).

(** [conn.rollback()] *)
Definition rollback : DB unit :=
  modify (fun c => {| committed := committed c; working := committed c;
                      faults := faults c; now := now c |}).

(** [except Exception as e: logging.error(...); raise] *)
Definition log_and_raise {A} (e : exn) : DB A := raise e.

(** [except Exception as e: conn.rollback(); logging.error(...); raise] *)
Definition rollback_and_raise {A} (e : exn) : DB A := rollback ;; raise e.

(** [get_accounts] *)
Definition get_accounts_body : DB (list account_row) :=
  execute (sql_select q_active_accounts).

Definition get_accounts : DB (list account_row) :=
  try_except get_accounts_body log_and_raise.

(** [save_account] *)
Definition save_account_body (account_data : account_dict) : DB unit :=
  execute (sql_insert_or_replace_account account_data) ;;
  commit.

Definition save_account (account_data : account_dict) : DB unit :=
  try_except (save_account_body account_data) rollback_and_raise.

(** The argument of [create_match]. *)
Record match_data : Type := {
  md_team1 : string;
  md_team2 : string;
  md_match_date : string;
  md_match_time : string
}.

(** [create_match] *)
Definition create_match_body (d : match_data) : DB Z :=
  match_id <- execute (sql_insert_match (md_team1 d) (md_team2 d)
                                        (md_match_date d) (md_match_time d)) ;;
  commit ;;
  ret match_id.

Definition create_match (d : match_data) : DB Z :=
  try_except (create_match_body d) rollback_and_raise.

(** The argument of [create_bet]. *)
Record bet_data : Type := {
  bd_match_id : option Z;
  bd_team1 : string;
  bd_team2 : string;
  bd_match_date : string;
  bd_match_time : string;
  bd_team1_odds : Q;
  bd_team2_odds : Q;
  bd_betting_value : Q;
  bd_bet_amount1 : Q;
  bd_bet_amount2 : Q;
  bd_team1_accounts : list Z;
  bd_team2_accounts : list Z
}.

(** [create_bet]: one transaction for the match (when [match_id] is missing
    or zero), the bet and the allocation rows.  Account balances are not
    touched here. *)
Definition create_bet_body (d : bet_data) : DB Z :=
  begin_transaction ;;
  match_id <- match bd_match_id d with
              | Some id => if id =? 0 then
                             execute (sql_insert_match (bd_team1 d) (bd_team2 d)
                                        (bd_match_date d) (bd_match_time d))
                           else ret id
              | None => execute (sql_insert_match (bd_team1 d) (bd_team2 d)
                                   (bd_match_date d) (bd_match_time d))
              end ;;
  bet_id <- execute (sql_insert_bet match_id (bd_team1_odds d) (bd_team2_odds d)
                                    (bd_betting_value d)) ;;
  for_each (bd_team1_accounts d)
           (fun acc => execute (sql_insert_bet_account bet_id acc 1 (bd_bet_amount1 d))) ;;
  for_each (bd_team2_accounts d)
           (fun acc => execute (sql_insert_bet_account bet_id acc 2 (bd_bet_amount2 d))) ;;
  commit ;;
  ret bet_id.

Definition create_bet (d : bet_data) : DB Z :=
  try_except (create_bet_body d) rollback_and_raise.

(** [get_active_bets] *)
Definition get_active_bets_body : DB (list active_bet_row) :=
  execute (sql_select q_active_bets).

Definition get_active_bets : DB (list active_bet_row) :=
  try_except get_active_bets_body log_and_raise.

(** The dictionary returned by [get_bet_details]. *)
Record bet_details : Type := {
  det_bet_id : Z;
  det_team1 : string;
  det_team2 : string;
  det_match_date : string;
  det_match_time : string;
  det_team1_odds : Q;
  det_team2_odds : Q;
  det_betting_value : Q;
  det_accounts : list bet_detail_account
}.

(** [str(bet_id)] *)
Definition str_of_Z (n : Z) : string := NilZero.string_of_int (Z.to_int n).

(** The messages of the [ValueError]s raised by the source. *)
Definition bet_not_found (bet_id : Z) : string :=
  "Bet " ++ str_of_Z bet_id ++ " not found".

Definition account_not_found (account_id : Z) : string :=
  "Account " ++ str_of_Z account_id ++ " not found.".

Definition insufficient_balance_in (account_id : Z) : string :=
  "Insufficient balance in account " ++ str_of_Z account_id ++ ".".

Arguments bet_not_found : simpl never.
Arguments account_not_found : simpl never.
Arguments insufficient_balance_in : simpl never.

(** [get_bet_details] *)
Definition get_bet_details_body (bet_id : Z) : DB bet_details :=
  bet_info <- execute (sql_select (q_bet_info bet_id)) ;;
  match bet_info with
  | None => raise (ValueError (bet_not_found bet_id))
  | Some b =>
      accounts <- execute (sql_select (q_bet_accounts bet_id)) ;;
      ret {| det_bet_id := bet_id; det_team1 := ab_team1 b; det_team2 := ab_team2 b;
             det_match_date := ab_match_date b; det_match_time := ab_match_time b;
             det_team1_odds := ab_team1_odds b; det_team2_odds := ab_team2_odds b;
             det_betting_value := ab_betting_value b; det_accounts := accounts |}
  end.

Definition get_bet_details (bet_id : Z) : DB bet_details :=
  try_except (get_bet_details_body bet_id) log_and_raise.

(** An entry of [result_data['winning_accounts']]. *)
Record winning_account : Type := {
  wa_account_id : Z;
  wa_profit : Q
}.

(** The argument of [save_result]; the optional keys are read with [.get]. *)
Record result_data : Type := {
  rd_bet_id : Z;
  rd_winning_team : option Z;
  rd_result_type : string;
  rd_profit_amount : option Q;
  rd_loss_amount : option Q;
  rd_cashout_details : option (list (Z * Q));
  rd_winning_accounts : option (list winning_account)
}.

(** [save_result]: one transaction that marks the bet completed, inserts the
    result row and, for a win, credits the winning accounts.  The status of
    the bet is not read, and nothing limits the results of a bet to one. *)
Definition save_result_body (d : result_data) : DB unit :=
  begin_transaction ;;
  execute (sql_complete_bet (rd_bet_id d)) ;;
  execute (sql_insert_result (rd_bet_id d) (rd_winning_team d) (rd_result_type d)
             (rd_profit_amount d) (rd_loss_amount d)
             (match rd_cashout_details d with Some l => l | None => [] end)) ;;
  (if String.eqb (rd_result_type d) "win" then
     match rd_winning_accounts d with
     | None => raise (KeyError "winning_accounts")
     | Some accs =>
         for_each accs
           (fun acc => execute (sql_credit_account (wa_profit acc) (wa_account_id acc)))
     end
   else ret tt) ;;
  commit.

Definition save_result (d : result_data) : DB unit :=
  try_except (save_result_body d) rollback_and_raise.

(** The dictionary returned by [get_settings]: the settings row, or the two
    default entries. *)
Record settings_dict : Type := {
  sd_min_transfer : Q;
  sd_default_betting_value : Q;
  sd_updated_at : option Z
}.

Definition default_settings : settings_dict :=
  {| sd_min_transfer := 250; sd_default_betting_value := 2100; sd_updated_at := None |}.

(** [get_settings]: [.iloc[0]] raises [IndexError] when the row is missing;
    any exception is logged and replaced by the defaults. *)
Definition get_settings_body : DB settings_dict :=
  row <- execute (sql_select q_settings) ;;
  match row with
  | Some s => ret {| sd_min_transfer := s_min_transfer s;
                     sd_default_betting_value := s_default_betting_value s;
                     sd_updated_at := Some (s_updated_at s) |}
  | None => raise IndexError
  end.

Definition get_settings : DB settings_dict :=
  try_except get_settings_body (fun _ => ret default_settings).

(** [save_settings] *)
Definition save_settings_body (min_transfer default_betting_value : Q) : DB unit :=
  execute (sql_update_settings min_transfer default_betting_value) ;;
  commit.

Definition save_settings (min_transfer default_betting_value : Q) : DB unit :=
  try_except (save_settings_body min_transfer default_betting_value) rollback_and_raise.

(** [get_bet_history]: the completed bets with their results, each with the
    accounts of the bet; any exception is logged and replaced by an empty
    frame. *)
Definition get_bet_history_body : DB (list (history_row * list bet_detail_account)) :=
  bets <- execute (sql_select q_completed_bets) ;;
  for_collect bets
    (fun h => accounts <- execute (sql_select (q_bet_accounts (ab_bet_id (h_bet h)))) ;;
              ret [(h, accounts)]).

Definition get_bet_history : DB (list (history_row * list bet_detail_account)) :=
  try_except get_bet_history_body (fun _ => ret []).

(* ===================================================================== *)
(** ** The application state and [update_account_balance] ([stake.py])    *)
(* ===================================================================== *)

(** The cached snapshots kept in [st.session_state]. *)
Record session : Type := {
  account_data : list account_row;      (* the frame returned by get_accounts *)
  active_bets : list active_bet_row     (* the frame returned by get_active_bets *)
}.

Record app : Type := {
  sess : session;
  conn : connection
}.

Definition UI (A : Type) : Type := M app A.

(** A call of a [Database] method from the script. *)
Definition db_call {A} (c : DB A) : UI A :=
  fun w => match c (conn w) with
           | (r, c') => (r, {| sess := sess w; conn := c' |})
           end.

Definition set_account_data (l : list account_row) : UI unit :=
  modify (fun w => {| sess := {| account_data := l;
                                 active_bets := active_bets (sess w) |};
                      conn := conn w |}).

Definition set_active_bets (l : list active_bet_row) : UI unit :=
  modify (fun w => {| sess := {| account_data := account_data (sess w);
                                 active_bets := l |};
                      conn := conn w |}).

(** [account_data[account_data['account_id'] == account_id]], first row. *)
Definition session_account (account_id : Z) (w : app) : option account_row :=
  find (fun a => a_account_id a =? account_id) (account_data (sess w)).

(** [account_data.loc[idx, 'balance'] = v], [idx] being the first row with
    that account id. *)
Fixpoint set_balance (account_id : Z) (v : Q) (l : list account_row) : list account_row :=
  match l with
  | [] => []
  | a :: l' =>
      if a_account_id a =? account_id then
        {| a_account_id := a_account_id a; a_name := a_name a; a_balance := v;
           a_remarks := a_remarks a; a_created_at := a_created_at a;
           a_updated_at := a_updated_at a; a_is_active := a_is_active a |} :: l'
      else a :: set_balance account_id v l'
  end.

(** [x < y] on amounts. *)
Definition Qltb (x y : Q) : bool := negb (Qle_bool y x).

(** [account_data.iloc[idx].to_dict()], as far as [save_account] reads it. *)
Definition to_dict (a : account_row) : account_dict :=
  {| ad_account_id := a_account_id a; ad_name := Some (a_name a);
     ad_balance := a_balance a; ad_remarks := Some (a_remarks a) |}.

(** [update_account_balance]: changes the balance in the cached frame, then
    writes the cached row with [save_account] (its own commit). *)
Definition update_account_balance_body (account_id : Z) (amount : Q) (operation : string)
  : UI unit :=
  w <- get ;;
  match session_account account_id w with
  | None => raise (ValueError (account_not_found account_id))
  | Some row =>
      (if String.eqb operation "add" then
         set_account_data (set_balance account_id (a_balance row + amount)%Q
                                       (account_data (sess w)))
       else if Qltb (a_balance row) amount then
         raise (ValueError (insufficient_balance_in account_id))
       else
         set_account_data (set_balance account_id (a_balance row - amount)%Q
                                       (account_data (sess w)))) ;;
      w' <- get ;;
      match session_account account_id w' with
      | None => raise IndexError
      | Some row' => db_call (save_account (to_dict row'))
      end
  end.

Definition update_account_balance (account_id : Z) (amount : Q) (operation : string)
  : UI unit :=
  try_except (update_account_balance_body account_id amount operation)
             (fun e => raise e).

(* ===================================================================== *)
(** ** The betting form's submit handler ([stake.py], "Place Bet")        *)
(* ===================================================================== *)

(** The values that the widgets of the form return in a script run. *)
Record form_widgets : Type := {
  fw_betting_value : float;    (* number_input, 100.0 to 10000.0 *)
  fw_show_accurate : bool;
  fw_team1 : string;
  fw_team2 : string;
  fw_odds1 : float;            (* number_input, 1.0 to 100.0 *)
  fw_odds2 : float;
  fw_team1_accounts : list Z;
  fw_team2_accounts : list Z;
  fw_match_date : string;      (* already formatted with strftime('%Y-%m-%d') *)
  fw_match_time : string
}.

(** What the submit handler reads: the values of the widgets and the two
    stakes [bet_amount1] and [bet_amount2] computed while the form was drawn,
    all amounts as ledger amounts. *)
Record betting_form : Type := {
  f_betting_value : Q;
  f_show_accurate : bool;
  f_team1 : string;
  f_team2 : string;
  f_odds1 : Q;
  f_odds2 : Q;
  f_bet_amount1 : Q;
  f_bet_amount2 : Q;
  f_team1_accounts : list Z;
  f_team2_accounts : list Z;
  f_match_date : string;
  f_match_time : string
}.

(** Drawing the form: the two stakes are computed from the widgets with
    [calculate_bet_amount], outside any [try] block, so that its exceptions
    end the script run.  The result is the form with the exact values of its
    numbers; there is none when a number is infinite or NaN, which the ledger
    amounts of this model do not represent. *)
Definition draw_form (wd : form_widgets) : res (option betting_form) :=
  match calculate_bet_amount (fw_betting_value wd) (fw_odds1 wd) (fw_show_accurate wd) with
  | Raise e => Raise e
  | Ok bet_amount1 =>
      match calculate_bet_amount (fw_betting_value wd) (fw_odds2 wd)
                                 (fw_show_accurate wd) with
      | Raise e => Raise e
      | Ok bet_amount2 =>
          Ok (match float_value (fw_betting_value wd),
                    float_value (fw_odds1 wd), float_value (fw_odds2 wd),
                    number_value bet_amount1, number_value bet_amount2 with
              | Some betting_value, Some odds1, Some odds2, Some a1, Some a2 =>
                  Some {| f_betting_value := betting_value;
                          f_show_accurate := fw_show_accurate wd;
                          f_team1 := fw_team1 wd; f_team2 := fw_team2 wd;
                          f_odds1 := odds1; f_odds2 := odds2;
                          f_bet_amount1 := a1; f_bet_amount2 := a2;
                          f_team1_accounts := fw_team1_accounts wd;
                          f_team2_accounts := fw_team2_accounts wd;
                          f_match_date := fw_match_date wd;
                          f_match_time := fw_match_time wd |}
              | _, _, _, _, _ => None
              end)
      end
  end.

(** An entry of the "Insufficient balance" report: the tuple appended to
    [insufficient_accounts], and the current balance shown with it. *)
Record shortfall : Type := {
  sf_account_id : Z;
  sf_required : Q;
  sf_team : string;
  sf_current : Q
}.

(** What the handler shows. *)
Inductive place_outcome : Type :=
| SelectBothTeams                       (* "Please select accounts for both teams." *)
| SelectTeam1                           (* "Please select accounts for Team 1." *)
| SelectTeam2                           (* "Please select accounts for Team 2." *)
| UnequalAccounts (n1 n2 : nat)         (* "Unequal number of accounts selected: ..." *)
| InsufficientAccounts (l : list shortfall)   (* "Insufficient balance in some accounts:" *)
| BetPlaced (bet_id : Z)                (* "Bet placed successfully!" *)
| ErrorPlacingBet (e : exn).            (* "Error placing bet: ..." *)

(** [account_data[account_data['account_id'] == acc].iloc[0]] *)
Definition lookup_account (acc : Z) : UI account_row :=
  w <- get ;;
  match session_account acc w with
  | Some a => ret a
  | None => raise IndexError
  end.

(** One of the two validation loops: the accounts of a side whose cached
    balance is below the side's stake. *)
Definition check_balances (accs : list Z) (bet_amount : Q) (team : string)
  : UI (list (Z * Q * string)) :=
  for_collect accs
    (fun acc => account <- lookup_account acc ;;
                ret (if Qltb (a_balance account) bet_amount
                     then [(acc, bet_amount, team)] else [])).

(** The loop that reports the entries of [insufficient_accounts]. *)
Definition report_shortfalls (l : list (Z * Q * string)) : UI (list shortfall) :=
  for_collect l
    (fun '(acc, required, team) =>
       account <- lookup_account acc ;;
       ret [ {| sf_account_id := acc; sf_required := required; sf_team := team;
                sf_current := a_balance account |} ]).

Definition bet_data_of_form (f : betting_form) (bet_amount1 bet_amount2 : Q) : bet_data :=
  {| bd_match_id := None;
     bd_team1 := f_team1 f; bd_team2 := f_team2 f;
     bd_match_date := f_match_date f; bd_match_time := f_match_time f;
     bd_team1_odds := f_odds1 f; bd_team2_odds := f_odds2 f;
     bd_betting_value := f_betting_value f;
     bd_bet_amount1 := bet_amount1; bd_bet_amount2 := bet_amount2;
     bd_team1_accounts := f_team1_accounts f;
     bd_team2_accounts := f_team2_accounts f |}.

(** The [try] block of the handler, entered when both sides are non-empty and
    of equal size. *)
Definition place_bet_try (f : betting_form) (bet_amount1 bet_amount2 : Q)
  : UI place_outcome :=
  short1 <- check_balances (f_team1_accounts f) bet_amount1 "Team 1" ;;
  short2 <- check_balances (f_team2_accounts f) bet_amount2 "Team 2" ;;
  match short1 ++ short2 with
  | _ :: _ =>
      msgs <- report_shortfalls (short1 ++ short2) ;;
      ret (InsufficientAccounts msgs)
  | [] =>
      bet_id <- db_call (create_bet (bet_data_of_form f bet_amount1 bet_amount2)) ;;
      for_each (f_team1_accounts f)
               (fun acc => update_account_balance acc bet_amount1 "subtract") ;;
      for_each (f_team2_accounts f)
               (fun acc => update_account_balance acc bet_amount2 "subtract") ;;
      bets <- db_call get_active_bets ;;
      set_active_bets bets ;;
      accounts <- db_call get_accounts ;;
      set_account_data accounts ;;
      ret (BetPlaced bet_id)
  end.

(** The handler ([if submitted:]), with the two stakes of the drawn form. *)
Definition place_bet (f : betting_form) : UI place_outcome :=
  match f_team1_accounts f, f_team2_accounts f with
  | [], [] => ret SelectBothTeams
  | [], _ :: _ => ret SelectTeam1
  | _ :: _, [] => ret SelectTeam2
  | l1, l2 =>
      if negb (Nat.eqb (List.length l1) (List.length l2)) then
        ret (UnequalAccounts (List.length l1) (List.length l2))
      else
        try_except (place_bet_try f (f_bet_amount1 f) (f_bet_amount2 f))
                   (fun e => ret (ErrorPlacingBet e))
  end.

(* ===================================================================== *)
(** ** The settlement buttons ([stake.py], "Active Bets")                 *)
(* ===================================================================== *)

Inductive settle_outcome : Type :=
| Applied                      (* "... applied successfully!" *)
| ErrorApplying (e : exn).     (* "Error applying ...: ..." *)

(** The loop of "Apply Win" over the accounts of the winning side: each is
    credited through [update_account_balance] and recorded in
    [winning_accounts]. *)
Definition credit_winners (accounts : list bet_detail_account) (team_number : Z) (odds : Q)
  : UI (list winning_account) :=
  for_collect accounts
    (fun acc =>
       if da_team_number acc =? team_number then
         let profit := (da_bet_amount acc * odds)%Q in
         update_account_balance (da_account_id acc) profit "add" ;;
         ret [ {| wa_account_id := da_account_id acc; wa_profit := profit |} ]
       else ret []).

(** "Apply Win" for a bet of the cached list and the selected winning team. *)
Definition apply_win (bet : active_bet_row) (winning_team : string) : UI settle_outcome :=
  try_except
    (details <- db_call (get_bet_details (ab_bet_id bet)) ;;
     winning_accounts <-
       (if String.eqb winning_team (ab_team1 bet)
        then credit_winners (det_accounts details) 1 (ab_team1_odds bet)
        else credit_winners (det_accounts details) 2 (ab_team2_odds bet)) ;;
     db_call (save_result
                {| rd_bet_id := ab_bet_id bet;
                   rd_winning_team :=
                     Some (if String.eqb winning_team (ab_team1 bet) then 1 else 2);
                   rd_result_type := "win";
                   rd_profit_amount := None; rd_loss_amount := None;
                   rd_cashout_details := None;
                   rd_winning_accounts := Some winning_accounts |}) ;;
     bets <- db_call get_active_bets ;;
     set_active_bets bets ;;
     accounts <- db_call get_accounts ;;
     set_account_data accounts ;;
     ret Applied)
    (fun e => ret (ErrorApplying e)).

(** "Apply Loss". *)
Definition apply_loss (bet : active_bet_row) : UI settle_outcome :=
  try_except
    (db_call (save_result
                {| rd_bet_id := ab_bet_id bet; rd_winning_team := Some 0;
                   rd_result_type := "loss";
                   rd_profit_amount := None; rd_loss_amount := None;
                   rd_cashout_details := None; rd_winning_accounts := None |}) ;;
     bets <- db_call get_active_bets ;;
     set_active_bets bets ;;
     ret Applied)
    (fun e => ret (ErrorApplying e)).

(** "Complete Cashout" with the list collected in [cashout_details]. *)
Definition complete_cashout (bet : active_bet_row) (cashout_details : list (Z * Q))
  : UI settle_outcome :=
  try_except
    (db_call (save_result
                {| rd_bet_id := ab_bet_id bet; rd_winning_team := Some 0;
                   rd_result_type := "cashout";
                   rd_profit_amount := None; rd_loss_amount := None;
                   rd_cashout_details := Some cashout_details;
                   rd_winning_accounts := None |}) ;;
     bets <- db_call get_active_bets ;;
     set_active_bets bets ;;
     accounts <- db_call get_accounts ;;
     set_account_data accounts ;;
     ret Applied)
    (fun e => ret (ErrorApplying e)).

(* ===================================================================== *)
(** ** The error kinds of the specification                               *)
(* ===================================================================== *)

(** The error kinds named by the specification (section 7), and the kind
    under which each message of the submit handler falls: the three "Please
    select" messages, the "Unequal number" message, the "Insufficient
    balance" report, and the generic "Error placing bet" message that wraps
    whatever exception the [try] block raised.  This definition follows the
    specification's vocabulary; the source has no such type. *)
Inductive error_kind : Type :=
| InvalidInput
| MissingAccounts
| AccountOnBothSides
| UnbalancedSides
| InsufficientBalance
| BetNotFound
| BetAlreadySettled
| StorageFailure.

Definition spec_error_kind (o : place_outcome) : option error_kind :=
  match o with
  | SelectBothTeams | SelectTeam1 | SelectTeam2 => Some MissingAccounts
  | UnequalAccounts _ _ => Some UnbalancedSides
  | InsufficientAccounts _ => Some InsufficientBalance
  | BetPlaced _ => None
  | ErrorPlacingBet _ => Some StorageFailure
  end.

(* ===================================================================== *)
(** ** Effects of the methods, for the statements below                   *)
(* ===================================================================== *)

(** The balance that [update_account_balance] computes from the cached one. *)
Definition new_balance (operation : string) (balance amount : Q) : Q :=
  if String.eqb operation "add" then (balance + amount)%Q else (balance - amount)%Q.

(** The result row inserted by [save_result]. *)
Definition result_row_for (d : result_data) (now : Z) (db : database) : result_row :=
  {| r_result_id := seq_results db + 1; r_bet_id := rd_bet_id d;
     r_winning_team := rd_winning_team d; r_result_type := rd_result_type d;
     r_profit_amount := rd_profit_amount d; r_loss_amount := rd_loss_amount d;
     r_cashout_details := match rd_cashout_details d with Some l => l | None => [] end;
     r_created_at := now |}.

(** The credits of the loop of [save_result]. *)
Definition credit_winning_accounts (accs : list winning_account) (now : Z) (db : database)
  : database :=
  fold_left (fun db acc => credit_account (wa_profit acc) (wa_account_id acc) now db)
            accs db.

(** The database after a [save_result] that went through. *)
Definition settled (d : result_data) (now : Z) (db : database) : database :=
  let db' := add_result (result_row_for d now db) (complete_bet (rd_bet_id d) now db) in
  if String.eqb (rd_result_type d) "win" then
    credit_winning_accounts
      (match rd_winning_accounts d with Some l => l | None => [] end) now db'
  else db'.

(** A computation that leaves the committed database and the clock alone. *)
Definition keeps_committed {A} (m : DB A) : Prop :=
  forall c, committed (snd (m c)) = committed c /\ now (snd (m c)) = now c.

(** A computation that, when it raises, has committed nothing. *)
Definition fails_cleanly {A} (m : DB A) : Prop :=
  forall c e c', m c = (Raise e, c') -> committed c' = committed c /\ now c' = now c.

(** An account of the cached frame whose balance is below a stake. *)
Definition is_short (w : app) (bet_amount : Q) (acc : Z) : bool :=
  match session_account acc w with
  | Some a => Qltb (a_balance a) bet_amount
  | None => false
  end.

(** The report entry for an account: required stake and cached balance. *)
Definition shortfall_of (w : app) (bet_amount : Q) (team : string) (acc : Z) : shortfall :=
  {| sf_account_id := acc; sf_required := bet_amount; sf_team := team;
     sf_current := match session_account acc w with
                   | Some a => a_balance a
                   | None => 0
                   end |}.

(** The report entries for all the accounts of a side that fall short. *)
Definition shortfalls (w : app) (accs : list Z) (bet_amount : Q) (team : string)
  : list shortfall :=
  map (shortfall_of w bet_amount team) (filter (is_short w bet_amount) accs).

(* ===================================================================== *)
(** ** Sample states, for the concrete runs below                         *)
(* ===================================================================== *)

Definition sample_account (id : Z) (balance : Q) (active : bool) : account_row :=
  {| a_account_id := id; a_name := default_account_name id; a_balance := balance;
     a_remarks := ""; a_created_at := 0; a_updated_at := 0; a_is_active := active |}.

(** Two active accounts holding 5000 each and a deactivated third one. *)
Definition sample_db : database :=
  set_accounts [sample_account 1 5000 true; sample_account 2 5000 true;
                sample_account 3 40 false]
               (empty_database 0).

(** The snapshots a script run takes from a database. *)
Definition session_of (db : database) : session :=
  {| account_data := q_active_accounts db; active_bets := q_active_bets db |}.

(** The application at time [t] over [db], with the fault oracle [fs]. *)
Definition app_on (db : database) (fs : list bool) (t : Z) : app :=
  {| sess := session_of db; conn := connect db fs t |}.

(** 2100 on Chennai at odds 2 with account 1 against Mumbai at odds 3 with
    account 2, rounded stakes: 1050 and 700. *)
Definition sample_widgets : form_widgets :=
  {| fw_betting_value := 2100; fw_show_accurate := false;
     fw_team1 := "Chennai Super Kings"; fw_team2 := "Mumbai Indians";
     fw_odds1 := 2; fw_odds2 := 3;
     fw_team1_accounts := [1]; fw_team2_accounts := [2];
     fw_match_date := "2025-04-01"; fw_match_time := "3:30 PM" |}.

(** The same widgets with other boxes ticked. *)
Definition with_accounts (wd : form_widgets) (team1_accounts team2_accounts : list Z)
  : form_widgets :=
  {| fw_betting_value := fw_betting_value wd; fw_show_accurate := fw_show_accurate wd;
     fw_team1 := fw_team1 wd; fw_team2 := fw_team2 wd;
     fw_odds1 := fw_odds1 wd; fw_odds2 := fw_odds2 wd;
     fw_team1_accounts := team1_accounts; fw_team2_accounts := team2_accounts;
     fw_match_date := fw_match_date wd; fw_match_time := fw_match_time wd |}.

(** 10000 at odds 1 on both sides. *)
Definition large_widgets : form_widgets :=
  {| fw_betting_value := 10000; fw_show_accurate := false;
     fw_team1 := "Chennai Super Kings"; fw_team2 := "Mumbai Indians";
     fw_odds1 := 1; fw_odds2 := 1;
     fw_team1_accounts := [1]; fw_team2_accounts := [2];
     fw_match_date := "2025-04-01"; fw_match_time := "3:30 PM" |}.

Definition sample_form : betting_form :=
  {| f_betting_value := 2100; f_show_accurate := false;
     f_team1 := "Chennai Super Kings"; f_team2 := "Mumbai Indians";
     f_odds1 := 2; f_odds2 := 3;
     f_bet_amount1 := 1050; f_bet_amount2 := 700;
     f_team1_accounts := [1]; f_team2_accounts := [2];
     f_match_date := "2025-04-01"; f_match_time := "3:30 PM" |}.

(** The same form with account 1 ticked on both sides. *)
Definition overlapping_form : betting_form :=
  {| f_betting_value := 2100; f_show_accurate := false;
     f_team1 := "Chennai Super Kings"; f_team2 := "Mumbai Indians";
     f_odds1 := 2; f_odds2 := 3;
     f_bet_amount1 := 1050; f_bet_amount2 := 700;
     f_team1_accounts := [1]; f_team2_accounts := [1];
     f_match_date := "2025-04-01"; f_match_time := "3:30 PM" |}.

(** [large_form] with account 7, which no database of these samples holds,
    on side 2. *)
Definition short_and_missing_form : betting_form :=
  {| f_betting_value := 10000; f_show_accurate := false;
     f_team1 := "Chennai Super Kings"; f_team2 := "Mumbai Indians";
     f_odds1 := 1; f_odds2 := 1;
     f_bet_amount1 := 10000; f_bet_amount2 := 10000;
     f_team1_accounts := [1]; f_team2_accounts := [7];
     f_match_date := "2025-04-01"; f_match_time := "3:30 PM" |}.

(** [sample_db] after account 1 has been emptied down to 40 behind the back
    of the running script. *)
Definition drained_db : database :=
  set_accounts [sample_account 1 40 true; sample_account 2 5000 true;
                sample_account 3 40 false]
               (empty_database 0).

(** [sample_db] after [Database.create_bet] alone has stored the bet of
    [sample_form] at time 10: bet 1 with its two allocation rows. *)
Definition staked_db : database :=
  committed (snd (create_bet (bet_data_of_form sample_form 1050 700)
                             (connect sample_db [] 10))).

(** The row of bet 1 in the list of active bets. *)
Definition sample_bet : active_bet_row :=
  {| ab_bet_id := 1; ab_team1 := "Chennai Super Kings"; ab_team2 := "Mumbai Indians";
     ab_match_date := "2025-04-01"; ab_match_time := "3:30 PM";
     ab_team1_odds := 2; ab_team2_odds := 3; ab_betting_value := 2100;
     ab_created_at := 10 |}.

(** This form asks 10000 of each of the two accounts of [sample_db]. *)
Definition large_form : betting_form :=
  {| f_betting_value := 10000; f_show_accurate := false;
     f_team1 := "Chennai Super Kings"; f_team2 := "Mumbai Indians";
     f_odds1 := 1; f_odds2 := 1;
     f_bet_amount1 := 10000; f_bet_amount2 := 10000;
     f_team1_accounts := [1]; f_team2_accounts := [2];
     f_match_date := "2025-04-01"; f_match_time := "3:30 PM" |}.

(* ===================================================================== *)
(** ** The side bar and the cashout panel ([stake.py])                    *)
(* ===================================================================== *)

(** The "Save" button of account [i] in the side bar: the account is saved
    under the name [f'Account {i}'] with the balance and the remarks of the
    two inputs, and the cached frame is read again. *)
Definition save_account_button (i : Z) (balance : Q) (remarks : string)
  : UI settle_outcome :=
  try_except
    (db_call (save_account {| ad_account_id := i;
                              ad_name := Some (default_account_name i);
                              ad_balance := balance;
                              ad_remarks := Some remarks |}) ;;
     accounts <- db_call get_accounts ;;
     set_account_data accounts ;;
     ret Applied)
    (fun e => ret (ErrorApplying e)).

(** The widgets of one account in the cashout panel, as a script run sees
    them: the "Cashed Out" box, the amount, and whether "Apply Cashout" was
    the button pressed. *)
Record cashout_widgets : Type := {
  cw_cashed_out : bool;
  cw_amount : Q;
  cw_apply_pressed : bool
}.

(** The body of the loop over the accounts of the bet: a pressed "Apply
    Cashout" credits the account through [update_account_balance] and appends
    to [cashout_details]; a failure is shown and nothing is appended. *)
Definition cashout_account (widgets : Z -> cashout_widgets) (acc : bet_detail_account)
  : UI (list (Z * Q)) :=
  let w := widgets (da_account_id acc) in
  if cw_cashed_out w && cw_apply_pressed w then
    try_except
      (update_account_balance (da_account_id acc) (cw_amount w) "add" ;;
       ret [(da_account_id acc, cw_amount w)])
      (fun _ => ret [])
  else ret [].

(** One run of the script with "Cashout" selected for a bet: the details of
    the bet are read outside any [try], the loop runs, and "Complete
    Cashout", when pressed, saves the result with the list collected in this
    run. *)
Definition cashout_panel (bet : active_bet_row) (widgets : Z -> cashout_widgets)
    (complete_pressed : bool) : UI (option settle_outcome) :=
  details <- db_call (get_bet_details (ab_bet_id bet)) ;;
  cashout_details <- for_collect (det_accounts details) (cashout_account widgets) ;;
  if complete_pressed then
    o <- complete_cashout bet cashout_details ;;
    ret (Some o)
  else ret None.

(** The account lists of the form: the numbers [1 .. num_accounts] whose box
    is ticked, in increasing order
    ([for i in range(1, num_accounts + 1): if st.checkbox(...): append(i)]). *)
Definition selected_accounts (num_accounts : nat) (ticked : Z -> bool) : list Z :=
  filter ticked (map Z.of_nat (seq 1 num_accounts)).

(* ===================================================================== *)
(** ** The constraints of the schema                                      *)
(* ===================================================================== *)

Definition account_ids (db : database) : list Z := map a_account_id (accounts db).
Definition match_ids (db : database) : list Z := map m_match_id (matches db).
Definition bet_ids (db : database) : list Z := map b_bet_id (bets db).
Definition result_ids (db : database) : list Z := map r_result_id (results db).
Definition allocation_keys (db : database) : list (Z * Z) :=
  map (fun ba => (ba_bet_id ba, ba_account_id ba)) (bet_accounts db).

(** What the declarations of [_setup_database] promise of a database file:
    the primary keys are unique, the AUTOINCREMENT counters are not below the
    identifiers in use, every foreign key points to a row, the team number
    of an allocation is 1 or 2, and the account identifiers, being INTEGER
    keys, are 64-bit integers. *)
Record integrity (db : database) : Prop := {
  unique_accounts : NoDup (account_ids db);
  unique_matches : NoDup (match_ids db);
  unique_bets : NoDup (bet_ids db);
  unique_results : NoDup (result_ids db);
  unique_allocations : NoDup (allocation_keys db);
  matches_below_seq : forall id, In id (match_ids db) -> id <= seq_matches db;
  bets_below_seq : forall id, In id (bet_ids db) -> id <= seq_bets db;
  results_below_seq : forall id, In id (result_ids db) -> id <= seq_results db;
  bet_has_match : forall b, In b (bets db) -> In (b_match_id b) (match_ids db);
  allocation_has_bet :
    forall ba, In ba (bet_accounts db) -> In (ba_bet_id ba) (bet_ids db);
  allocation_has_account :
    forall ba, In ba (bet_accounts db) -> In (ba_account_id ba) (account_ids db);
  allocation_team :
    forall ba, In ba (bet_accounts db) -> ba_team_number ba = 1 \/ ba_team_number ba = 2;
  result_has_bet : forall r, In r (results db) -> In (r_bet_id r) (bet_ids db);
  account_ids_int64 : forall id, In id (account_ids db) -> is_int64 id = true
}.

(** Both the file and the working copy of a connection satisfy them. *)
Definition conn_integrity (c : connection) : Prop :=
  integrity (committed c) /\ integrity (working c).

(** A statement that keeps the constraints. *)
Definition keeps_integrity {A} (st : statement A) : Prop :=
  forall t db a db', st t db = Ok (a, db') -> integrity db -> integrity db'.

(** A computation that keeps a property of the state, whatever it returns. *)
Definition respects {S A} (I : S -> Prop) (m : M S A) : Prop :=
  forall s, I s -> I (snd (m s)).

(** A computation on the connection, or on the application, that keeps the
    constraints. *)
Definition preserves {A} (m : DB A) : Prop := respects conn_integrity m.

(** A statement that keeps a property [J] of the database, and a connection
    whose file and working copy both have it. *)
Definition keeps (J : database -> Prop) {A} (st : statement A) : Prop :=
  forall t db a db', st t db = Ok (a, db') -> J db -> J db'.

Definition conn_holds (J : database -> Prop) (c : connection) : Prop :=
  J (committed c) /\ J (working c).

(** The bet [bet_id] is stored with the status [completed]. *)
Definition is_completed (bet_id : Z) (db : database) : Prop :=
  exists b, find_bet bet_id db = Some b /\ b_status b = "completed".

Definition ui_preserves {A} (m : UI A) : Prop :=
  respects (fun w => conn_integrity (conn w)) m.

(* ===================================================================== *)
(** ** The database after a bet was created                               *)
(* ===================================================================== *)

(** The allocation row that [create_bet] inserts for an account. *)
Definition allocation_row (bet_id team_number : Z) (bet_amount : Q) (now : Z) (acc : Z)
  : bet_account_row :=
  {| ba_bet_id := bet_id; ba_account_id := acc; ba_team_number := team_number;
     ba_bet_amount := bet_amount; ba_status := "active"; ba_created_at := now |}.

(** The match of the new bet: the one named by a non-zero [match_id], and
    otherwise a new match. *)
Definition names_match (d : bet_data) : option Z :=
  match bd_match_id d with
  | Some id => if id =? 0 then None else Some id
  | None => None
  end.

Definition match_of_bet (d : bet_data) (db : database) : Z :=
  match names_match d with
  | Some id => id
  | None => seq_matches db + 1
  end.

Definition new_bet_row (d : bet_data) (now : Z) (db : database) : bet_row :=
  {| b_bet_id := seq_bets db + 1; b_match_id := match_of_bet d db;
     b_team1_odds := bd_team1_odds d; b_team2_odds := bd_team2_odds d;
     b_betting_value := bd_betting_value d; b_status := "active";
     b_created_at := now; b_updated_at := now |}.

(** The database after a [create_bet] that went through. *)
Definition bet_created (d : bet_data) (now : Z) (db : database) : database :=
  {| accounts := accounts db;
     matches := match names_match d with
                | Some _ => matches db
                | None =>
                    matches db
                      ++ [ {| m_match_id := seq_matches db + 1;
                              m_team1 := bd_team1 d; m_team2 := bd_team2 d;
                              m_match_date := bd_match_date d;
                              m_match_time := bd_match_time d;
                              m_status := "upcoming";
                              m_created_at := now; m_updated_at := now |} ]
                end;
     bets := bets db ++ [new_bet_row d now db];
     bet_accounts :=
       bet_accounts db
         ++ (map (allocation_row (seq_bets db + 1) 1 (bd_bet_amount1 d) now)
                 (bd_team1_accounts d)
               ++ map (allocation_row (seq_bets db + 1) 2 (bd_bet_amount2 d) now)
                      (bd_team2_accounts d));
     results := results db;
     settings := settings db;
     seq_matches := match names_match d with
                    | Some _ => seq_matches db
                    | None => seq_matches db + 1
                    end;
     seq_bets := seq_bets db + 1;
     seq_results := seq_results db |}.

(* ===================================================================== *)
(** * Properties                                                          *)
(* ===================================================================== *)

(** ** Stake calculator *)

(** A float above zero, and a float of the range of the "Odds" input, does
    not compare equal to zero: the division by it does not raise. *)
Lemma positive_is_nonzero (x : float) : (0 <? x)%float = true -> (x =? 0)%float = false.
Proof.
  rewrite ltb_spec, eqb_spec.
  change (Prim2SF 0) with (S754_zero false).
  destruct (Prim2SF x) as [s|s| |s m e]; try discriminate;
    destruct s; try discriminate; reflexivity.
Qed.

Lemma at_least_one_is_nonzero (x : float) :
  (1 <=? x)%float = true -> (x =? 0)%float = false.
Proof.
  rewrite leb_spec, eqb_spec.
  change (Prim2SF 0) with (S754_zero false).
  change (Prim2SF 1) with (S754_finite false 4503599627370496 (-52)).
  destruct (Prim2SF x) as [s|s| |s m e]; try discriminate;
    destruct s; try discriminate; reflexivity.
Qed.

Lemma py_div_nonzero (a b : float) :
  (b =? 0)%float = false -> py_div a b = Ok (a / b)%float.
Proof. intros Hb. unfold py_div. rewrite Hb. reflexivity. Qed.

Lemma py_div_zero (a b : float) :
  (b =? 0)%float = true -> py_div a b = Raise ZeroDivisionError.
Proof. intros Hb. unfold py_div. rewrite Hb. reflexivity. Qed.

Lemma Qceiling_bounds (q : Q) :
  (inject_Z (Qceiling q) - 1 < q)%Q /\ (q <= inject_Z (Qceiling q))%Q.
Proof.
  split.
  - assert (H := Qceiling_lt q).
    unfold Z.sub in H. rewrite inject_Z_plus in H. exact H.
  - apply Qle_ceiling.
Qed.

(** On a float with a value, [math.ceil] returns the only integer [n] with
    [n - 1 < x <= n]; on the others it raises. *)
Lemma math_ceil_bounds (x : float) (q : Q) :
  float_value x = Some q ->
  exists n, math_ceil x = Ok n /\ (inject_Z n - 1 < q)%Q /\ (q <= inject_Z n)%Q.
Proof.
  unfold float_value, math_ceil.
  destruct (Prim2SF x) as [s|s| |s m e]; try discriminate; intros H; injection H as <-.
  - exists 0. split; [reflexivity|]. split; [reflexivity|discriminate].
  - eexists. split; [reflexivity|]. apply Qceiling_bounds.
Qed.

(** C4 (as stated, refuted).  The stake is computed from the quotient as
    rounded by the binary64 division, not from the quotient itself.  For the
    total value 110.00000000000001 at odds 1.1, two floats above zero, the
    rounded quotient is 100 and so is the stake, while the quotient of the
    two floats is above 100, its ceiling is 101, and 100 times the odds is
    less than the total value.  For 700 at odds 1.40 the stake is 501, the
    float nearest to 1.40 being below it.  For the total value 1e308 at odds
    0.1 the quotient overflows and rounding it up raises [OverflowError]:
    nothing is returned. *)
Lemma rounded_stake_is_not_the_ceiling_of_the_quotient :
  (0 <? 110.00000000000001)%float = true /\ (0 <? 1.1)%float = true /\
  calculate_bet_amount 110.00000000000001 1.1 false = Ok (PyInt 100) /\
  (exists v o,
      float_value 110.00000000000001 = Some v /\ float_value 1.1 = Some o /\
      Qceiling (v / o) = 101 /\ (100 * o < v)%Q) /\
  calculate_bet_amount 700 1.4 false = Ok (PyInt 501) /\
  (0 <? 1e308)%float = true /\ (0 <? 0.1)%float = true /\
  calculate_bet_amount 1e308 0.1 false = Raise ceil_of_infinity.
Proof.
  split; [reflexivity|]. split; [reflexivity|]. split; [reflexivity|].
  split.
  { eexists. eexists. split; [reflexivity|]. split; [reflexivity|].
    split; [vm_compute; reflexivity|reflexivity]. }
  split; [reflexivity|]. split; [reflexivity|]. split; reflexivity.
Qed.

(** C4 (amended).  For odds above zero and any total value, the exact stake
    is the binary64 quotient of the two.  The rounded stake is obtained from
    that rounded quotient [q]: when [q] is a number it is the integer [n]
    with [n - 1 < q <= n], when [q] is infinite the call raises
    [OverflowError], and when [q] is NaN it raises [ValueError].  The stake
    for 2100 at odds 2 is 1050, for 2100 at odds 3 it is 700, and the exact
    stake for 1000 at odds 3 is within a hundredth of 333.33.  The function
    is a pure function of its three arguments. *)
Theorem calculate_bet_amount_spec :
  (forall totalValue odds : float,
      (0 <? odds)%float = true ->
      calculate_bet_amount totalValue odds true = Ok (PyFloat (totalValue / odds)) /\
      (forall q, float_value (totalValue / odds) = Some q ->
         exists n, calculate_bet_amount totalValue odds false = Ok (PyInt n) /\
                   (inject_Z n - 1 < q)%Q /\ (q <= inject_Z n)%Q) /\
      (forall s, Prim2SF (totalValue / odds) = S754_infinity s ->
         calculate_bet_amount totalValue odds false = Raise ceil_of_infinity) /\
      (Prim2SF (totalValue / odds) = S754_nan ->
         calculate_bet_amount totalValue odds false = Raise ceil_of_nan)) /\
  calculate_bet_amount 2100 2 false = Ok (PyInt 1050) /\
  calculate_bet_amount 2100 3 false = Ok (PyInt 700) /\
  (exists x q, calculate_bet_amount 1000 3 true = Ok (PyFloat x) /\
               float_value x = Some q /\ (Qabs (q - 333.33) < 0.01)%Q).
Proof.
  split; [|split; [reflexivity|split; [reflexivity|]]].
  - intros v o Ho.
    unfold calculate_bet_amount.
    rewrite (py_div_nonzero v o (positive_is_nonzero o Ho)).
    split; [reflexivity|]. split; [|split].
    + intros q Hq. destruct (math_ceil_bounds _ q Hq) as [n [Hn Hb]].
      exists n. rewrite Hn. split; [reflexivity|exact Hb].
    + intros s Hs. unfold math_ceil. rewrite Hs. reflexivity.
    + intros Hs. unfold math_ceil. rewrite Hs. reflexivity.
  - eexists. eexists. split; [reflexivity|]. split; [reflexivity|].
    vm_compute. reflexivity.
Qed.

Lemma calculate_bet_amount_spec_witness :
  (0 <? 3)%float = true /\
  calculate_bet_amount 2100 3 true = Ok (PyFloat (2100 / 3)) /\
  (exists n, calculate_bet_amount 2100 3 false = Ok (PyInt n) /\
             (inject_Z n - 1 < 700)%Q /\ (700 <= inject_Z n)%Q).
Proof.
  assert (Ho : (0 <? 3)%float = true) by reflexivity.
  destruct (proj1 calculate_bet_amount_spec 2100%float 3%float Ho) as [He [Hc _]].
  split; [exact Ho|]. split; [exact He|].
  apply Hc. reflexivity.
Defined.

(** C8 (as stated, refuted).  Negative odds are not rejected: the stake for
    2100 at odds -2 is returned, and it is -1050. *)
Lemma calculate_bet_amount_accepts_negative_odds :
  (-2 <=? 0)%float = true /\ calculate_bet_amount 2100 (-2) false = Ok (PyInt (-1050)).
Proof. split; reflexivity. Qed.

(** C8 (amended).  [calculate_bet_amount] validates nothing.  With odds that
    compare equal to zero it fails with the division's [ZeroDivisionError].
    With any other odds, also negative ones, and any total value, also a
    non-positive one, the exact stake is returned as the quotient, whatever
    it is, and the rounded stake is the ceiling of the quotient, or the
    [OverflowError] or [ValueError] that [math.ceil] raises on an infinite or
    NaN quotient.  Inside the range that the form's number input allows for
    the odds (1 to 100) the division does not fail. *)
Theorem calculate_bet_amount_unvalidated (totalValue odds : float) :
  ((odds =? 0)%float = true ->
   forall exact, calculate_bet_amount totalValue odds exact = Raise ZeroDivisionError) /\
  ((odds =? 0)%float = false ->
   calculate_bet_amount totalValue odds true = Ok (PyFloat (totalValue / odds)) /\
   calculate_bet_amount totalValue odds false
   = match Prim2SF (totalValue / odds) with
     | S754_zero _ => Ok (PyInt 0)
     | S754_finite s m e => Ok (PyInt (Qceiling (finite_value s m e)))
     | S754_infinity _ => Raise ceil_of_infinity
     | S754_nan => Raise ceil_of_nan
     end) /\
  ((1 <=? odds)%float = true -> (odds <=? 100)%float = true ->
   forall exact,
     calculate_bet_amount totalValue odds exact <> Raise ZeroDivisionError).
Proof.
  split; [|split].
  - intros Hz exact. unfold calculate_bet_amount. rewrite (py_div_zero _ _ Hz).
    reflexivity.
  - intros Hnz. unfold calculate_bet_amount. rewrite (py_div_nonzero _ _ Hnz).
    split; [reflexivity|].
    unfold math_ceil. destruct (Prim2SF (totalValue / odds)); reflexivity.
  - intros Hlow _ exact. unfold calculate_bet_amount.
    rewrite (py_div_nonzero _ _ (at_least_one_is_nonzero odds Hlow)).
    destruct exact; [discriminate|].
    unfold math_ceil. destruct (Prim2SF (totalValue / odds)); discriminate.
Qed.

Lemma calculate_bet_amount_unvalidated_witness :
  calculate_bet_amount 2100 0 false = Raise ZeroDivisionError /\
  calculate_bet_amount 2100 (-0) true = Raise ZeroDivisionError /\
  calculate_bet_amount 0 (-2) true = Ok (PyFloat (0 / -2)) /\
  calculate_bet_amount 2100 2 false <> Raise ZeroDivisionError.
Proof.
  split; [|split; [|split]].
  - apply (proj1 (calculate_bet_amount_unvalidated 2100 0)). reflexivity.
  - apply (proj1 (calculate_bet_amount_unvalidated 2100 (-0))). reflexivity.
  - apply (proj1 (proj2 (calculate_bet_amount_unvalidated 0 (-2)))). reflexivity.
  - apply (proj2 (proj2 (calculate_bet_amount_unvalidated 2100 2))); reflexivity.
Defined.

(** The sample forms are forms drawn from widgets: their stakes are those
    that the calculator returns for their betting value and odds. *)
Lemma sample_forms_are_drawn :
  draw_form sample_widgets = Ok (Some sample_form) /\
  draw_form (with_accounts sample_widgets [1] [1]) = Ok (Some overlapping_form) /\
  draw_form large_widgets = Ok (Some large_form) /\
  draw_form (with_accounts large_widgets [1] [7]) = Ok (Some short_and_missing_form).
Proof. vm_compute. repeat split. Qed.

(** ** Running the methods on a connection at rest *)

(** On a connection without pending faults a statement that succeeds just
    updates the working database. *)
Lemma execute_ok {A} (st : statement A) dbc dbw t a dbw' :
  st t dbw = Ok (a, dbw') ->
  execute st {| committed := dbc; working := dbw; faults := []; now := t |}
  = (Ok a, {| committed := dbc; working := dbw'; faults := []; now := t |}).
Proof.
  intros H. unfold execute, bind, storage_call. simpl. rewrite H. reflexivity.
Qed.

Lemma execute_raise {A} (st : statement A) dbc dbw t e :
  st t dbw = Raise e ->
  execute st {| committed := dbc; working := dbw; faults := []; now := t |}
  = (Raise e, {| committed := dbc; working := dbw; faults := []; now := t |}).
Proof.
  intros H. unfold execute, bind, storage_call. simpl. rewrite H. reflexivity.
Qed.

Lemma commit_ok dbc dbw t :
  commit {| committed := dbc; working := dbw; faults := []; now := t |}
  = (Ok tt, connect dbw [] t).
Proof. reflexivity. Qed.

(** ** [save_account] replaces the row *)

Lemma find_after_replace (id : Z) (row : account_row) (l : list account_row) :
  a_account_id row = id ->
  find (fun a => a_account_id a =? id)
       (filter (fun a => negb (a_account_id a =? id)) l ++ [row]) = Some row.
Proof.
  intros Hid. induction l as [|a l IH]; simpl.
  - rewrite Hid, Z.eqb_refl. reflexivity.
  - destruct (a_account_id a =? id) eqn:E; simpl.
    + exact IH.
    + rewrite E. exact IH.
Qed.

(** Without faults [save_account] commits the replacement, when the account
    identifier can be bound. *)
Lemma save_account_run (d : account_dict) (db : database) (t : Z) :
  is_int64 (ad_account_id d) = true ->
  save_account d (connect db [] t) = (Ok tt, connect (replace_account d t db) [] t).
Proof.
  intros H. unfold save_account, try_except, save_account_body, connect.
  unfold bind at 1. erewrite execute_ok; [reflexivity|].
  unfold sql_insert_or_replace_account. rewrite H. reflexivity.
Qed.

(** An account identifier outside 64 bits: the statement is not run, the
    method rolls back and raises [OverflowError]. *)
Lemma save_account_overflow (d : account_dict) (db : database) (t : Z) :
  is_int64 (ad_account_id d) = false ->
  save_account d (connect db [] t) = (Raise int_too_large, connect db [] t).
Proof.
  intros H. unfold save_account, try_except, save_account_body, connect.
  unfold bind at 1. erewrite execute_raise; [reflexivity|].
  unfold sql_insert_or_replace_account. rewrite H. reflexivity.
Qed.

Lemma replace_account_existing (d : account_dict) (db : database) (t : Z)
    (old : account_row) :
  find_account (ad_account_id d) db = Some old ->
  find_account (ad_account_id d) (replace_account d t db)
  = Some (replaced_account_row d t) /\
  bet_accounts (replace_account d t db)
  = filter (fun ba => negb (ba_account_id ba =? ad_account_id d)) (bet_accounts db).
Proof.
  intros Hold. unfold replace_account. rewrite Hold. split; [|reflexivity].
  unfold find_account. simpl. apply find_after_replace. reflexivity.
Qed.

Lemma find_set_balance (id : Z) (v : Q) (l : list account_row) (row : account_row) :
  find (fun a => a_account_id a =? id) l = Some row ->
  find (fun a => a_account_id a =? id) (set_balance id v l)
  = Some {| a_account_id := a_account_id row; a_name := a_name row; a_balance := v;
            a_remarks := a_remarks row; a_created_at := a_created_at row;
            a_updated_at := a_updated_at row; a_is_active := a_is_active row |}.
Proof.
  induction l as [|a l IH]; simpl; [discriminate|].
  destruct (a_account_id a =? id) eqn:E; simpl.
  - intros H. injection H as ->. rewrite E. reflexivity.
  - rewrite E. exact IH.
Qed.

(** A credit, or a debit that the cached balance covers, changes the cached
    row and writes it through [save_account]. *)
Lemma update_account_balance_run (s : session) (db : database) (t : Z)
    (id : Z) (amount : Q) (operation : string) (row : account_row) :
  find (fun a => a_account_id a =? id) (account_data s) = Some row ->
  is_int64 id = true ->
  String.eqb operation "add" = true \/ Qltb (a_balance row) amount = false ->
  update_account_balance id amount operation {| sess := s; conn := connect db [] t |}
  = (Ok tt,
     {| sess := {| account_data :=
                     set_balance id (new_balance operation (a_balance row) amount)
                                 (account_data s);
                   active_bets := active_bets s |};
        conn := connect
                  (replace_account
                     {| ad_account_id := a_account_id row; ad_name := Some (a_name row);
                        ad_balance := new_balance operation (a_balance row) amount;
                        ad_remarks := Some (a_remarks row) |} t db) [] t |}).
Proof.
  intros Hrow Hint Hop.
  assert (Hid : a_account_id row = id).
  { apply find_some in Hrow. destruct Hrow as [_ H]. apply Z.eqb_eq. exact H. }
  assert (Hsave : forall d, ad_account_id d = a_account_id row ->
                            save_account d (connect db [] t)
                            = (Ok tt, connect (replace_account d t db) [] t)).
  { intros d Hd. apply save_account_run. rewrite Hd, Hid. exact Hint. }
  set (v := new_balance operation (a_balance row) amount).
  unfold update_account_balance, try_except, update_account_balance_body, bind, get.
  unfold session_account at 1. simpl. rewrite Hrow.
  assert (Hrow' : forall c,
             session_account id
               {| sess := {| account_data := set_balance id v (account_data s);
                             active_bets := active_bets s |};
                  conn := c |}
             = Some {| a_account_id := a_account_id row; a_name := a_name row;
                       a_balance := v; a_remarks := a_remarks row;
                       a_created_at := a_created_at row;
                       a_updated_at := a_updated_at row;
                       a_is_active := a_is_active row |}).
  { intros c. unfold session_account. simpl.
    exact (find_set_balance id v _ row Hrow). }
  subst v. unfold new_balance in *.
  destruct (String.eqb operation "add") eqn:Eop.
  - unfold set_account_data, modify. cbn [fst snd sess conn account_data active_bets].
    rewrite Hrow'. unfold db_call. cbn [conn sess].
    rewrite Hsave by reflexivity. reflexivity.
  - destruct Hop as [Hop|Hop]; [discriminate|]. rewrite Hop.
    unfold set_account_data, modify. cbn [fst snd sess conn account_data active_bets].
    rewrite Hrow'. unfold db_call. cbn [conn sess].
    rewrite Hsave by reflexivity. reflexivity.
Qed.

(** C10.  Saving an account that exists replaces its whole row: whatever the
    old row held, the new row has [is_active] set and [created_at] equal to
    the time of the save, together with the supplied balance.  Every credit,
    and every debit that the cached balance covers, made through
    [update_account_balance] ends in such a save, and so resets the same two
    columns.  The identifier of the account is a 64-bit integer, as the key
    of a stored row is. *)
Theorem save_account_resets_unsupplied_columns :
  (forall (d : account_dict) (db : database) (t : Z) (old : account_row),
      is_int64 (ad_account_id d) = true ->
      find_account (ad_account_id d) db = Some old ->
      exists db' new,
        save_account d (connect db [] t) = (Ok tt, connect db' [] t) /\
        find_account (ad_account_id d) db' = Some new /\
        a_is_active new = true /\ a_created_at new = t /\
        a_balance new = ad_balance d) /\
  (forall (s : session) (db : database) (t : Z) (id : Z) (amount : Q)
          (operation : string) (row old : account_row),
      is_int64 id = true ->
      find (fun a => a_account_id a =? id) (account_data s) = Some row ->
      find_account id db = Some old ->
      String.eqb operation "add" = true \/ Qltb (a_balance row) amount = false ->
      exists s' db' new,
        update_account_balance id amount operation
          {| sess := s; conn := connect db [] t |}
        = (Ok tt, {| sess := s'; conn := connect db' [] t |}) /\
        find_account id db' = Some new /\
        a_is_active new = true /\ a_created_at new = t /\
        a_balance new = new_balance operation (a_balance row) amount).
Proof.
  split.
  - intros d db t old Hint Hold.
    destruct (replace_account_existing d db t old Hold) as [Hfind _].
    eexists. eexists. split; [exact (save_account_run d db t Hint)|].
    split; [exact Hfind|]. repeat split.
  - intros s db t id amount operation row old Hint Hrow Hold Hop.
    assert (Hid : a_account_id row = id).
    { apply find_some in Hrow. destruct Hrow as [_ H]. apply Z.eqb_eq. exact H. }
    eexists. eexists. eexists.
    split; [exact (update_account_balance_run s db t id amount operation row Hrow
                     Hint Hop)|].
    rewrite <- Hid in Hold.
    split.
    + rewrite <- Hid at 1.
      exact (proj1 (replace_account_existing
                      {| ad_account_id := a_account_id row;
                         ad_name := Some (a_name row);
                         ad_balance := new_balance operation (a_balance row) amount;
                         ad_remarks := Some (a_remarks row) |} db t old Hold)).
    + repeat split.
Qed.

(** ** [save_result] *)

Lemma credit_loop_run (accs : list winning_account) (dbc dbw : database) (t : Z) :
  for_each accs
    (fun acc => execute (sql_credit_account (wa_profit acc) (wa_account_id acc)))
    {| committed := dbc; working := dbw; faults := []; now := t |}
  = (Ok tt, {| committed := dbc; working := credit_winning_accounts accs t dbw;
               faults := []; now := t |}).
Proof.
  revert dbw. induction accs as [|acc accs IH]; intros dbw; simpl.
  - reflexivity.
  - unfold bind at 1.
    rewrite (execute_ok _ dbc dbw t tt
               (credit_account (wa_profit acc) (wa_account_id acc) t dbw) eq_refl).
    apply IH.
Qed.

Lemma find_bet_complete (id t : Z) (db : database) (b : bet_row) :
  find_bet id db = Some b ->
  find_bet id (complete_bet id t db) = Some (completed t b).
Proof.
  unfold find_bet, complete_bet. simpl.
  induction (bets db) as [|x l IH]; simpl; [discriminate|].
  destruct (b_bet_id x =? id) eqn:E; simpl.
  - intros H. injection H as ->. rewrite E. reflexivity.
  - rewrite E. exact IH.
Qed.

Lemma credit_winning_accounts_frame (accs : list winning_account) (t : Z) (db : database) :
  results (credit_winning_accounts accs t db) = results db /\
  bets (credit_winning_accounts accs t db) = bets db /\
  bet_accounts (credit_winning_accounts accs t db) = bet_accounts db.
Proof.
  revert db. induction accs as [|acc accs IH]; intros db; simpl.
  - repeat split.
  - destruct (IH (credit_account (wa_profit acc) (wa_account_id acc) t db))
      as [H1 [H2 H3]].
    unfold credit_winning_accounts in *. rewrite H1, H2, H3. repeat split.
Qed.

(** Without faults, [save_result] for a bet that exists commits [settled]. *)
Lemma save_result_run (d : result_data) (db : database) (t : Z) (b : bet_row) :
  find_bet (rd_bet_id d) db = Some b ->
  (String.eqb (rd_result_type d) "win" = true -> rd_winning_accounts d <> None) ->
  save_result d (connect db [] t) = (Ok tt, connect (settled d t db) [] t).
Proof.
  intros Hb Hwin.
  assert (Hb' := find_bet_complete (rd_bet_id d) t db b Hb).
  unfold save_result, try_except, save_result_body, begin_transaction, connect.
  unfold bind at 1.
  rewrite (execute_ok _ db db t tt db eq_refl).
  unfold bind at 1.
  rewrite (execute_ok _ db db t tt (complete_bet (rd_bet_id d) t db) eq_refl).
  unfold bind at 1.
  erewrite execute_ok.
  2:{ unfold sql_insert_result. rewrite Hb'. reflexivity. }
  unfold settled, result_row_for. simpl.
  destruct (String.eqb (rd_result_type d) "win") eqn:E.
  - destruct (rd_winning_accounts d) as [accs|]; [|exfalso; apply Hwin; reflexivity].
    unfold bind at 1. rewrite credit_loop_run. reflexivity.
  - reflexivity.
Qed.

Lemma settled_results (d : result_data) (t : Z) (db : database) :
  results (settled d t db) = results db ++ [result_row_for d t db].
Proof.
  unfold settled. destruct (String.eqb (rd_result_type d) "win").
  - rewrite (proj1 (credit_winning_accounts_frame _ _ _)). reflexivity.
  - reflexivity.
Qed.

Lemma settled_bet (d : result_data) (t : Z) (db : database) (b : bet_row) :
  find_bet (rd_bet_id d) db = Some b ->
  find_bet (rd_bet_id d) (settled d t db) = Some (completed t b).
Proof.
  intros Hb. unfold settled, find_bet.
  destruct (String.eqb (rd_result_type d) "win").
  - rewrite (proj1 (proj2 (credit_winning_accounts_frame _ _ _))).
    exact (find_bet_complete _ t db b Hb).
  - exact (find_bet_complete _ t db b Hb).
Qed.

Lemma settled_accounts (d : result_data) (t : Z) (db : database) :
  String.eqb (rd_result_type d) "win" = false ->
  accounts (settled d t db) = accounts db.
Proof. intros E. unfold settled. rewrite E. reflexivity. Qed.

(** C10, on the sample database.  Account 3 is deactivated and was created at
    time 0; saving it at time 10 leaves it active and created at time 10.  A
    debit of 100 on account 1 at time 10 saves a row created at time 10. *)
Lemma save_account_resets_unsupplied_columns_witness :
  find_account 3 sample_db = Some (sample_account 3 40 false) /\
  (exists db' new,
      save_account {| ad_account_id := 3; ad_name := None; ad_balance := 40;
                      ad_remarks := None |} (connect sample_db [] 10)
      = (Ok tt, connect db' [] 10) /\
      find_account 3 db' = Some new /\
      a_is_active new = true /\ a_created_at new = 10 /\ a_balance new = 40%Q) /\
  (exists s' db' new,
      update_account_balance 1 100 "subtract" (app_on sample_db [] 10)
      = (Ok tt, {| sess := s'; conn := connect db' [] 10 |}) /\
      find_account 1 db' = Some new /\
      a_is_active new = true /\ a_created_at new = 10 /\
      a_balance new = new_balance "subtract" 5000 100).
Proof.
  split; [reflexivity|]. split.
  - apply (proj1 save_account_resets_unsupplied_columns
                 {| ad_account_id := 3; ad_name := None; ad_balance := 40;
                    ad_remarks := None |} sample_db 10 (sample_account 3 40 false)).
    + reflexivity.
    + reflexivity.
  - apply (proj2 save_account_resets_unsupplied_columns
                 (session_of sample_db) sample_db 10 1 100%Q "subtract"
                 (sample_account 1 5000 true) (sample_account 1 5000 true)).
    + reflexivity.
    + reflexivity.
    + reflexivity.
    + right. reflexivity.
Defined.

(** ** Settlement *)

(** C7.  "Apply Loss" on an active bet, when storage does not fail, inserts
    exactly one result row, of type [loss], without profit and with the
    sentinel 0 as winning team; the bet becomes [completed]; the accounts
    table, and with it every balance, is unchanged, and so is the cached
    account frame. *)
Theorem apply_loss_effect (s : session) (db : database) (t : Z)
    (bet : active_bet_row) (b : bet_row) :
  find_bet (ab_bet_id bet) db = Some b ->
  b_status b = "active" ->
  exists s' db' b',
    apply_loss bet {| sess := s; conn := connect db [] t |}
    = (Ok Applied, {| sess := s'; conn := connect db' [] t |}) /\
    results db'
    = results db ++ [ {| r_result_id := seq_results db + 1; r_bet_id := ab_bet_id bet;
                         r_winning_team := Some 0; r_result_type := "loss";
                         r_profit_amount := None; r_loss_amount := None;
                         r_cashout_details := []; r_created_at := t |} ] /\
    find_bet (ab_bet_id bet) db' = Some b' /\ b_status b' = "completed" /\
    accounts db' = accounts db /\
    account_data s' = account_data s.
Proof.
  intros Hb _.
  set (d := {| rd_bet_id := ab_bet_id bet; rd_winning_team := Some 0;
               rd_result_type := "loss"; rd_profit_amount := None;
               rd_loss_amount := None; rd_cashout_details := None;
               rd_winning_accounts := None |}).
  assert (Hrun : save_result d (connect db [] t)
                 = (Ok tt, connect (settled d t db) [] t)).
  { apply (save_result_run d db t b Hb). discriminate. }
  exists {| account_data := account_data s;
            active_bets := q_active_bets (settled d t db) |},
         (settled d t db), (completed t b).
  split.
  - unfold apply_loss, try_except. unfold bind at 1. unfold db_call at 1.
    fold d. simpl conn. rewrite Hrun. reflexivity.
  - split; [exact (settled_results d t db)|].
    split; [exact (settled_bet d t db b Hb)|].
    split; [reflexivity|].
    split; [exact (settled_accounts d t db eq_refl)|reflexivity].
Qed.

Lemma apply_loss_effect_witness :
  exists s' db' b',
    apply_loss sample_bet (app_on staked_db [] 20)
    = (Ok Applied, {| sess := s'; conn := connect db' [] 20 |}) /\
    results db'
    = results staked_db
        ++ [ {| r_result_id := seq_results staked_db + 1; r_bet_id := 1;
                r_winning_team := Some 0; r_result_type := "loss";
                r_profit_amount := None; r_loss_amount := None;
                r_cashout_details := []; r_created_at := 20 |} ] /\
    find_bet 1 db' = Some b' /\ b_status b' = "completed" /\
    accounts db' = accounts staked_db /\
    account_data s' = account_data (session_of staked_db).
Proof.
  apply (apply_loss_effect (session_of staked_db) staked_db 20 sample_bet
           {| b_bet_id := 1; b_match_id := 1; b_team1_odds := 2; b_team2_odds := 3;
              b_betting_value := 2100; b_status := "active";
              b_created_at := 10; b_updated_at := 10 |});
    reflexivity.
Defined.


Lemma insert_sorted_In {A} (leb : A -> A -> bool) (x y : A) (l : list A) :
  In y (insert_sorted leb x l) -> y = x \/ In y l.
Proof.
  induction l as [|z l IH]; simpl.
  - intros [H|[]]. left. symmetry. exact H.
  - destruct (leb x z); simpl.
    + intros [H|H]; [left; symmetry; exact H|right; exact H].
    + intros [H|H]; [right; left; exact H|].
      destruct (IH H) as [H'|H']; [left; exact H'|right; right; exact H'].
Qed.

Lemma order_by_In {A} (leb : A -> A -> bool) (y : A) (l : list A) :
  In y (order_by leb l) -> In y l.
Proof.
  unfold order_by. induction l as [|x l IH]; simpl; [intros []|].
  intros H. destruct (insert_sorted_In leb x y _ H) as [->|H'].
  - left. reflexivity.
  - right. exact (IH H').
Qed.

(** A bet whose rows are all completed is not among the active bets. *)
Lemma completed_bet_not_listed (db : database) (id : Z) (x : active_bet_row) :
  (forall b, In b (bets db) -> b_bet_id b = id -> b_status b = "completed") ->
  In x (q_active_bets db) -> ab_bet_id x <> id.
Proof.
  intros Hdone Hx Hid. unfold q_active_bets in Hx.
  apply order_by_In in Hx. apply in_flat_map in Hx.
  destruct Hx as [b [Hb Hjoin]].
  apply filter_In in Hb. destruct Hb as [Hb Hactive].
  unfold join_match in Hjoin.
  destruct (find_match (b_match_id b) db); [|destruct Hjoin].
  destruct Hjoin as [<-|[]]. simpl in Hid.
  rewrite (Hdone b Hb Hid) in Hactive. discriminate.
Qed.

Lemma settled_bets_completed (d : result_data) (t : Z) (db : database) (b : bet_row) :
  In b (bets (settled d t db)) -> b_bet_id b = rd_bet_id d -> b_status b = "completed".
Proof.
  assert (Hbets : bets (settled d t db) = bets (complete_bet (rd_bet_id d) t db)).
  { unfold settled. destruct (String.eqb (rd_result_type d) "win"); [|reflexivity].
    rewrite (proj1 (proj2 (credit_winning_accounts_frame _ _ _))). reflexivity. }
  rewrite Hbets. unfold complete_bet. simpl. intros Hin Hid.
  apply in_map_iff in Hin. destruct Hin as [b0 [Hb0 _]].
  destruct (b_bet_id b0 =? rd_bet_id d) eqn:E.
  - subst b. reflexivity.
  - subst b. apply Z.eqb_neq in E. contradiction.
Qed.

(** C2 (the code at the failing input).  Bet 1 of [staked_db] has account 1 on
    side 1 with a stake of 1050 at odds 2, so a win of side 1 should credit
    2100 once.  "Apply Win" credits it twice, once through
    [update_account_balance] and once in the transaction of [save_result]:
    the balance goes from 5000 to 9200.  The result row stores no profit
    amount.  Account 2, on the losing side, keeps its balance. *)
Lemma apply_win_credits_twice :
  let after := apply_win sample_bet "Chennai Super Kings" (app_on staked_db [] 20) in
  balance_of 1 staked_db = Some 5000%Q /\
  allocations_of 1 staked_db
  = [ {| ba_bet_id := 1; ba_account_id := 1; ba_team_number := 1;
         ba_bet_amount := 1050; ba_status := "active"; ba_created_at := 10 |};
      {| ba_bet_id := 1; ba_account_id := 2; ba_team_number := 2;
         ba_bet_amount := 700; ba_status := "active"; ba_created_at := 10 |} ] /\
  fst after = Ok Applied /\
  balance_of 1 (committed (conn (snd after))) = Some 9200%Q /\
  balance_of 2 (committed (conn (snd after))) = Some 5000%Q /\
  map r_profit_amount (results_of 1 (committed (conn (snd after)))) = [None].
Proof. vm_compute. repeat split. Qed.

(** The double credit in general: one credit of [profit] through
    [update_account_balance] followed by the [save_result] of a win that
    lists the same account with the same profit leaves the account with its
    cached balance plus twice the profit. *)
Lemma win_credit_is_applied_twice (s : session) (db : database) (t : Z)
    (id bet_id : Z) (profit : Q) (row old : account_row) (b : bet_row) :
  is_int64 id = true ->
  find (fun a => a_account_id a =? id) (account_data s) = Some row ->
  find_account id db = Some old ->
  find_bet bet_id db = Some b ->
  let credited_once :=
    snd (update_account_balance id profit "add"
           {| sess := s; conn := connect db [] t |}) in
  let saved :=
    save_result {| rd_bet_id := bet_id; rd_winning_team := Some 1;
                   rd_result_type := "win"; rd_profit_amount := None;
                   rd_loss_amount := None; rd_cashout_details := None;
                   rd_winning_accounts :=
                     Some [ {| wa_account_id := id; wa_profit := profit |} ] |}
                (conn credited_once) in
  fst saved = Ok tt /\
  balance_of id (committed (conn credited_once)) = Some (a_balance row + profit)%Q /\
  balance_of id (committed (snd saved)) = Some (a_balance row + profit + profit)%Q.
Proof.
  intros Hint Hrow Hold Hb.
  assert (Hid : a_account_id row = id).
  { apply find_some in Hrow. destruct Hrow as [_ H]. apply Z.eqb_eq. exact H. }
  cbv zeta.
  rewrite (update_account_balance_run s db t id profit "add" row Hrow Hint
             (or_introl eq_refl)).
  cbn [snd conn].
  set (d := {| ad_account_id := a_account_id row; ad_name := Some (a_name row);
               ad_balance := new_balance "add" (a_balance row) profit;
               ad_remarks := Some (a_remarks row) |}).
  assert (Hold' : find_account (ad_account_id d) db = Some old).
  { simpl. rewrite Hid. exact Hold. }
  destruct (replace_account_existing d db t old Hold') as [Hnew _].
  simpl ad_account_id in Hnew. rewrite Hid in Hnew.
  assert (Hb' : find_bet bet_id (replace_account d t db) = Some b).
  { unfold replace_account. rewrite Hold'. exact Hb. }
  erewrite save_result_run; [|exact Hb'|discriminate].
  split; [reflexivity|]. split.
  - unfold balance_of. cbn [committed connect]. rewrite Hnew. reflexivity.
  - unfold balance_of, find_account, settled. cbn.
    unfold find_account in Hnew.
    induction (accounts (replace_account d t db)) as [|a l IH]; [discriminate|].
    cbn in Hnew |- *.
    destruct (a_account_id a =? id) eqn:E.
    + injection Hnew as ->. cbn. rewrite Hid, Z.eqb_refl. reflexivity.
    + rewrite E. exact (IH Hnew).
Qed.

(** The same win for a bet placed with the form.  The debits
    that follow [create_bet] replace the account rows, which deletes the
    allocation rows of the bet; "Apply Win" then finds no account to credit
    and the winner's balance stays at 3950. *)
Lemma form_bet_win_credits_nothing :
  let placed := place_bet sample_form (app_on sample_db [] 10) in
  let after := apply_win sample_bet "Chennai Super Kings" (snd placed) in
  fst placed = Ok (BetPlaced 1) /\
  active_bets (sess (snd placed)) = [sample_bet] /\
  balance_of 1 (committed (conn (snd placed))) = Some 3950%Q /\
  allocations_of 1 (committed (conn (snd placed))) = [] /\
  fst after = Ok Applied /\
  balance_of 1 (committed (conn (snd after))) = Some 3950%Q.
Proof. vm_compute. repeat split. Qed.

(** C1 (the code at the failing input).  The form is submitted and the ninth
    storage call fails.  [create_bet] makes six calls (BEGIN, the inserts of
    the match, of the bet and of the two allocations, COMMIT) and the first
    debit two (its statement and its COMMIT), so the ninth call is the
    statement of the second debit.  The handler reports the error, yet the
    match and the bet are committed with an allocation of account 2, and
    account 1 is debited while account 2 is not. *)
Lemma place_bet_is_not_atomic :
  let fs := [false; false; false; false; false; false; false; false; true] in
  let after := place_bet sample_form (app_on sample_db fs 10) in
  let db' := committed (conn (snd after)) in
  fst after = Ok (ErrorPlacingBet OperationalError) /\
  map m_match_id (matches db') = [1] /\
  map b_bet_id (bets db') = [1] /\
  has_allocation 1 2 db' = true /\
  balance_of 1 db' = Some 3950%Q /\
  balance_of 2 db' = Some 5000%Q /\
  working (conn (snd after)) = db'.
Proof. vm_compute. repeat split. Qed.

(** The submission without any fault.  After it the debits have
    deleted the allocation rows that [create_bet] had committed: the bet is
    stored and both accounts are debited, but no allocation row is left. *)
Lemma place_bet_loses_allocations :
  let after := place_bet sample_form (app_on sample_db [] 10) in
  let db' := committed (conn (snd after)) in
  fst after = Ok (BetPlaced 1) /\
  map b_bet_id (bets db') = [1] /\
  balance_of 1 db' = Some 3950%Q /\
  balance_of 2 db' = Some 4300%Q /\
  allocations_of 1 db' = [].
Proof. vm_compute. repeat split. Qed.

(** ** The balance validation of the submit handler *)

Lemma lookup_account_run (acc : Z) (w : app) (a : account_row) :
  session_account acc w = Some a -> lookup_account acc w = (Ok a, w).
Proof.
  intros H. unfold lookup_account, bind, get. rewrite H. reflexivity.
Qed.

Lemma lookup_account_frame (acc : Z) (w : app) :
  snd (lookup_account acc w) = w.
Proof.
  unfold lookup_account, bind, get.
  destruct (session_account acc w); reflexivity.
Qed.

(** The validation loop visits every account of the side. *)
Lemma check_balances_run (w : app) (accs : list Z) (bet_amount : Q) (team : string) :
  (forall acc, In acc accs -> session_account acc w <> None) ->
  check_balances accs bet_amount team w
  = (Ok (map (fun acc => (acc, bet_amount, team)) (filter (is_short w bet_amount) accs)),
     w).
Proof.
  unfold check_balances.
  induction accs as [|acc accs IH]; intros Hall; simpl.
  - reflexivity.
  - destruct (session_account acc w) as [a|] eqn:Ha.
    2:{ exfalso. apply (Hall acc); [left; reflexivity|exact Ha]. }
    unfold bind at 1. unfold bind at 1.
    rewrite (lookup_account_run acc w a Ha).
    unfold ret at 1. unfold bind at 1.
    rewrite IH by (intros x Hx; apply Hall; right; exact Hx).
    unfold ret, is_short. rewrite Ha.
    destruct (Qltb (a_balance a) bet_amount); reflexivity.
Qed.

Lemma report_shortfalls_run (w : app) (l : list (Z * Q * string)) :
  (forall acc req team, In (acc, req, team) l -> session_account acc w <> None) ->
  report_shortfalls l w
  = (Ok (map (fun '(acc, req, team) => shortfall_of w req team acc) l), w).
Proof.
  unfold report_shortfalls.
  induction l as [|[[acc req] team] l IH]; intros Hall; simpl.
  - reflexivity.
  - destruct (session_account acc w) as [a|] eqn:Ha.
    2:{ exfalso. apply (Hall acc req team); [left; reflexivity|exact Ha]. }
    unfold bind at 1. unfold bind at 1.
    rewrite (lookup_account_run acc w a Ha).
    unfold ret at 1. unfold bind at 1.
    rewrite IH by (intros x r tm Hx; apply (Hall x r tm); right; exact Hx).
    unfold ret, shortfall_of. rewrite Ha. reflexivity.
Qed.

Lemma filter_nonempty {A} (p : A -> bool) (l : list A) (x : A) :
  In x l -> p x = true -> filter p l <> [].
Proof.
  intros Hin Hp Hnil.
  assert (H : In x (filter p l)) by (apply filter_In; split; assumption).
  rewrite Hnil in H. exact H.
Qed.

(** The validation loop stops at the first account that the cached frame
    does not hold: [.iloc[0]] raises [IndexError]. *)
Lemma check_balances_missing (w : app) (accs : list Z) (bet_amount : Q) (team : string) :
  (exists acc, In acc accs /\ session_account acc w = None) ->
  check_balances accs bet_amount team w = (Raise IndexError, w).
Proof.
  unfold check_balances.
  induction accs as [|a accs IH]; intros [acc [Hin Hnone]]; [destruct Hin|].
  simpl. unfold bind at 1. unfold bind at 1. unfold lookup_account at 1.
  unfold bind at 1. unfold get at 1.
  destruct (session_account a w) as [row|] eqn:Ha; [|reflexivity].
  unfold ret at 1. unfold ret at 1. unfold bind at 1.
  rewrite IH; [reflexivity|].
  exists acc. split; [|exact Hnone].
  destruct Hin as [E|Hin]; [|exact Hin].
  subst a. rewrite Hnone in Ha. discriminate.
Qed.

Lemma missing_or_all_present (w : app) (accs : list Z) :
  (exists acc, In acc accs /\ session_account acc w = None) \/
  (forall acc, In acc accs -> session_account acc w <> None).
Proof.
  induction accs as [|a accs IH].
  - right. intros acc [].
  - destruct (session_account a w) as [row|] eqn:Ha.
    + destruct IH as [[acc [Hin Hnone]]|Hall].
      * left. exists acc. split; [right; exact Hin|exact Hnone].
      * right. intros acc [E|Hin]; [subst acc; rewrite Ha; discriminate|].
        exact (Hall acc Hin).
    + left. exists a. split; [left; reflexivity|exact Ha].
Qed.

(** The [try] block when an account of the form is not in the cached frame:
    one of the two validation loops raises [IndexError]. *)
Lemma place_bet_try_missing (f : betting_form) (a1 a2 : Q) (w : app) :
  (exists acc, In acc (f_team1_accounts f ++ f_team2_accounts f) /\
               session_account acc w = None) ->
  place_bet_try f a1 a2 w = (Raise IndexError, w).
Proof.
  intros [acc [Hin Hnone]]. unfold place_bet_try. unfold bind at 1.
  destruct (missing_or_all_present w (f_team1_accounts f)) as [Hm|Hall].
  - rewrite (check_balances_missing w _ a1 "Team 1" Hm). reflexivity.
  - rewrite (check_balances_run w _ a1 "Team 1" Hall).
    unfold bind at 1. rewrite check_balances_missing; [reflexivity|].
    exists acc. split; [|exact Hnone].
    apply in_app_or in Hin. destruct Hin as [Hin|Hin]; [|exact Hin].
    exfalso. exact (Hall acc Hin Hnone).
Qed.

(** The [try] block when every account is in the cached frame and some
    cached balance is below its stake: the report, and nothing else. *)
Lemma place_bet_try_short (f : betting_form) (a1 a2 : Q) (w : app) :
  (forall acc, In acc (f_team1_accounts f ++ f_team2_accounts f) ->
               session_account acc w <> None) ->
  (exists acc,
      (In acc (f_team1_accounts f) /\ is_short w a1 acc = true) \/
      (In acc (f_team2_accounts f) /\ is_short w a2 acc = true)) ->
  place_bet_try f a1 a2 w
  = (Ok (InsufficientAccounts
           (shortfalls w (f_team1_accounts f) a1 "Team 1"
              ++ shortfalls w (f_team2_accounts f) a2 "Team 2")),
     w).
Proof.
  intros Hall Hshort. unfold place_bet_try.
  unfold bind at 1.
  rewrite check_balances_run
    by (intros acc Hacc; apply Hall; apply in_or_app; left; exact Hacc).
  unfold bind at 1.
  rewrite check_balances_run
    by (intros acc Hacc; apply Hall; apply in_or_app; right; exact Hacc).
  set (s1 := filter (is_short w a1) (f_team1_accounts f)).
  set (s2 := filter (is_short w a2) (f_team2_accounts f)).
  assert (Hnil : s1 ++ s2 <> []).
  { destruct Hshort as [acc [[Hin Hs]|[Hin Hs]]]; intros Happ;
      apply app_eq_nil in Happ; destruct Happ as [Hn1 Hn2].
    - exact (filter_nonempty _ _ acc Hin Hs Hn1).
    - exact (filter_nonempty _ _ acc Hin Hs Hn2). }
  assert (Hrep :
    report_shortfalls
      (map (fun acc => (acc, a1, "Team 1")) s1
         ++ map (fun acc => (acc, a2, "Team 2")) s2) w
    = (Ok (map (shortfall_of w a1 "Team 1") s1
             ++ map (shortfall_of w a2 "Team 2") s2), w)).
  { rewrite report_shortfalls_run.
    - rewrite map_app, !map_map. reflexivity.
    - intros acc req team Hin. apply in_app_or in Hin.
      destruct Hin as [Hin|Hin]; apply in_map_iff in Hin;
        destruct Hin as [y [Hy Hin]]; injection Hy as -> _ _;
        apply filter_In in Hin; destruct Hin as [Hin _]; apply Hall;
        apply in_or_app; [left|right]; exact Hin. }
  unfold shortfalls. fold s1 s2.
  destruct (map (fun acc => (acc, a1, "Team 1")) s1
              ++ map (fun acc => (acc, a2, "Team 2")) s2)
    as [|p l] eqn:El.
  - exfalso. apply app_eq_nil in El. destruct El as [El1 El2].
    apply map_eq_nil in El1. apply map_eq_nil in El2.
    apply Hnil. rewrite El1, El2. reflexivity.
  - unfold bind at 1. rewrite Hrep. reflexivity.
Qed.

(** The selection checks passed: the handler enters its [try] block. *)
Lemma place_bet_enters_try (f : betting_form) (w : app) :
  f_team1_accounts f <> [] ->
  List.length (f_team1_accounts f) = List.length (f_team2_accounts f) ->
  place_bet f w
  = try_except (place_bet_try f (f_bet_amount1 f) (f_bet_amount2 f))
               (fun e => ret (ErrorPlacingBet e)) w.
Proof.
  intros Hne Hlen. unfold place_bet.
  destruct (f_team1_accounts f) as [|x1 l1] eqn:E1; [contradiction|].
  destruct (f_team2_accounts f) as [|x2 l2] eqn:E2; [discriminate|].
  rewrite Hlen, Nat.eqb_refl. reflexivity.
Qed.

(** C5 (as stated, refuted).  Account 1 is asked 10000 and its cached balance
    is 5000, and account 7, on the other side, is not in the cached frame:
    the request is not rejected with the report of the shortfalls but with
    the [IndexError] of the lookup, and no account is listed.  And the
    balances that are checked are the cached ones: with account 1 cached at
    5000 and stored at 40, a stake of 1050 is accepted, and the account is
    left at 3950. *)
Lemma missing_account_hides_the_shortfalls :
  is_short (app_on sample_db [] 10) (f_bet_amount1 short_and_missing_form) 1 = true /\
  session_account 7 (app_on sample_db [] 10) = None /\
  place_bet short_and_missing_form (app_on sample_db [] 10)
  = (Ok (ErrorPlacingBet IndexError), app_on sample_db [] 10) /\
  (let w := {| sess := session_of sample_db; conn := connect drained_db [] 10 |} in
   balance_of 1 drained_db = Some 40%Q /\
   fst (place_bet sample_form w) = Ok (BetPlaced 1) /\
   balance_of 1 (committed (conn (snd (place_bet sample_form w)))) = Some 3950%Q).
Proof. vm_compute. repeat split. Qed.

(** C5 (amended).  Both sides are selected with the same number of accounts.
    When all of them are in the cached account frame and at least one cached
    balance is below the stake of its side, the handler answers with the
    "Insufficient balance" report: one entry for every account whose cached
    balance falls short, those of side 1 and then those of side 2, each with
    the required stake and the cached balance, and the application state
    (session, database, connection) is exactly what it was.  When some
    selected account is not in the cached frame, the handler answers "Error
    placing bet" with the [IndexError] of the lookup, lists no shortfall, and
    the state is again what it was. *)
Theorem place_bet_reports_every_shortfall (f : betting_form) (w : app) :
  f_team1_accounts f <> [] ->
  List.length (f_team1_accounts f) = List.length (f_team2_accounts f) ->
  ((forall acc, In acc (f_team1_accounts f ++ f_team2_accounts f) ->
                session_account acc w <> None) ->
   (exists acc,
       (In acc (f_team1_accounts f) /\ is_short w (f_bet_amount1 f) acc = true) \/
       (In acc (f_team2_accounts f) /\ is_short w (f_bet_amount2 f) acc = true)) ->
   place_bet f w
   = (Ok (InsufficientAccounts
            (shortfalls w (f_team1_accounts f) (f_bet_amount1 f) "Team 1"
               ++ shortfalls w (f_team2_accounts f) (f_bet_amount2 f) "Team 2")),
      w)) /\
  ((exists acc, In acc (f_team1_accounts f ++ f_team2_accounts f) /\
                session_account acc w = None) ->
   place_bet f w = (Ok (ErrorPlacingBet IndexError), w)).
Proof.
  intros Hne Hlen. rewrite (place_bet_enters_try f w Hne Hlen). unfold try_except.
  split.
  - intros Hall Hshort. rewrite (place_bet_try_short f _ _ w Hall Hshort). reflexivity.
  - intros Hmiss. rewrite (place_bet_try_missing f _ _ w Hmiss). reflexivity.
Qed.

(** C5, on the sample database: 10000 is asked of accounts 1 and 2, which
    hold 5000 each; both are reported and nothing changes.  With account 7
    in the place of account 2 the lookup fails. *)
Lemma place_bet_reports_every_shortfall_witness :
  place_bet large_form (app_on sample_db [] 10)
  = (Ok (InsufficientAccounts
           [ {| sf_account_id := 1; sf_required := 10000; sf_team := "Team 1";
                sf_current := 5000 |};
             {| sf_account_id := 2; sf_required := 10000; sf_team := "Team 2";
                sf_current := 5000 |} ]),
     app_on sample_db [] 10) /\
  place_bet short_and_missing_form (app_on sample_db [] 10)
  = (Ok (ErrorPlacingBet IndexError), app_on sample_db [] 10).
Proof.
  split.
  - apply (proj1 (place_bet_reports_every_shortfall large_form (app_on sample_db [] 10)
                    ltac:(discriminate) eq_refl)).
    + intros acc [H|[H|[]]]; subst acc; discriminate.
    + exists 1. left. split; [left; reflexivity|reflexivity].
  - apply (proj2 (place_bet_reports_every_shortfall short_and_missing_form
                    (app_on sample_db [] 10) ltac:(discriminate) eq_refl)).
    exists 7. split; [right; left; reflexivity|reflexivity].
Defined.

(** ** Transactions: what a failing method leaves behind *)

Lemma keeps_ret {A} (a : A) : keeps_committed (ret a).
Proof. intros c. split; reflexivity. Qed.

Lemma keeps_raise {A} (e : exn) : keeps_committed (@raise connection A e).
Proof. intros c. split; reflexivity. Qed.

Lemma keeps_bind {A B} (m : DB A) (k : A -> DB B) :
  keeps_committed m -> (forall a, keeps_committed (k a)) -> keeps_committed (bind m k).
Proof.
  intros Hm Hk c. unfold bind. specialize (Hm c).
  destruct (m c) as [[a|e] c1]; simpl in Hm.
  - destruct (Hk a c1) as [H1 H2]. destruct Hm as [H3 H4].
    rewrite H1, H2. split; assumption.
  - exact Hm.
Qed.

Lemma keeps_storage_call : keeps_committed storage_call.
Proof.
  intros c. unfold storage_call.
  destruct (faults c) as [|b fs]; split; reflexivity.
Qed.

Lemma keeps_execute {A} (st : statement A) : keeps_committed (execute st).
Proof.
  unfold execute. apply keeps_bind; [exact keeps_storage_call|].
  intros _ c. destruct (st (now c) (working c)) as [[a db']|e]; split; reflexivity.
Qed.

Lemma keeps_for_each {A} (l : list A) (body : A -> DB unit) :
  (forall x, keeps_committed (body x)) -> keeps_committed (for_each l body).
Proof.
  intros Hb. induction l as [|x l IH]; simpl.
  - apply keeps_ret.
  - apply keeps_bind; [apply Hb|]. intros _. exact IH.
Qed.

Lemma keeps_fails_cleanly {A} (m : DB A) : keeps_committed m -> fails_cleanly m.
Proof.
  intros Hm c e c' H. specialize (Hm c). rewrite H in Hm. exact Hm.
Qed.

Lemma fails_cleanly_bind {A B} (m : DB A) (k : A -> DB B) :
  keeps_committed m -> (forall a, fails_cleanly (k a)) -> fails_cleanly (bind m k).
Proof.
  intros Hm Hk c e c'. unfold bind. specialize (Hm c).
  destruct (m c) as [[a|e1] c1]; simpl in Hm; intros H.
  - destruct (Hk a c1 e c' H) as [H1 H2]. destruct Hm as [H3 H4].
    rewrite H1, H2. split; assumption.
  - injection H as _ <-. exact Hm.
Qed.

(** A failing [commit] has committed nothing; whatever follows it here is a
    plain [return]. *)
Lemma fails_cleanly_commit {A} (a : A) : fails_cleanly (commit ;; ret a).
Proof.
  intros c e c'. unfold commit, bind, modify, ret.
  destruct (keeps_storage_call c) as [H1 H2].
  destruct (storage_call c) as [[[]|e1] c1]; simpl in *; intros H.
  - discriminate.
  - injection H as _ <-. split; assumption.
Qed.

Lemma fails_cleanly_commit_alone : fails_cleanly commit.
Proof.
  intros c e c'. unfold commit, bind, modify.
  destruct (keeps_storage_call c) as [H1 H2].
  destruct (storage_call c) as [[[]|e1] c1]; simpl in *; intros H.
  - discriminate.
  - injection H as _ <-. split; assumption.
Qed.

Lemma create_bet_body_fails_cleanly (d : bet_data) : fails_cleanly (create_bet_body d).
Proof.
  unfold create_bet_body, begin_transaction.
  apply fails_cleanly_bind; [apply keeps_execute|]. intros _.
  apply fails_cleanly_bind.
  { destruct (bd_match_id d) as [id|]; [destruct (id =? 0)|];
      try apply keeps_execute; apply keeps_ret. }
  intros match_id.
  apply fails_cleanly_bind; [apply keeps_execute|]. intros bet_id.
  apply fails_cleanly_bind.
  { apply keeps_for_each. intros x. apply keeps_execute. }
  intros _.
  apply fails_cleanly_bind.
  { apply keeps_for_each. intros x. apply keeps_execute. }
  intros _. apply fails_cleanly_commit.
Qed.

(** A method of the shape [try: body except: rollback; raise] whose body
    fails cleanly is all-or-nothing: when it raises, the committed database
    is the one it started from and the working copy is back to it. *)
Lemma rollback_restores {A} (body : DB A) (c : connection) (e : exn) (c' : connection) :
  fails_cleanly body ->
  try_except body rollback_and_raise c = (Raise e, c') ->
  committed c' = committed c /\ working c' = committed c /\ now c' = now c.
Proof.
  intros Hb. unfold try_except.
  destruct (body c) as [[a|e1] c1] eqn:E; intros H.
  - discriminate.
  - destruct (Hb c e1 c1 E) as [H1 H2].
    unfold rollback_and_raise, rollback, bind, modify, raise in H.
    injection H as _ <-. simpl. repeat split; assumption.
Qed.

(** ** An account on both sides *)

Lemma execute_inv {A} (st : statement A) (c : connection) (a : A) (c' : connection) :
  execute st c = (Ok a, c') ->
  st (now c) (working c) = Ok (a, working c') /\ now c' = now c.
Proof.
  unfold execute, bind.
  assert (Hs := keeps_storage_call c).
  assert (Hw : working (snd (storage_call c)) = working c).
  { unfold storage_call. destruct (faults c); reflexivity. }
  destruct (storage_call c) as [[[]|e] c1]; simpl in *; [|discriminate].
  destruct Hs as [_ Hn]. rewrite Hw, Hn.
  destruct (st (now c) (working c)) as [[a' db']|e]; [|discriminate].
  intros H. injection H as -> <-. split; reflexivity.
Qed.

Lemma insert_bet_account_inv (bet_id acc tn : Z) (amt : Q) (t : Z) (db db' : database) :
  sql_insert_bet_account bet_id acc tn amt t db = Ok (tt, db') ->
  has_allocation bet_id acc db = false /\
  has_allocation bet_id acc db' = true /\
  (forall y, has_allocation bet_id y db = true -> has_allocation bet_id y db' = true).
Proof.
  unfold sql_insert_bet_account.
  destruct (negb ((tn =? 1) || (tn =? 2))); [discriminate|].
  destruct (has_allocation bet_id acc db) eqn:E; [discriminate|].
  destruct (find_bet bet_id db); [|discriminate].
  destruct (find_account acc db); [|discriminate].
  intros H. injection H as <-.
  split; [reflexivity|]. unfold has_allocation. simpl. split.
  - rewrite existsb_app. simpl. rewrite !Z.eqb_refl. simpl.
    apply orb_true_r.
  - intros y Hy. rewrite existsb_app. unfold has_allocation in Hy.
    rewrite Hy. reflexivity.
Qed.

(** When the loop of inserts goes through, none of its accounts had a row
    for this bet before its insert, all have one afterwards, and the rows
    that were there are still there. *)
Lemma insert_loop_inv (bet_id tn : Z) (amt : Q) (l : list Z) :
  forall c c',
    for_each l (fun acc => execute (sql_insert_bet_account bet_id acc tn amt)) c
    = (Ok tt, c') ->
    (forall x, In x l -> has_allocation bet_id x (working c) = false) /\
    (forall x, In x l -> has_allocation bet_id x (working c') = true) /\
    (forall y, has_allocation bet_id y (working c) = true ->
               has_allocation bet_id y (working c') = true).
Proof.
  induction l as [|a l IH]; intros c c'; simpl.
  - unfold ret. intros H. injection H as <-.
    split; [intros x []|]. split; [intros x []|]. intros y Hy. exact Hy.
  - unfold bind at 1.
    destruct (execute (sql_insert_bet_account bet_id a tn amt) c)
      as [[[]|e] c1] eqn:E; [|discriminate].
    intros Hrest.
    destruct (execute_inv _ _ _ _ E) as [Hst _].
    destruct (insert_bet_account_inv _ _ _ _ _ _ _ Hst) as [Hnew [Hhas Hmono]].
    destruct (IH c1 c' Hrest) as [Hfresh [Hall Hmono']].
    split; [|split].
    + intros x [<-|Hx]; [exact Hnew|].
      destruct (has_allocation bet_id x (working c)) eqn:Ex; [|reflexivity].
      rewrite <- (Hfresh x Hx). symmetry. apply Hmono. exact Ex.
    + intros x [<-|Hx]; [apply Hmono'; exact Hhas|apply Hall; exact Hx].
    + intros y Hy. apply Hmono'. apply Hmono. exact Hy.
Qed.

(** [create_bet] cannot go through when an account is on both sides: the
    second insert for that account violates the primary key of
    [bet_accounts], unless something failed before. *)
Ltac step_or_raise E :=
  match goal with
  | |- exists e, fst (bind ?m ?k ?c) = Raise e =>
      unfold bind at 1;
      destruct (m c) as [[?|?] ?] eqn:E; [|eexists; reflexivity]
  end.

Lemma create_bet_body_overlap (d : bet_data) (x : Z) (c : connection) :
  In x (bd_team1_accounts d) -> In x (bd_team2_accounts d) ->
  exists e, fst (create_bet_body d c) = Raise e.
Proof.
  intros H1 H2. unfold create_bet_body.
  step_or_raise Ebegin. step_or_raise Ematch. step_or_raise Ebet.
  step_or_raise E1. step_or_raise E2.
  exfalso.
  repeat match goal with u : unit |- _ => destruct u end.
  destruct (insert_loop_inv _ _ _ _ _ _ E1) as [_ [Hall _]].
  destruct (insert_loop_inv _ _ _ _ _ _ E2) as [Hfresh _].
  specialize (Hall x H1). specialize (Hfresh x H2).
  rewrite Hall in Hfresh. discriminate.
Qed.

Lemma create_bet_overlap (d : bet_data) (x : Z) (db : database) (fs : list bool) (t : Z) :
  In x (bd_team1_accounts d) -> In x (bd_team2_accounts d) ->
  exists e c',
    create_bet d (connect db fs t) = (Raise e, c') /\
    committed c' = db /\ working c' = db /\ now c' = t.
Proof.
  intros H1 H2.
  destruct (create_bet_body_overlap d x (connect db fs t) H1 H2) as [e He].
  destruct (create_bet d (connect db fs t)) as [r c'] eqn:E.
  assert (Hr : exists e', r = Raise e').
  { unfold create_bet, try_except in E.
    destruct (create_bet_body d (connect db fs t)) as [[a|e1] c1]; [discriminate|].
    unfold rollback_and_raise, rollback, bind, modify, raise in E.
    injection E as <- _. eexists. reflexivity. }
  destruct Hr as [e' ->].
  exists e', c'. split; [reflexivity|].
  exact (rollback_restores (create_bet_body d) (connect db fs t) e' c'
           (create_bet_body_fails_cleanly d) E).
Qed.

Lemma for_collect_frame {S A B} (l : list A) (body : A -> M S (list B)) (s : S) :
  (forall x, snd (body x s) = s) -> snd (for_collect l body s) = s.
Proof.
  intros Hb. induction l as [|x l IH]; simpl; [reflexivity|].
  unfold bind at 1. specialize (Hb x).
  destruct (body x s) as [[ys|e] s1]; simpl in Hb; subst s1; [|reflexivity].
  unfold bind at 1.
  destruct (for_collect l body s) as [[zs|e] s2]; simpl in IH; subst s2; reflexivity.
Qed.

Lemma check_balances_frame (accs : list Z) (amt : Q) (team : string) (w : app) :
  snd (check_balances accs amt team w) = w.
Proof.
  unfold check_balances. apply for_collect_frame. intros acc.
  unfold bind. assert (H := lookup_account_frame acc w).
  destruct (lookup_account acc w) as [[a|e] w1]; simpl in H; subst w1; reflexivity.
Qed.

Lemma report_shortfalls_frame (l : list (Z * Q * string)) (w : app) :
  snd (report_shortfalls l w) = w.
Proof.
  unfold report_shortfalls. apply for_collect_frame. intros [[acc req] team].
  unfold bind. assert (H := lookup_account_frame acc w).
  destruct (lookup_account acc w) as [[a|e] w1]; simpl in H; subst w1; reflexivity.
Qed.

(** The [try] block with an account on both sides: it ends in the report of
    shortfalls or in an exception, and the database is not written. *)
Lemma place_bet_try_overlap (f : betting_form) (a1 a2 : Q) (x : Z)
    (s : session) (db : database) (fs : list bool) (t : Z) :
  In x (f_team1_accounts f) -> In x (f_team2_accounts f) ->
  exists r w',
    place_bet_try f a1 a2 {| sess := s; conn := connect db fs t |} = (r, w') /\
    (forall id, r <> Ok (BetPlaced id)) /\
    (forall o, r = Ok o -> exists l, o = InsufficientAccounts l) /\
    sess w' = s /\ committed (conn w') = db /\ working (conn w') = db.
Proof.
  intros H1 H2.
  set (w := {| sess := s; conn := connect db fs t |}).
  unfold place_bet_try.
  unfold bind at 1.
  assert (F1 := check_balances_frame (f_team1_accounts f) a1 "Team 1" w).
  destruct (check_balances (f_team1_accounts f) a1 "Team 1" w) as [[short1|e] w1];
    simpl in F1; subst w1.
  2:{ eexists. eexists. split; [reflexivity|].
      split; [discriminate|]. split; [discriminate|]. repeat split. }
  unfold bind at 1.
  assert (F2 := check_balances_frame (f_team2_accounts f) a2 "Team 2" w).
  destruct (check_balances (f_team2_accounts f) a2 "Team 2" w) as [[short2|e] w2];
    simpl in F2; subst w2.
  2:{ eexists. eexists. split; [reflexivity|].
      split; [discriminate|]. split; [discriminate|]. repeat split. }
  destruct (short1 ++ short2) as [|p l] eqn:El.
  - destruct (create_bet_overlap (bet_data_of_form f a1 a2) x db fs t H1 H2)
      as [e [c' [Hc [Hcom [Hwork _]]]]].
    unfold bind at 1. unfold db_call at 1. simpl conn. rewrite Hc.
    eexists. eexists. split; [reflexivity|].
    split; [discriminate|]. split; [discriminate|].
    simpl. repeat split; assumption.
  - unfold bind at 1.
    assert (F3 := report_shortfalls_frame (p :: l) w).
    destruct (report_shortfalls (p :: l) w) as [[msgs|e] w3]; simpl in F3; subst w3.
    + eexists. eexists. split; [reflexivity|].
      split; [discriminate|].
      split; [intros o Ho; injection Ho as <-; eexists; reflexivity|].
      repeat split.
    + eexists. eexists. split; [reflexivity|].
      split; [discriminate|]. split; [discriminate|]. repeat split.
Qed.

(** No message of the handler stands for an account on both sides. *)
Lemma no_message_for_both_sides (o : place_outcome) :
  spec_error_kind o <> Some AccountOnBothSides.
Proof. destruct o; discriminate. Qed.

(** C6 (as stated, refuted).  With account 1 ticked on both sides and
    sufficient balances, the handler shows the generic "Error placing bet"
    message carrying SQLite's integrity error, which is the storage failure
    of the specification and not an error for an account on both sides. *)
Lemma overlap_is_a_storage_error :
  let shown := ErrorPlacingBet
                 (IntegrityError
                    "UNIQUE constraint failed: bet_accounts.bet_id, bet_accounts.account_id") in
  In 1 (f_team1_accounts overlapping_form) /\
  In 1 (f_team2_accounts overlapping_form) /\
  fst (place_bet overlapping_form (app_on sample_db [] 10)) = Ok shown /\
  spec_error_kind shown = Some StorageFailure /\
  spec_error_kind shown <> Some AccountOnBothSides.
Proof.
  split; [left; reflexivity|]. split; [left; reflexivity|].
  split; [vm_compute; reflexivity|]. split; [reflexivity|discriminate].
Qed.

(** A submission with some account on both sides never places a bet and
    writes nothing: whatever the storage faults, the committed database, the
    working copy and the session are those of before. *)
Lemma place_bet_overlap_never_places (f : betting_form) (x : Z)
    (s : session) (db : database) (fs : list bool) (t : Z) :
  In x (f_team1_accounts f) -> In x (f_team2_accounts f) ->
  exists r w',
    place_bet f {| sess := s; conn := connect db fs t |} = (r, w') /\
    (forall id, r <> Ok (BetPlaced id)) /\
    sess w' = s /\ committed (conn w') = db /\ working (conn w') = db.
Proof.
  intros H1 H2.
  set (w := {| sess := s; conn := connect db fs t |}).
  unfold place_bet.
  destruct (place_bet_try_overlap f (f_bet_amount1 f) (f_bet_amount2 f) x s db fs t H1 H2)
    as [r [w' [Htry [Hnot [Hins [Hs [Hc Hw]]]]]]].
  fold w in Htry.
  destruct (f_team1_accounts f) as [|x1 l1]; [destruct H1|].
  destruct (f_team2_accounts f) as [|x2 l2]; [destruct H2|].
  destruct (negb (Nat.eqb (List.length (x1 :: l1)) (List.length (x2 :: l2)))).
  - eexists. eexists. split; [reflexivity|].
    split; [discriminate|]. repeat split.
  - unfold try_except. rewrite Htry.
    destruct r as [o|e].
    + destruct (Hins o eq_refl) as [l ->].
      eexists. eexists. split; [reflexivity|].
      split; [discriminate|]. repeat split; assumption.
    + eexists. eexists. split; [reflexivity|].
      split; [discriminate|]. repeat split; assumption.
Qed.

(** ** Which methods let a failure through *)

Lemma log_and_raise_surfaces {A} (body : DB A) (c : connection) (e : exn) :
  fst (body c) = Raise e -> fst (try_except body log_and_raise c) = Raise e.
Proof.
  unfold try_except. destruct (body c) as [[a|e1] c1]; simpl; intros H.
  - discriminate.
  - exact H.
Qed.

Lemma rollback_and_raise_surfaces {A} (body : DB A) (c : connection) (e : exn) :
  fst (body c) = Raise e -> fst (try_except body rollback_and_raise c) = Raise e.
Proof.
  unfold try_except. destruct (body c) as [[a|e1] c1]; simpl; intros H.
  - discriminate.
  - exact H.
Qed.

Lemma defaulting_never_raises {A} (body : DB A) (dflt : A) (c : connection) :
  (exists v, fst (try_except body (fun _ => ret dflt) c) = Ok v) /\
  (forall e, fst (body c) = Raise e ->
             fst (try_except body (fun _ => ret dflt) c) = Ok dflt).
Proof.
  unfold try_except. destruct (body c) as [[a|e1] c1]; simpl.
  - split; [exists a; reflexivity|]. intros e H. discriminate.
  - split; [exists dflt; reflexivity|]. intros e _. reflexivity.
Qed.

(** C9 (as stated, refuted).  The read of the settings fails and
    [get_settings] answers with the default settings; the read of the
    completed bets fails and [get_bet_history] answers with an empty frame. *)
Lemma readers_hide_a_failed_read :
  fst (get_settings_body (connect sample_db [true] 10)) = Raise OperationalError /\
  fst (get_settings (connect sample_db [true] 10)) = Ok default_settings /\
  fst (get_bet_history_body (connect sample_db [true] 10)) = Raise OperationalError /\
  fst (get_bet_history (connect sample_db [true] 10)) = Ok [].
Proof. repeat split. Qed.

(** C9 (amended).  Eight methods of the store pass on every exception raised
    inside them: [get_accounts], [save_account], [create_match],
    [create_bet], [get_active_bets], [get_bet_details], [save_result] and
    [save_settings].  The two readers [get_settings] and [get_bet_history]
    never raise: when something fails inside them they return the default
    settings, respectively an empty frame. *)
Theorem failures_surface_except_in_two_readers (c : connection) (e : exn) :
  (fst (get_accounts_body c) = Raise e -> fst (get_accounts c) = Raise e) /\
  (forall d, fst (save_account_body d c) = Raise e -> fst (save_account d c) = Raise e) /\
  (forall d, fst (create_match_body d c) = Raise e -> fst (create_match d c) = Raise e) /\
  (forall d, fst (create_bet_body d c) = Raise e -> fst (create_bet d c) = Raise e) /\
  (fst (get_active_bets_body c) = Raise e -> fst (get_active_bets c) = Raise e) /\
  (forall id, fst (get_bet_details_body id c) = Raise e ->
              fst (get_bet_details id c) = Raise e) /\
  (forall d, fst (save_result_body d c) = Raise e -> fst (save_result d c) = Raise e) /\
  (forall m v, fst (save_settings_body m v c) = Raise e ->
               fst (save_settings m v c) = Raise e) /\
  (exists v, fst (get_settings c) = Ok v) /\
  (fst (get_settings_body c) = Raise e -> fst (get_settings c) = Ok default_settings) /\
  (exists v, fst (get_bet_history c) = Ok v) /\
  (fst (get_bet_history_body c) = Raise e -> fst (get_bet_history c) = Ok []).
Proof.
  split; [apply log_and_raise_surfaces|].
  split; [intros d; apply rollback_and_raise_surfaces|].
  split; [intros d; apply rollback_and_raise_surfaces|].
  split; [intros d; apply rollback_and_raise_surfaces|].
  split; [apply log_and_raise_surfaces|].
  split; [intros id; apply log_and_raise_surfaces|].
  split; [intros d; apply rollback_and_raise_surfaces|].
  split; [intros m v; apply rollback_and_raise_surfaces|].
  destruct (defaulting_never_raises get_settings_body default_settings c) as [S1 S2].
  destruct (defaulting_never_raises get_bet_history_body [] c) as [B1 B2].
  split; [exact S1|]. split; [apply S2|]. split; [exact B1|apply B2].
Qed.

(** C9, on a connection whose next storage call fails: reading the accounts
    and saving a result raise the storage error, reading the settings
    returns the defaults. *)
Lemma failures_surface_except_in_two_readers_witness :
  fst (get_accounts (connect sample_db [true] 10)) = Raise OperationalError /\
  fst (save_result {| rd_bet_id := 1; rd_winning_team := Some 0;
                      rd_result_type := "loss"; rd_profit_amount := None;
                      rd_loss_amount := None; rd_cashout_details := None;
                      rd_winning_accounts := None |} (connect staked_db [true] 10))
  = Raise OperationalError /\
  fst (get_settings (connect sample_db [true] 10)) = Ok default_settings.
Proof.
  split; [|split].
  - apply (proj1 (failures_surface_except_in_two_readers
                    (connect sample_db [true] 10) OperationalError)).
    reflexivity.
  - apply (proj1 (proj2 (proj2 (proj2 (proj2 (proj2 (proj2
             (failures_surface_except_in_two_readers
                (connect staked_db [true] 10) OperationalError)))))))).
    reflexivity.
  - apply (proj1 (proj2 (proj2 (proj2 (proj2 (proj2 (proj2 (proj2 (proj2 (proj2
             (failures_surface_except_in_two_readers
                (connect sample_db [true] 10) OperationalError))))))))))).
    reflexivity.
Defined.

(** ** The writing methods are all-or-nothing each *)

Lemma save_account_body_fails_cleanly (d : account_dict) :
  fails_cleanly (save_account_body d).
Proof.
  unfold save_account_body.
  apply fails_cleanly_bind; [apply keeps_execute|]. intros _.
  exact fails_cleanly_commit_alone.
Qed.

Lemma save_result_body_fails_cleanly (d : result_data) :
  fails_cleanly (save_result_body d).
Proof.
  unfold save_result_body, begin_transaction.
  apply fails_cleanly_bind; [apply keeps_execute|]. intros _.
  apply fails_cleanly_bind; [apply keeps_execute|]. intros _.
  apply fails_cleanly_bind; [apply keeps_execute|]. intros _.
  apply fails_cleanly_bind; [|intros _; exact fails_cleanly_commit_alone].
  destruct (String.eqb (rd_result_type d) "win"); [|apply keeps_ret].
  destruct (rd_winning_accounts d) as [accs|]; [|apply keeps_raise].
  apply keeps_for_each. intros acc. apply keeps_execute.
Qed.

(** When [save_account] or [save_result] raises, the database file is the
    one it started from. *)
Lemma save_account_rolls_back (d : account_dict) (c : connection) (e : exn)
    (c' : connection) :
  save_account d c = (Raise e, c') ->
  committed c' = committed c /\ working c' = committed c.
Proof.
  intros H.
  destruct (rollback_restores (save_account_body d) c e c'
              (save_account_body_fails_cleanly d) H) as [H1 [H2 _]].
  split; assumption.
Qed.

Lemma save_result_rolls_back (d : result_data) (c : connection) (e : exn)
    (c' : connection) :
  save_result d c = (Raise e, c') ->
  committed c' = committed c /\ working c' = committed c.
Proof.
  intros H.
  destruct (rollback_restores (save_result_body d) c e c'
              (save_result_body_fails_cleanly d) H) as [H1 [H2 _]].
  split; assumption.
Qed.


(** When [create_bet] raises, whatever failed, the database file is the one
    it started from and the connection has no pending change. *)
Lemma create_bet_rolls_back (d : bet_data) (c : connection) (e : exn) (c' : connection) :
  create_bet d c = (Raise e, c') ->
  committed c' = committed c /\ working c' = committed c.
Proof.
  intros H.
  destruct (rollback_restores (create_bet_body d) c e c'
              (create_bet_body_fails_cleanly d) H) as [H1 [H2 _]].
  split; assumption.
Qed.

(* ===================================================================== *)
(** * Further properties of the store and the handlers                    *)
(* ===================================================================== *)

(** ** [update_account_balance] *)

Lemma Qltb_true (x y : Q) : Qltb x y = true <-> (x < y)%Q.
Proof.
  unfold Qltb. split; intros H.
  - apply Qnot_le_lt. intros Hle. apply Qle_bool_iff in Hle.
    rewrite Hle in H. discriminate.
  - destruct (Qle_bool y x) eqn:E; [|reflexivity].
    apply Qle_bool_iff in E. exfalso. exact (Qlt_not_le _ _ H E).
Qed.

(** X2.  [update_account_balance] refuses an account that is not in the
    cached frame, and a debit above the cached balance, with a [ValueError];
    in both cases neither the cached frame nor the connection has changed,
    and no storage call was made. *)
Theorem update_account_balance_refusals (account_id : Z) (amount : Q)
    (operation : string) (w : app) :
  (session_account account_id w = None ->
   update_account_balance account_id amount operation w
   = (Raise (ValueError (account_not_found account_id)), w)) /\
  (forall row,
      session_account account_id w = Some row ->
      String.eqb operation "add" = false ->
      (a_balance row < amount)%Q ->
      update_account_balance account_id amount operation w
      = (Raise (ValueError (insufficient_balance_in account_id)), w)).
Proof.
  split.
  - intros Hnone.
    unfold update_account_balance, try_except, update_account_balance_body, bind, get.
    rewrite Hnone. reflexivity.
  - intros row Hrow Hop Hlt. apply Qltb_true in Hlt.
    unfold update_account_balance, try_except, update_account_balance_body, bind, get.
    rewrite Hrow, Hop, Hlt. reflexivity.
Qed.

Lemma update_account_balance_refusals_witness :
  update_account_balance 7 100 "add" (app_on sample_db [] 10)
  = (Raise (ValueError (account_not_found 7)), app_on sample_db [] 10) /\
  update_account_balance 1 6000 "subtract" (app_on sample_db [] 10)
  = (Raise (ValueError (insufficient_balance_in 1)), app_on sample_db [] 10).
Proof.
  split.
  - apply (proj1 (update_account_balance_refusals 7 100 "add" (app_on sample_db [] 10))).
    reflexivity.
  - apply (proj2 (update_account_balance_refusals 1 6000 "subtract"
                    (app_on sample_db [] 10)) (sample_account 1 5000 true));
      reflexivity.
Defined.



(** ** [save_account] and [get_accounts] *)

Lemma find_other_after_replace (id id' : Z) (row : account_row) (l : list account_row) :
  a_account_id row = id -> id' <> id ->
  find (fun a => a_account_id a =? id')
       (filter (fun a => negb (a_account_id a =? id)) l ++ [row])
  = find (fun a => a_account_id a =? id') l.
Proof.
  intros Hrow Hne. induction l as [|a l IH]; simpl.
  - rewrite Hrow. destruct (Z.eqb_spec id id'); [congruence|reflexivity].
  - destruct (Z.eqb_spec (a_account_id a) id) as [E|E]; simpl.
    + destruct (Z.eqb_spec (a_account_id a) id'); [congruence|exact IH].
    + destruct (a_account_id a =? id'); [reflexivity|exact IH].
Qed.

Lemma find_appended (id : Z) (row : account_row) (l : list account_row) :
  a_account_id row = id ->
  find (fun a => a_account_id a =? id) l = None ->
  find (fun a => a_account_id a =? id) (l ++ [row]) = Some row.
Proof.
  intros Hrow. induction l as [|a l IH]; simpl.
  - intros _. rewrite Hrow, Z.eqb_refl. reflexivity.
  - destruct (a_account_id a =? id); [discriminate|exact IH].
Qed.

Lemma find_other_appended (id id' : Z) (row : account_row) (l : list account_row) :
  a_account_id row = id -> id' <> id ->
  find (fun a => a_account_id a =? id') (l ++ [row])
  = find (fun a => a_account_id a =? id') l.
Proof.
  intros Hrow Hne. induction l as [|a l IH]; simpl.
  - rewrite Hrow. destruct (Z.eqb_spec id id'); [congruence|reflexivity].
  - destruct (a_account_id a =? id'); [reflexivity|exact IH].
Qed.

(** What [replace_account] does to the lookups. *)
Lemma replace_account_lookup (d : account_dict) (t : Z) (db : database) :
  find_account (ad_account_id d) (replace_account d t db)
  = Some (replaced_account_row d t) /\
  (forall id', id' <> ad_account_id d ->
               find_account id' (replace_account d t db) = find_account id' db) /\
  bets (replace_account d t db) = bets db /\
  matches (replace_account d t db) = matches db /\
  results (replace_account d t db) = results db /\
  settings (replace_account d t db) = settings db.
Proof.
  unfold replace_account.
  destruct (find_account (ad_account_id d) db) as [old|] eqn:E;
    unfold find_account in *; simpl.
  - split; [apply find_after_replace; reflexivity|].
    split; [|repeat split].
    intros id' Hne. apply find_other_after_replace; [reflexivity|exact Hne].
  - split; [apply find_appended; [reflexivity|exact E]|].
    split; [|repeat split].
    intros id' Hne.
    apply (find_other_appended (ad_account_id d)); [reflexivity|exact Hne].
Qed.

Lemma In_insert_sorted {A} (leb : A -> A -> bool) (x y : A) (l : list A) :
  y = x \/ In y l -> In y (insert_sorted leb x l).
Proof.
  induction l as [|z l IH]; simpl.
  - intros [H|[]]. left. symmetry. exact H.
  - destruct (leb x z); simpl.
    + intros [H|H]; [left; symmetry; exact H|right; exact H].
    + intros [H|[H|H]].
      * right. apply IH. left. exact H.
      * left. exact H.
      * right. apply IH. right. exact H.
Qed.

Lemma In_order_by {A} (leb : A -> A -> bool) (y : A) (l : list A) :
  In y l -> In y (order_by leb l).
Proof.
  unfold order_by. induction l as [|x l IH]; simpl; [intros []|].
  intros [H|H]; apply In_insert_sorted.
  - left. symmetry. exact H.
  - right. exact (IH H).
Qed.

(** X4.  Saving an account, new or not, and reading the accounts back.  When
    the identifier is a 64-bit integer the save commits, the account is found
    with the saved name, balance and remarks, [get_accounts] lists it (it is
    active), and every other account and every match, bet, result and setting
    is as before.  When the identifier is outside 64 bits the save raises
    [OverflowError] and the database is unchanged. *)
Theorem save_account_then_read (d : account_dict) (db : database) (t : Z) :
  (is_int64 (ad_account_id d) = true ->
   exists db',
     save_account d (connect db [] t) = (Ok tt, connect db' [] t) /\
     find_account (ad_account_id d) db' = Some (replaced_account_row d t) /\
     (exists l, get_accounts (connect db' [] t) = (Ok l, connect db' [] t) /\
                In (replaced_account_row d t) l) /\
     (forall id', id' <> ad_account_id d -> find_account id' db' = find_account id' db) /\
     bets db' = bets db /\ matches db' = matches db /\
     results db' = results db /\ settings db' = settings db) /\
  (is_int64 (ad_account_id d) = false ->
   save_account d (connect db [] t) = (Raise int_too_large, connect db [] t)).
Proof.
  split; [|exact (save_account_overflow d db t)].
  intros Hint. exists (replace_account d t db).
  destruct (replace_account_lookup d t db) as [Hfind [Hother Hrest]].
  split; [exact (save_account_run d db t Hint)|]. split; [exact Hfind|].
  split; [|split; [exact Hother|exact Hrest]].
  exists (q_active_accounts (replace_account d t db)).
  split; [reflexivity|].
  unfold q_active_accounts. apply In_order_by. apply filter_In.
  split; [|reflexivity].
  unfold find_account in Hfind. apply find_some in Hfind. exact (proj1 Hfind).
Qed.

Lemma save_account_then_read_witness :
  let d := {| ad_account_id := 4; ad_name := None; ad_balance := 900;
              ad_remarks := Some "new" |} in
  let d' := {| ad_account_id := 2 ^ 63; ad_name := None; ad_balance := 900;
               ad_remarks := Some "new" |} in
  (exists db',
     save_account d (connect sample_db [] 10) = (Ok tt, connect db' [] 10) /\
     find_account 4 db' = Some (replaced_account_row d 10) /\
     find_account 1 db' = find_account 1 sample_db) /\
  save_account d' (connect sample_db [] 10) = (Raise int_too_large, connect sample_db [] 10).
Proof.
  intros d d'. split.
  - destruct (proj1 (save_account_then_read d sample_db 10) eq_refl)
      as [db' [Hrun [Hfind [_ [Hother _]]]]].
    exists db'. split; [exact Hrun|]. split; [exact Hfind|].
    apply Hother. discriminate.
  - apply (proj2 (save_account_then_read d' sample_db 10)). reflexivity.
Defined.

Lemma has_allocation_filtered (bet_id id acc : Z) (l : list bet_account_row) :
  existsb (fun ba => (ba_bet_id ba =? bet_id) && (ba_account_id ba =? acc))
          (filter (fun ba => negb (ba_account_id ba =? id)) l)
  = if acc =? id then false
    else existsb (fun ba => (ba_bet_id ba =? bet_id) && (ba_account_id ba =? acc)) l.
Proof.
  induction l as [|ba l IH]; simpl.
  - destruct (acc =? id); reflexivity.
  - destruct (Z.eqb_spec (ba_account_id ba) id) as [E|E]; simpl.
    + rewrite IH. destruct (Z.eqb_spec acc id) as [E'|E']; [reflexivity|].
      destruct (Z.eqb_spec (ba_account_id ba) acc); [congruence|].
      rewrite andb_false_r. reflexivity.
    + rewrite IH. destruct (Z.eqb_spec acc id) as [E'|E']; [|reflexivity].
      destruct (Z.eqb_spec (ba_account_id ba) acc); [congruence|].
      rewrite andb_false_r. reflexivity.
Qed.

(** X5.  Saving an account that exists, under its 64-bit identifier,
    deletes its stake allocations: after the save no bet has an allocation
    row for that account, while the allocation rows of the other accounts are
    all kept. *)
Theorem save_account_deletes_allocations (d : account_dict) (db : database) (t : Z)
    (old : account_row) :
  is_int64 (ad_account_id d) = true ->
  find_account (ad_account_id d) db = Some old ->
  exists db',
    save_account d (connect db [] t) = (Ok tt, connect db' [] t) /\
    (forall bet_id, has_allocation bet_id (ad_account_id d) db' = false) /\
    (forall bet_id acc, acc <> ad_account_id d ->
                        has_allocation bet_id acc db' = has_allocation bet_id acc db).
Proof.
  intros Hint Hold. exists (replace_account d t db).
  split; [exact (save_account_run d db t Hint)|].
  destruct (replace_account_existing d db t old Hold) as [_ Hba].
  unfold has_allocation. rewrite Hba. split.
  - intros bet_id. rewrite has_allocation_filtered, Z.eqb_refl. reflexivity.
  - intros bet_id acc Hne. rewrite has_allocation_filtered.
    destruct (Z.eqb_spec acc (ad_account_id d)); [contradiction|reflexivity].
Qed.

Lemma save_account_deletes_allocations_witness :
  has_allocation 1 1 staked_db = true /\
  exists db',
    save_account (to_dict (sample_account 1 5000 true)) (connect staked_db [] 20)
    = (Ok tt, connect db' [] 20) /\
    (forall bet_id, has_allocation bet_id 1 db' = false) /\
    (forall bet_id acc, acc <> 1 ->
                        has_allocation bet_id acc db' = has_allocation bet_id acc staked_db).
Proof.
  split; [reflexivity|].
  apply (save_account_deletes_allocations (to_dict (sample_account 1 5000 true))
           staked_db 20 (sample_account 1 5000 true)).
  - reflexivity.
  - reflexivity.
Defined.

(** ** The settings *)

(** X6.  Saved settings are read back: when the settings row exists,
    [get_settings] after [save_settings] returns the two saved values.  When
    the row is missing, [save_settings] succeeds without writing anything and
    [get_settings] answers with the defaults 250 and 2100. *)
Theorem settings_round_trip (min_transfer default_betting_value : Q)
    (db : database) (t : Z) :
  exists db',
    save_settings min_transfer default_betting_value (connect db [] t)
    = (Ok tt, connect db' [] t) /\
    (forall old, settings db = Some old ->
       get_settings (connect db' [] t)
       = (Ok {| sd_min_transfer := min_transfer;
                sd_default_betting_value := default_betting_value;
                sd_updated_at := Some t |}, connect db' [] t)) /\
    (settings db = None ->
       db' = db /\
       get_settings (connect db' [] t) = (Ok default_settings, connect db' [] t)).
Proof.
  eexists. split; [reflexivity|]. split.
  - intros old Hold.
    unfold get_settings, try_except, get_settings_body, bind, execute, storage_call,
      sql_select, q_settings, connect. cbn. rewrite Hold. reflexivity.
  - intros Hnone. split.
    + destruct db; cbn in *. subst. reflexivity.
    + unfold get_settings, try_except, get_settings_body, bind, execute, storage_call,
        sql_select, q_settings, connect. cbn. rewrite Hnone. reflexivity.
Qed.

Lemma settings_round_trip_witness :
  exists db',
    save_settings 300 5000 (connect sample_db [] 10) = (Ok tt, connect db' [] 10) /\
    get_settings (connect db' [] 10)
    = (Ok {| sd_min_transfer := 300; sd_default_betting_value := 5000;
             sd_updated_at := Some 10 |}, connect db' [] 10).
Proof.
  destruct (settings_round_trip 300 5000 sample_db 10) as [db' [Hrun [Hsome _]]].
  exists db'. split; [exact Hrun|].
  apply (Hsome {| s_min_transfer := 250; s_default_betting_value := 2100;
                  s_updated_at := 0 |}).
  reflexivity.
Defined.

(** ** All-or-nothing writers *)

Lemma create_match_body_fails_cleanly (d : match_data) :
  fails_cleanly (create_match_body d).
Proof.
  unfold create_match_body.
  apply fails_cleanly_bind; [apply keeps_execute|]. intros id.
  apply fails_cleanly_commit.
Qed.

Lemma save_settings_body_fails_cleanly (m v : Q) :
  fails_cleanly (save_settings_body m v).
Proof.
  unfold save_settings_body.
  apply fails_cleanly_bind; [apply keeps_execute|]. intros _.
  exact fails_cleanly_commit_alone.
Qed.

(** X7.  Each of the five writing methods of the store is all-or-nothing on
    its own: when [save_account], [create_match], [create_bet], [save_result]
    or [save_settings] raises, whichever storage call or constraint failed,
    the database file is the one the method started from and the connection
    holds no pending change. *)
Theorem writers_are_all_or_nothing (c c' : connection) (e : exn) :
  (exists d, save_account d c = (Raise e, c')) \/
  (exists d, create_match d c = (Raise e, c')) \/
  (exists d, create_bet d c = (Raise e, c')) \/
  (exists d, save_result d c = (Raise e, c')) \/
  (exists m v, save_settings m v c = (Raise e, c')) ->
  committed c' = committed c /\ working c' = committed c.
Proof.
  intros [[d H]|[[d H]|[[d H]|[[d H]|[m [v H]]]]]].
  - destruct (rollback_restores _ c e c' (save_account_body_fails_cleanly d) H)
      as [H1 [H2 _]]. split; assumption.
  - destruct (rollback_restores _ c e c' (create_match_body_fails_cleanly d) H)
      as [H1 [H2 _]]. split; assumption.
  - destruct (rollback_restores _ c e c' (create_bet_body_fails_cleanly d) H)
      as [H1 [H2 _]]. split; assumption.
  - destruct (rollback_restores _ c e c' (save_result_body_fails_cleanly d) H)
      as [H1 [H2 _]]. split; assumption.
  - destruct (rollback_restores _ c e c' (save_settings_body_fails_cleanly m v) H)
      as [H1 [H2 _]]. split; assumption.
Qed.

(** A win is saved for bet 1 of [staked_db] and the commit, the fifth
    storage call, fails: nothing of the transaction is kept. *)
Lemma writers_are_all_or_nothing_witness :
  let d := {| rd_bet_id := 1; rd_winning_team := Some 1; rd_result_type := "win";
              rd_profit_amount := None; rd_loss_amount := None;
              rd_cashout_details := None;
              rd_winning_accounts :=
                Some [ {| wa_account_id := 1; wa_profit := 2100 |} ] |} in
  let c := connect staked_db [false; false; false; false; true] 20 in
  fst (save_result d c) = Raise OperationalError /\
  committed (snd (save_result d c)) = staked_db /\
  working (snd (save_result d c)) = staked_db.
Proof.
  intros d c. split; [vm_compute; reflexivity|].
  apply (writers_are_all_or_nothing c (snd (save_result d c)) OperationalError).
  right. right. right. left. exists d. vm_compute. reflexivity.
Defined.

(** ** The constraints of the schema are kept *)

Lemma NoDup_snoc {A} (l : list A) (x : A) :
  NoDup l -> ~ In x l -> NoDup (l ++ [x]).
Proof.
  induction l as [|y l IH]; simpl; intros Hl Hx.
  - constructor; [intros []|constructor].
  - inversion Hl as [|y' l' Hy Hl']; subst. constructor.
    + intros Hin. apply in_app_or in Hin. destruct Hin as [Hin|[Hin|[]]].
      * exact (Hy Hin).
      * apply Hx. left. symmetry. exact Hin.
    + apply IH; [exact Hl'|]. intros Hin. apply Hx. right. exact Hin.
Qed.

Lemma NoDup_map_filter {A B : Type} (key : A -> B) (keep : A -> bool) (rows : list A) :
  NoDup (map key rows) -> NoDup (map key (filter keep rows)).
Proof.
  induction rows as [|x l IH]; simpl; intros H; [constructor|].
  inversion H as [|y l' Hx Hl]; subst.
  destruct (keep x); simpl; [|exact (IH Hl)].
  constructor; [|exact (IH Hl)].
  intros Hin. apply Hx. apply in_map_iff in Hin.
  destruct Hin as [z [Hz Hin]]. apply filter_In in Hin.
  rewrite <- Hz. apply in_map. exact (proj1 Hin).
Qed.

Lemma find_key_none {A} (key : A -> Z) (id : Z) (l : list A) :
  find (fun a => key a =? id) l = None -> ~ In id (map key l).
Proof.
  induction l as [|x l IH]; simpl; [intros _ []|].
  destruct (Z.eqb_spec (key x) id) as [E|E]; [discriminate|].
  intros H [Hin|Hin]; [exact (E Hin)|exact (IH H Hin)].
Qed.

Lemma find_key_some {A} (key : A -> Z) (id : Z) (l : list A) (x : A) :
  find (fun a => key a =? id) l = Some x -> In id (map key l).
Proof.
  intros H. apply find_some in H. destruct H as [Hin Hk].
  apply Z.eqb_eq in Hk. rewrite <- Hk. apply in_map. exact Hin.
Qed.

Lemma in_key_find {A} (key : A -> Z) (id : Z) (l : list A) :
  In id (map key l) -> find (fun a => key a =? id) l <> None.
Proof.
  intros Hin Hnone. exact (find_key_none key id l Hnone Hin).
Qed.

Lemma fresh_above_seq (l : list Z) (seq : Z) :
  (forall id, In id l -> id <= seq) -> ~ In (seq + 1) l.
Proof. intros H Hin. specialize (H _ Hin). lia. Qed.

Lemma has_allocation_false (bet_id acc : Z) (db : database) :
  has_allocation bet_id acc db = false -> ~ In (bet_id, acc) (allocation_keys db).
Proof.
  unfold has_allocation, allocation_keys. intros H Hin.
  apply in_map_iff in Hin. destruct Hin as [ba [Hk Hin]].
  assert (Ht : existsb (fun ba => (ba_bet_id ba =? bet_id) && (ba_account_id ba =? acc))
                       (bet_accounts db) = true).
  { apply existsb_exists. exists ba. split; [exact Hin|].
    injection Hk as -> ->. rewrite !Z.eqb_refl. reflexivity. }
  rewrite Ht in H. discriminate.
Qed.

Lemma in_allocation_keys (bet_id acc : Z) (db : database) :
  In (bet_id, acc) (allocation_keys db) -> has_allocation bet_id acc db = true.
Proof.
  intros Hin. destruct (has_allocation bet_id acc db) eqn:E; [reflexivity|].
  exfalso. exact (has_allocation_false _ _ _ E Hin).
Qed.

Ltac unfold_ids :=
  unfold account_ids, match_ids, bet_ids, result_ids, allocation_keys in *;
  cbn [accounts matches bets bet_accounts results settings
       seq_matches seq_bets seq_results
       set_accounts set_bet_accounts set_bets set_settings add_result] in *.

Lemma select_keeps_integrity {A} (q : database -> A) : keeps_integrity (sql_select q).
Proof.
  intros t db a db' H Hi. unfold sql_select in H. injection H as _ <-. exact Hi.
Qed.

Lemma begin_keeps_integrity :
  keeps_integrity (fun (_ : Z) (db : database) => Ok (tt, db)).
Proof. intros t db a db' H Hi. injection H as _ <-. exact Hi. Qed.

Lemma replace_account_keeps_integrity (d : account_dict) :
  keeps_integrity (sql_insert_or_replace_account d).
Proof.
  intros t db a db' H Hi. unfold sql_insert_or_replace_account in H.
  destruct (is_int64 (ad_account_id d)) eqn:Hint; [|discriminate].
  injection H as _ <-.
  destruct Hi as [U1 U2 U3 U4 U5 S1 S2 S3 F1 F2 F3 F4 F5 R1].
  unfold replace_account.
  destruct (find_account (ad_account_id d) db) as [old|] eqn:E.
  - constructor; unfold_ids; try assumption.
    + rewrite map_app. apply NoDup_snoc.
      * apply NoDup_map_filter. exact U1.
      * intros Hin. apply in_map_iff in Hin. destruct Hin as [x [Hx Hin]].
        apply filter_In in Hin. destruct Hin as [_ Hp]. simpl in Hx.
        rewrite Hx, Z.eqb_refl in Hp. discriminate.
    + apply NoDup_map_filter. exact U5.
    + intros ba Hin. apply filter_In in Hin. exact (F2 ba (proj1 Hin)).
    + intros ba Hin. apply filter_In in Hin. destruct Hin as [Hin Hp].
      rewrite map_app. apply in_or_app. left.
      specialize (F3 ba Hin). apply in_map_iff in F3.
      destruct F3 as [x [Hx Hx']]. apply in_map_iff. exists x.
      split; [exact Hx|]. apply filter_In. split; [exact Hx'|].
      rewrite Hx. exact Hp.
    + intros ba Hin. apply filter_In in Hin. exact (F4 ba (proj1 Hin)).
    + intros id Hin. rewrite map_app in Hin. apply in_app_or in Hin.
      destruct Hin as [Hin|[Hin|[]]].
      * apply R1. apply in_map_iff in Hin. destruct Hin as [x [Hx Hin]].
        apply filter_In in Hin. apply in_map_iff. exists x.
        split; [exact Hx|exact (proj1 Hin)].
      * simpl in Hin. subst id. exact Hint.
  - constructor; unfold_ids; try assumption.
    + rewrite map_app. apply NoDup_snoc; [exact U1|].
      exact (find_key_none a_account_id _ _ E).
    + intros ba Hin. rewrite map_app. apply in_or_app. left. exact (F3 ba Hin).
    + intros id Hin. rewrite map_app in Hin. apply in_app_or in Hin.
      destruct Hin as [Hin|[Hin|[]]]; [exact (R1 id Hin)|].
      simpl in Hin. subst id. exact Hint.
Qed.

Lemma insert_match_keeps_integrity (team1 team2 match_date match_time : string) :
  keeps_integrity (sql_insert_match team1 team2 match_date match_time).
Proof.
  intros t db a db' H Hi. unfold sql_insert_match in H. injection H as _ <-.
  destruct Hi as [U1 U2 U3 U4 U5 S1 S2 S3 F1 F2 F3 F4 F5 R1].
  constructor; unfold_ids; try assumption.
  - rewrite map_app. apply NoDup_snoc; [exact U2|].
    exact (fresh_above_seq _ _ S1).
  - intros id Hin. rewrite map_app in Hin. apply in_app_or in Hin.
    destruct Hin as [Hin|[Hin|[]]].
    + specialize (S1 id Hin). lia.
    + simpl in Hin. lia.
  - intros b Hin. rewrite map_app. apply in_or_app. left. exact (F1 b Hin).
Qed.

Lemma insert_bet_keeps_integrity (match_id : Z) (o1 o2 v : Q) :
  keeps_integrity (sql_insert_bet match_id o1 o2 v).
Proof.
  intros t db a db' H Hi. unfold sql_insert_bet in H.
  destruct (find_match match_id db) as [m|] eqn:E; [|discriminate].
  injection H as _ <-.
  destruct Hi as [U1 U2 U3 U4 U5 S1 S2 S3 F1 F2 F3 F4 F5 R1].
  constructor; unfold_ids; try assumption.
  - rewrite map_app. apply NoDup_snoc; [exact U3|].
    exact (fresh_above_seq _ _ S2).
  - intros id Hin. rewrite map_app in Hin. apply in_app_or in Hin.
    destruct Hin as [Hin|[Hin|[]]].
    + specialize (S2 id Hin). lia.
    + simpl in Hin. lia.
  - intros b Hin. apply in_app_or in Hin. destruct Hin as [Hin|[Hin|[]]].
    + exact (F1 b Hin).
    + subst b. simpl. exact (find_key_some m_match_id _ _ _ E).
  - intros ba Hin. rewrite map_app. apply in_or_app. left. exact (F2 ba Hin).
  - intros r Hin. rewrite map_app. apply in_or_app. left. exact (F5 r Hin).
Qed.

Lemma insert_bet_account_keeps_integrity (bet_id acc tn : Z) (amt : Q) :
  keeps_integrity (sql_insert_bet_account bet_id acc tn amt).
Proof.
  intros t db a db' H Hi. unfold sql_insert_bet_account in H.
  destruct (negb ((tn =? 1) || (tn =? 2))) eqn:Et; [discriminate|].
  destruct (has_allocation bet_id acc db) eqn:Eh; [discriminate|].
  destruct (find_bet bet_id db) as [b|] eqn:Eb; [|discriminate].
  destruct (find_account acc db) as [x|] eqn:Ea; [|discriminate].
  injection H as _ <-.
  destruct Hi as [U1 U2 U3 U4 U5 S1 S2 S3 F1 F2 F3 F4 F5 R1].
  constructor; unfold_ids; try assumption.
  - rewrite map_app. apply NoDup_snoc; [exact U5|].
    exact (has_allocation_false _ _ _ Eh).
  - intros ba Hin. apply in_app_or in Hin. destruct Hin as [Hin|[Hin|[]]].
    + exact (F2 ba Hin).
    + subst ba. simpl. exact (find_key_some b_bet_id _ _ _ Eb).
  - intros ba Hin. apply in_app_or in Hin. destruct Hin as [Hin|[Hin|[]]].
    + exact (F3 ba Hin).
    + subst ba. simpl. exact (find_key_some a_account_id _ _ _ Ea).
  - intros ba Hin. apply in_app_or in Hin. destruct Hin as [Hin|[Hin|[]]].
    + exact (F4 ba Hin).
    + subst ba. simpl. apply negb_false_iff in Et. apply orb_true_iff in Et.
      destruct Et as [Et|Et]; apply Z.eqb_eq in Et; [left|right]; exact Et.
Qed.

Lemma completed_ids (bet_id t : Z) (l : list bet_row) :
  map b_bet_id (map (fun b => if b_bet_id b =? bet_id then completed t b else b) l)
  = map b_bet_id l.
Proof.
  rewrite map_map. apply map_ext. intros b.
  destruct (b_bet_id b =? bet_id); reflexivity.
Qed.

Lemma complete_bet_keeps_integrity (bet_id : Z) : keeps_integrity (sql_complete_bet bet_id).
Proof.
  intros t db a db' H Hi. unfold sql_complete_bet in H. injection H as _ <-.
  destruct Hi as [U1 U2 U3 U4 U5 S1 S2 S3 F1 F2 F3 F4 F5 R1].
  unfold complete_bet.
  constructor; unfold_ids; try rewrite completed_ids; try assumption.
  intros b Hin. apply in_map_iff in Hin. destruct Hin as [b0 [Hb Hin]].
  specialize (F1 b0 Hin).
  destruct (b_bet_id b0 =? bet_id); subst b; exact F1.
Qed.

Lemma insert_result_keeps_integrity (bet_id : Z) (wt : option Z) (rt : string)
    (p l : option Q) (cd : list (Z * Q)) :
  keeps_integrity (sql_insert_result bet_id wt rt p l cd).
Proof.
  intros t db a db' H Hi. unfold sql_insert_result in H.
  destruct (find_bet bet_id db) as [b|] eqn:Eb; [|discriminate].
  injection H as _ <-.
  destruct Hi as [U1 U2 U3 U4 U5 S1 S2 S3 F1 F2 F3 F4 F5 R1].
  constructor; unfold_ids; cbn [r_result_id]; try assumption.
  - rewrite map_app. apply NoDup_snoc; [exact U4|].
    exact (fresh_above_seq _ _ S3).
  - intros id Hin. rewrite map_app in Hin. apply in_app_or in Hin.
    destruct Hin as [Hin|[Hin|[]]].
    + specialize (S3 id Hin). lia.
    + simpl in Hin. lia.
  - intros r Hin. apply in_app_or in Hin. destruct Hin as [Hin|[Hin|[]]].
    + exact (F5 r Hin).
    + subst r. simpl. exact (find_key_some b_bet_id _ _ _ Eb).
Qed.

Lemma credited_ids (profit : Q) (account_id t : Z) (l : list account_row) :
  map a_account_id
      (map (fun a => if a_account_id a =? account_id then credited profit t a else a) l)
  = map a_account_id l.
Proof.
  rewrite map_map. apply map_ext. intros x.
  destruct (a_account_id x =? account_id); reflexivity.
Qed.

Lemma credit_account_keeps_integrity (profit : Q) (account_id : Z) :
  keeps_integrity (sql_credit_account profit account_id).
Proof.
  intros t db a db' H Hi. unfold sql_credit_account in H. injection H as _ <-.
  destruct Hi as [U1 U2 U3 U4 U5 S1 S2 S3 F1 F2 F3 F4 F5 R1].
  unfold credit_account.
  constructor; unfold_ids; try rewrite credited_ids; assumption.
Qed.

Lemma update_settings_keeps_integrity (m v : Q) :
  keeps_integrity (sql_update_settings m v).
Proof.
  intros t db a db' H Hi. unfold sql_update_settings in H. injection H as _ <-.
  destruct Hi as [U1 U2 U3 U4 U5 S1 S2 S3 F1 F2 F3 F4 F5 R1].
  constructor; unfold_ids; assumption.
Qed.

Section Respects.
Context {S : Type} (I : S -> Prop).

Lemma respects_ret {A} (a : A) : respects I (ret a).
Proof. intros s Hs. exact Hs. Qed.

Lemma respects_raise {A} (e : exn) : respects I (@raise S A e).
Proof. intros s Hs. exact Hs. Qed.

Lemma respects_lift_res {A} (r : res A) : respects I (lift_res r).
Proof. intros s Hs. exact Hs. Qed.

Lemma respects_get : respects I get.
Proof. intros s Hs. exact Hs. Qed.

Lemma respects_bind {A B} (m : M S A) (k : A -> M S B) :
  respects I m -> (forall a, respects I (k a)) -> respects I (bind m k).
Proof.
  intros Hm Hk s Hs. unfold bind. specialize (Hm s Hs).
  destruct (m s) as [[a|e] s1]; simpl in Hm.
  - exact (Hk a s1 Hm).
  - exact Hm.
Qed.

Lemma respects_try_except {A} (body : M S A) (handler : exn -> M S A) :
  respects I body -> (forall e, respects I (handler e)) ->
  respects I (try_except body handler).
Proof.
  intros Hb Hh s Hs. unfold try_except. specialize (Hb s Hs).
  destruct (body s) as [[a|e] s1]; simpl in Hb.
  - exact Hb.
  - exact (Hh e s1 Hb).
Qed.

Lemma respects_for_each {A} (l : list A) (body : A -> M S unit) :
  (forall x, respects I (body x)) -> respects I (for_each l body).
Proof.
  intros Hb. induction l as [|x l IH]; simpl.
  - apply respects_ret.
  - apply respects_bind; [apply Hb|]. intros _. exact IH.
Qed.

Lemma respects_for_collect {A B} (l : list A) (body : A -> M S (list B)) :
  (forall x, respects I (body x)) -> respects I (for_collect l body).
Proof.
  intros Hb. induction l as [|x l IH]; simpl.
  - apply respects_ret.
  - apply respects_bind; [apply Hb|]. intros ys.
    apply respects_bind; [exact IH|]. intros zs. apply respects_ret.
Qed.
End Respects.

Lemma preserves_storage_call : preserves storage_call.
Proof.
  intros c Hc. unfold storage_call. destruct (faults c) as [|b fs]; exact Hc.
Qed.

Lemma preserves_execute {A} (st : statement A) :
  keeps_integrity st -> preserves (execute st).
Proof.
  intros Hst. unfold execute. apply respects_bind; [exact preserves_storage_call|].
  intros _ c [Hc Hw].
  destruct (st (now c) (working c)) as [[a db']|e] eqn:E; simpl.
  - split; [exact Hc|]. exact (Hst _ _ _ _ E Hw).
  - split; assumption.
Qed.

Lemma preserves_commit : preserves commit.
Proof.
  unfold commit. apply respects_bind; [exact preserves_storage_call|].
  intros _ c [Hc Hw]. split; exact Hw.
Qed.

Lemma preserves_rollback_and_raise {A} (e : exn) : preserves (@rollback_and_raise A e).
Proof.
  unfold rollback_and_raise, rollback. apply respects_bind.
  - intros c [Hc Hw]. split; exact Hc.
  - intros _. apply respects_raise.
Qed.

Lemma preserves_log_and_raise {A} (e : exn) : preserves (@log_and_raise A e).
Proof. apply respects_raise. Qed.

Lemma preserves_save_account (d : account_dict) : preserves (save_account d).
Proof.
  apply respects_try_except; [|intros e; apply preserves_rollback_and_raise].
  apply respects_bind; [|intros _; exact preserves_commit].
  apply preserves_execute. apply replace_account_keeps_integrity.
Qed.

Lemma preserves_get_accounts : preserves get_accounts.
Proof.
  apply respects_try_except; [|intros e; apply preserves_log_and_raise].
  apply preserves_execute. apply select_keeps_integrity.
Qed.

Lemma preserves_get_active_bets : preserves get_active_bets.
Proof.
  apply respects_try_except; [|intros e; apply preserves_log_and_raise].
  apply preserves_execute. apply select_keeps_integrity.
Qed.

Lemma preserves_create_match (d : match_data) : preserves (create_match d).
Proof.
  apply respects_try_except; [|intros e; apply preserves_rollback_and_raise].
  apply respects_bind.
  - apply preserves_execute. apply insert_match_keeps_integrity.
  - intros id. apply respects_bind; [exact preserves_commit|].
    intros _. apply respects_ret.
Qed.

Lemma preserves_create_bet (d : bet_data) : preserves (create_bet d).
Proof.
  apply respects_try_except; [|intros e; apply preserves_rollback_and_raise].
  unfold create_bet_body, begin_transaction.
  apply respects_bind; [apply preserves_execute; exact begin_keeps_integrity|].
  intros _. apply respects_bind.
  { destruct (bd_match_id d) as [id|]; [destruct (id =? 0)|];
      try (apply preserves_execute; apply insert_match_keeps_integrity).
    apply respects_ret. }
  intros match_id. apply respects_bind.
  { apply preserves_execute. apply insert_bet_keeps_integrity. }
  intros bet_id. apply respects_bind.
  { apply respects_for_each. intros acc. apply preserves_execute.
    apply insert_bet_account_keeps_integrity. }
  intros _. apply respects_bind.
  { apply respects_for_each. intros acc. apply preserves_execute.
    apply insert_bet_account_keeps_integrity. }
  intros _. apply respects_bind; [exact preserves_commit|].
  intros _. apply respects_ret.
Qed.

Lemma preserves_get_bet_details (bet_id : Z) : preserves (get_bet_details bet_id).
Proof.
  apply respects_try_except; [|intros e; apply preserves_log_and_raise].
  apply respects_bind; [apply preserves_execute; apply select_keeps_integrity|].
  intros [b|]; [|apply respects_raise].
  apply respects_bind; [apply preserves_execute; apply select_keeps_integrity|].
  intros l. apply respects_ret.
Qed.

Lemma preserves_save_result (d : result_data) : preserves (save_result d).
Proof.
  apply respects_try_except; [|intros e; apply preserves_rollback_and_raise].
  unfold save_result_body, begin_transaction.
  apply respects_bind; [apply preserves_execute; exact begin_keeps_integrity|].
  intros _. apply respects_bind.
  { apply preserves_execute. apply complete_bet_keeps_integrity. }
  intros _. apply respects_bind.
  { apply preserves_execute. apply insert_result_keeps_integrity. }
  intros _. apply respects_bind; [|intros _; exact preserves_commit].
  destruct (String.eqb (rd_result_type d) "win"); [|apply respects_ret].
  destruct (rd_winning_accounts d) as [accs|]; [|apply respects_raise].
  apply respects_for_each. intros acc. apply preserves_execute.
  apply credit_account_keeps_integrity.
Qed.

Lemma preserves_get_settings : preserves get_settings.
Proof.
  apply respects_try_except; [|intros e; apply respects_ret].
  apply respects_bind; [apply preserves_execute; apply select_keeps_integrity|].
  intros [s|]; [apply respects_ret|apply respects_raise].
Qed.

Lemma preserves_save_settings (m v : Q) : preserves (save_settings m v).
Proof.
  apply respects_try_except; [|intros e; apply preserves_rollback_and_raise].
  apply respects_bind; [|intros _; exact preserves_commit].
  apply preserves_execute. apply update_settings_keeps_integrity.
Qed.

Lemma preserves_get_bet_history : preserves get_bet_history.
Proof.
  apply respects_try_except; [|intros e; apply respects_ret].
  apply respects_bind; [apply preserves_execute; apply select_keeps_integrity|].
  intros l. apply respects_for_collect. intros h.
  apply respects_bind; [apply preserves_execute; apply select_keeps_integrity|].
  intros accs. apply respects_ret.
Qed.

(** The sample databases satisfy the constraints. *)
Lemma sample_db_integrity : integrity sample_db.
Proof.
  constructor; unfold_ids; simpl;
    try (intros x []); try (repeat constructor; simpl; intuition congruence).
  all: repeat match goal with H : _ \/ _ |- _ => destruct H | H : False |- _ => destruct H end;
    subst; reflexivity.
Qed.

Lemma staked_db_integrity : integrity staked_db.
Proof.
  assert (H : conn_integrity (snd (create_bet (bet_data_of_form sample_form 1050 700)
                                              (connect sample_db [] 10)))).
  { apply preserves_create_bet. split; exact sample_db_integrity. }
  exact (proj1 H).
Qed.

(** X8.  The ten methods of the store keep the constraints that the schema
    declares (unique primary keys, counters not below the identifiers in use,
    foreign keys that point to rows, team numbers 1 or 2): if the database
    file and the working copy of the connection satisfy them before a call,
    they satisfy them after it, whatever the method returns or raises and
    whichever storage calls fail. *)
Theorem store_keeps_integrity (c : connection) :
  conn_integrity c ->
  conn_integrity (snd (get_accounts c)) /\
  (forall d, conn_integrity (snd (save_account d c))) /\
  (forall d, conn_integrity (snd (create_match d c))) /\
  (forall d, conn_integrity (snd (create_bet d c))) /\
  conn_integrity (snd (get_active_bets c)) /\
  (forall id, conn_integrity (snd (get_bet_details id c))) /\
  (forall d, conn_integrity (snd (save_result d c))) /\
  conn_integrity (snd (get_settings c)) /\
  (forall m v, conn_integrity (snd (save_settings m v c))) /\
  conn_integrity (snd (get_bet_history c)).
Proof.
  intros Hc.
  split; [exact (preserves_get_accounts c Hc)|].
  split; [intros d; exact (preserves_save_account d c Hc)|].
  split; [intros d; exact (preserves_create_match d c Hc)|].
  split; [intros d; exact (preserves_create_bet d c Hc)|].
  split; [exact (preserves_get_active_bets c Hc)|].
  split; [intros id; exact (preserves_get_bet_details id c Hc)|].
  split; [intros d; exact (preserves_save_result d c Hc)|].
  split; [exact (preserves_get_settings c Hc)|].
  split; [intros m v; exact (preserves_save_settings m v c Hc)|].
  exact (preserves_get_bet_history c Hc).
Qed.

Lemma store_keeps_integrity_witness :
  conn_integrity (connect sample_db [false; false; false; true] 10) /\
  conn_integrity
    (snd (create_bet (bet_data_of_form sample_form 1050 700)
                     (connect sample_db [false; false; false; true] 10))).
Proof.
  assert (H : conn_integrity (connect sample_db [false; false; false; true] 10)).
  { split; exact sample_db_integrity. }
  split; [exact H|].
  exact (proj1 (proj2 (proj2 (proj2
           (store_keeps_integrity (connect sample_db [false; false; false; true] 10) H))))
           (bet_data_of_form sample_form 1050 700)).
Defined.

Lemma ui_preserves_db_call {A} (m : DB A) : preserves m -> ui_preserves (db_call m).
Proof.
  intros Hm w Hw. unfold db_call. specialize (Hm (conn w) Hw).
  destruct (m (conn w)) as [r c']. exact Hm.
Qed.

Lemma ui_preserves_set_account_data (l : list account_row) :
  ui_preserves (set_account_data l).
Proof. intros w Hw. exact Hw. Qed.

Lemma ui_preserves_set_active_bets (l : list active_bet_row) :
  ui_preserves (set_active_bets l).
Proof. intros w Hw. exact Hw. Qed.

Lemma ui_preserves_lookup_account (acc : Z) : ui_preserves (lookup_account acc).
Proof.
  apply respects_bind; [apply respects_get|].
  intros w. destruct (session_account acc w); [apply respects_ret|apply respects_raise].
Qed.

Lemma ui_preserves_update_account_balance (id : Z) (amount : Q) (operation : string) :
  ui_preserves (update_account_balance id amount operation).
Proof.
  apply respects_try_except; [|intros e; apply respects_raise].
  apply respects_bind; [apply respects_get|]. intros w.
  destruct (session_account id w) as [row|]; [|apply respects_raise].
  apply respects_bind.
  { destruct (String.eqb operation "add"); [apply ui_preserves_set_account_data|].
    destruct (Qltb (a_balance row) amount);
      [apply respects_raise|apply ui_preserves_set_account_data]. }
  intros _. apply respects_bind; [apply respects_get|]. intros w'.
  destruct (session_account id w') as [row'|]; [|apply respects_raise].
  apply ui_preserves_db_call. apply preserves_save_account.
Qed.

Lemma ui_preserves_refresh {A} (a : A) :
  ui_preserves (bets <- db_call get_active_bets ;;
                set_active_bets bets ;;
                accounts <- db_call get_accounts ;;
                set_account_data accounts ;;
                ret a).
Proof.
  apply respects_bind; [apply ui_preserves_db_call; exact preserves_get_active_bets|].
  intros bets. apply respects_bind; [apply ui_preserves_set_active_bets|].
  intros _. apply respects_bind; [apply ui_preserves_db_call; exact preserves_get_accounts|].
  intros accs. apply respects_bind; [apply ui_preserves_set_account_data|].
  intros _. apply respects_ret.
Qed.

Lemma ui_preserves_place_bet (f : betting_form) : ui_preserves (place_bet f).
Proof.
  unfold place_bet.
  assert (Htry : ui_preserves
                   (try_except (place_bet_try f (f_bet_amount1 f) (f_bet_amount2 f))
                               (fun e => ret (ErrorPlacingBet e)))).
  { apply respects_try_except; [|intros e; apply respects_ret].
    unfold place_bet_try.
    apply respects_bind.
    { apply respects_for_collect. intros acc.
      apply respects_bind; [apply ui_preserves_lookup_account|].
      intros row. apply respects_ret. }
    intros short1. apply respects_bind.
    { apply respects_for_collect. intros acc.
      apply respects_bind; [apply ui_preserves_lookup_account|].
      intros row. apply respects_ret. }
    intros short2.
    destruct (short1 ++ short2) as [|p l].
    - apply respects_bind; [apply ui_preserves_db_call; apply preserves_create_bet|].
      intros bet_id. apply respects_bind.
      { apply respects_for_each. intros acc. apply ui_preserves_update_account_balance. }
      intros _. apply respects_bind.
      { apply respects_for_each. intros acc. apply ui_preserves_update_account_balance. }
      intros _. apply ui_preserves_refresh.
    - apply respects_bind; [|intros msgs; apply respects_ret].
      apply respects_for_collect. intros [[acc req] team].
      apply respects_bind; [apply ui_preserves_lookup_account|].
      intros row. apply respects_ret. }
  destruct (f_team1_accounts f) as [|x1 l1]; destruct (f_team2_accounts f) as [|x2 l2];
    try apply respects_ret.
  destruct (negb (Nat.eqb (List.length (x1 :: l1)) (List.length (x2 :: l2))));
    [apply respects_ret|exact Htry].
Qed.

Lemma ui_preserves_credit_winners (accounts : list bet_detail_account) (tn : Z) (odds : Q) :
  ui_preserves (credit_winners accounts tn odds).
Proof.
  apply respects_for_collect. intros acc.
  destruct (da_team_number acc =? tn); [|apply respects_ret].
  apply respects_bind; [apply ui_preserves_update_account_balance|].
  intros _. apply respects_ret.
Qed.

Lemma ui_preserves_apply_win (bet : active_bet_row) (winning_team : string) :
  ui_preserves (apply_win bet winning_team).
Proof.
  apply respects_try_except; [|intros e; apply respects_ret].
  apply respects_bind; [apply ui_preserves_db_call; apply preserves_get_bet_details|].
  intros details. apply respects_bind.
  { destruct (String.eqb winning_team (ab_team1 bet)); apply ui_preserves_credit_winners. }
  intros winners.
  apply respects_bind; [apply ui_preserves_db_call; apply preserves_save_result|].
  intros _. apply ui_preserves_refresh.
Qed.

Lemma ui_preserves_apply_loss (bet : active_bet_row) : ui_preserves (apply_loss bet).
Proof.
  apply respects_try_except; [|intros e; apply respects_ret].
  apply respects_bind; [apply ui_preserves_db_call; apply preserves_save_result|].
  intros _.
  apply respects_bind; [apply ui_preserves_db_call; exact preserves_get_active_bets|].
  intros bets. apply respects_bind; [apply ui_preserves_set_active_bets|].
  intros _. apply respects_ret.
Qed.

Lemma ui_preserves_complete_cashout (bet : active_bet_row) (l : list (Z * Q)) :
  ui_preserves (complete_cashout bet l).
Proof.
  apply respects_try_except; [|intros e; apply respects_ret].
  apply respects_bind; [apply ui_preserves_db_call; apply preserves_save_result|].
  intros _. apply ui_preserves_refresh.
Qed.

Lemma ui_preserves_cashout_panel (bet : active_bet_row) (widgets : Z -> cashout_widgets)
    (complete_pressed : bool) :
  ui_preserves (cashout_panel bet widgets complete_pressed).
Proof.
  apply respects_bind; [apply ui_preserves_db_call; apply preserves_get_bet_details|].
  intros details. apply respects_bind.
  { apply respects_for_collect. intros acc. unfold cashout_account.
    destruct (cw_cashed_out (widgets (da_account_id acc))
              && cw_apply_pressed (widgets (da_account_id acc)));
      [|apply respects_ret].
    apply respects_try_except; [|intros e; apply respects_ret].
    apply respects_bind; [apply ui_preserves_update_account_balance|].
    intros _. apply respects_ret. }
  intros l. destruct complete_pressed; [|apply respects_ret].
  apply respects_bind; [apply ui_preserves_complete_cashout|].
  intros o. apply respects_ret.
Qed.

Lemma ui_preserves_save_account_button (i : Z) (balance : Q) (remarks : string) :
  ui_preserves (save_account_button i balance remarks).
Proof.
  apply respects_try_except; [|intros e; apply respects_ret].
  apply respects_bind; [apply ui_preserves_db_call; apply preserves_save_account|].
  intros _.
  apply respects_bind; [apply ui_preserves_db_call; exact preserves_get_accounts|].
  intros accs. apply respects_bind; [apply ui_preserves_set_account_data|].
  intros _. apply respects_ret.
Qed.

(** X9.  The handlers of the script keep the constraints of the schema as
    well: placing a bet, applying a win or a loss, a run of the cashout
    panel, the "Save" button of the side bar and [update_account_balance],
    whatever they report and whichever storage calls fail, leave a database
    file whose keys are unique and whose foreign keys point to rows.  In
    particular a settlement or a debit that fails half-way never leaves an
    allocation or a result without its bet or its account. *)
Theorem handlers_keep_integrity (w : app) :
  conn_integrity (conn w) ->
  (forall f, conn_integrity (conn (snd (place_bet f w)))) /\
  (forall bet team, conn_integrity (conn (snd (apply_win bet team w)))) /\
  (forall bet, conn_integrity (conn (snd (apply_loss bet w)))) /\
  (forall bet widgets pressed,
      conn_integrity (conn (snd (cashout_panel bet widgets pressed w)))) /\
  (forall i balance remarks,
      conn_integrity (conn (snd (save_account_button i balance remarks w)))) /\
  (forall id amount operation,
      conn_integrity (conn (snd (update_account_balance id amount operation w)))).
Proof.
  intros Hw.
  split; [intros f; exact (ui_preserves_place_bet f w Hw)|].
  split; [intros bet team; exact (ui_preserves_apply_win bet team w Hw)|].
  split; [intros bet; exact (ui_preserves_apply_loss bet w Hw)|].
  split; [intros bet widgets pressed;
          exact (ui_preserves_cashout_panel bet widgets pressed w Hw)|].
  split; [intros i balance remarks;
          exact (ui_preserves_save_account_button i balance remarks w Hw)|].
  intros id amount operation.
  exact (ui_preserves_update_account_balance id amount operation w Hw).
Qed.

Lemma handlers_keep_integrity_witness :
  let w := app_on sample_db
             [false; false; false; false; false; false; false; false; true] 10 in
  conn_integrity (conn w) /\
  conn_integrity (conn (snd (place_bet sample_form w))).
Proof.
  intros w.
  assert (H : conn_integrity (conn w)) by (split; exact sample_db_integrity).
  split; [exact H|].
  exact (proj1 (handlers_keep_integrity w H) sample_form).
Defined.

(** ** [create_bet] when it goes through *)

Lemma set_bet_accounts_same (db : database) : set_bet_accounts (bet_accounts db) db = db.
Proof. destruct db. reflexivity. Qed.

Lemma fresh_bet_has_no_allocation (db : database) (acc : Z) :
  integrity db -> has_allocation (seq_bets db + 1) acc db = false.
Proof.
  intros Hi. destruct (has_allocation (seq_bets db + 1) acc db) eqn:E; [|reflexivity].
  exfalso. unfold has_allocation in E. apply existsb_exists in E.
  destruct E as [ba [Hin Hk]]. apply andb_true_iff in Hk. destruct Hk as [Hk _].
  apply Z.eqb_eq in Hk.
  assert (H := allocation_has_bet db Hi ba Hin). rewrite Hk in H.
  assert (H' := bets_below_seq db Hi _ H). lia.
Qed.

Lemma has_allocation_app (bet_id acc : Z) (db : database) (l : list bet_account_row) :
  has_allocation bet_id acc (set_bet_accounts (bet_accounts db ++ l) db)
  = has_allocation bet_id acc db
    || existsb (fun ba => (ba_bet_id ba =? bet_id) && (ba_account_id ba =? acc)) l.
Proof. unfold has_allocation. simpl. apply existsb_app. Qed.

Lemma no_row_for_other_account (bet_id tn : Z) (amt : Q) (t acc : Z) (l : list Z) :
  ~ In acc l ->
  existsb (fun ba => (ba_bet_id ba =? bet_id) && (ba_account_id ba =? acc))
          (map (allocation_row bet_id tn amt t) l) = false.
Proof.
  induction l as [|x l IH]; simpl; intros Hn; [reflexivity|].
  rewrite IH by (intros H; apply Hn; right; exact H).
  destruct (Z.eqb_spec x acc) as [E|E].
  - exfalso. apply Hn. left. exact E.
  - rewrite andb_false_r. reflexivity.
Qed.

(** The loop of inserts goes through for distinct existing accounts that
    have no row for the bet yet. *)
Lemma insert_loop_run (bet_id tn : Z) (amt : Q) (t : Z) (dbc : database) (accs : list Z) :
  tn = 1 \/ tn = 2 ->
  NoDup accs ->
  forall dbw,
    find_bet bet_id dbw <> None ->
    (forall acc, In acc accs -> In acc (account_ids dbw)) ->
    (forall acc, In acc accs -> has_allocation bet_id acc dbw = false) ->
    for_each accs (fun acc => execute (sql_insert_bet_account bet_id acc tn amt))
      {| committed := dbc; working := dbw; faults := []; now := t |}
    = (Ok tt,
       {| committed := dbc;
          working := set_bet_accounts
                       (bet_accounts dbw ++ map (allocation_row bet_id tn amt t) accs) dbw;
          faults := []; now := t |}).
Proof.
  intros Htn Hnd. induction Hnd as [|a accs Ha Hnd IH]; intros dbw Hbet Hacc Hfree; simpl.
  - rewrite app_nil_r, set_bet_accounts_same. reflexivity.
  - unfold bind at 1.
    erewrite execute_ok.
    2:{ unfold sql_insert_bet_account.
        assert (Et : negb ((tn =? 1) || (tn =? 2)) = false).
        { destruct Htn as [-> | ->]; reflexivity. }
        rewrite Et, (Hfree a (or_introl eq_refl)).
        destruct (find_bet bet_id dbw); [|contradiction].
        assert (Hx := in_key_find a_account_id a (accounts dbw)
                        (Hacc a (or_introl eq_refl))).
        unfold find_account.
        destruct (find (fun x => a_account_id x =? a) (accounts dbw)); [|contradiction].
        reflexivity. }
    fold (allocation_row bet_id tn amt t a).
    rewrite IH.
    + simpl. rewrite <- app_assoc. reflexivity.
    + exact Hbet.
    + intros acc Hin. apply Hacc. right. exact Hin.
    + intros acc Hin.
      rewrite has_allocation_app, (Hfree acc (or_intror Hin)). simpl.
      destruct (Z.eqb_spec a acc) as [E|E].
      * exfalso. apply Ha. rewrite E. exact Hin.
      * rewrite andb_false_r. reflexivity.
Qed.

Lemma find_bet_appended (id : Z) (row : bet_row) (l : list bet_row) :
  b_bet_id row = id -> ~ In id (map b_bet_id l) ->
  find (fun b => b_bet_id b =? id) (l ++ [row]) = Some row.
Proof.
  intros Hrow. induction l as [|b l IH]; simpl; intros Hn.
  - rewrite Hrow, Z.eqb_refl. reflexivity.
  - destruct (Z.eqb_spec (b_bet_id b) id) as [E|E].
    + exfalso. apply Hn. left. exact E.
    + apply IH. intros H. apply Hn. right. exact H.
Qed.

Lemma old_rows_of_other_bets (id : Z) (l : list bet_account_row) :
  (forall ba, In ba l -> ba_bet_id ba <> id) ->
  filter (fun ba => ba_bet_id ba =? id) l = [].
Proof.
  induction l as [|ba l IH]; simpl; intros H; [reflexivity|].
  destruct (Z.eqb_spec (ba_bet_id ba) id) as [E|E].
  - exfalso. exact (H ba (or_introl eq_refl) E).
  - apply IH. intros x Hx. apply H. right. exact Hx.
Qed.

Lemma new_rows_of_bet (id tn : Z) (amt : Q) (t : Z) (l : list Z) :
  filter (fun ba => ba_bet_id ba =? id) (map (allocation_row id tn amt t) l)
  = map (allocation_row id tn amt t) l.
Proof.
  induction l as [|x l IH]; simpl; [reflexivity|].
  rewrite Z.eqb_refl, IH. reflexivity.
Qed.

(** Without faults [create_bet] commits [bet_created]. *)
Lemma create_bet_run (d : bet_data) (db : database) (t : Z) :
  integrity db ->
  (forall id, names_match d = Some id -> In id (match_ids db)) ->
  NoDup (bd_team1_accounts d ++ bd_team2_accounts d) ->
  (forall acc, In acc (bd_team1_accounts d ++ bd_team2_accounts d) ->
               In acc (account_ids db)) ->
  create_bet d (connect db [] t)
  = (Ok (seq_bets db + 1), connect (bet_created d t db) [] t).
Proof.
  intros Hi Hmatch Hnd Hacc.
  assert (Hnd1 : NoDup (bd_team1_accounts d)) by (exact (NoDup_app_remove_r _ _ Hnd)).
  assert (Hnd2 : NoDup (bd_team2_accounts d)) by (exact (NoDup_app_remove_l _ _ Hnd)).
  assert (Hdisj : forall acc, In acc (bd_team2_accounts d) ->
                              ~ In acc (bd_team1_accounts d)).
  { intros acc H2 H1. apply in_split in H1. destruct H1 as [l1 [l2 E]].
    rewrite E, <- app_assoc in Hnd. simpl in Hnd.
    apply NoDup_remove_2 in Hnd. apply Hnd.
    apply in_or_app. right. apply in_or_app. right. exact H2. }
  unfold create_bet, try_except, create_bet_body, begin_transaction, connect.
    unfold bind at 1. rewrite (execute_ok _ db db t tt db eq_refl).
    set (db1 := {| accounts := accounts db;
                   matches := match names_match d with
                              | Some _ => matches db
                              | None =>
                                  matches db
                                    ++ [ {| m_match_id := seq_matches db + 1;
                                            m_team1 := bd_team1 d; m_team2 := bd_team2 d;
                                            m_match_date := bd_match_date d;
                                            m_match_time := bd_match_time d;
                                            m_status := "upcoming";
                                            m_created_at := t; m_updated_at := t |} ]
                              end;
                   bets := bets db; bet_accounts := bet_accounts db;
                   results := results db; settings := settings db;
                   seq_matches := match names_match d with
                                  | Some _ => seq_matches db
                                  | None => seq_matches db + 1
                                  end;
                   seq_bets := seq_bets db; seq_results := seq_results db |}).
    match goal with
    | |- context [bind ?m _ {| committed := db; working := db; faults := []; now := t |}] =>
        assert (Hstep : m {| committed := db; working := db; faults := []; now := t |}
                        = (Ok (match_of_bet d db),
                           {| committed := db; working := db1; faults := [];
                              now := t |}))
    end.
    { subst db1. unfold match_of_bet, names_match.
      destruct (bd_match_id d) as [id|]; [destruct (id =? 0)|].
      - apply execute_ok. reflexivity.
      - unfold ret. destruct db; reflexivity.
      - apply execute_ok. reflexivity. }
    unfold bind at 1.
    rewrite Hstep. clear Hstep.
    assert (Hm : find_match (match_of_bet d db) db1 <> None).
    { unfold find_match. apply in_key_find. subst db1. unfold match_of_bet. simpl.
      destruct (names_match d) as [id|] eqn:En.
      - exact (Hmatch id eq_refl).
      - rewrite map_app. apply in_or_app. right. left. reflexivity. }
    unfold bind at 1.
    erewrite execute_ok.
    2:{ unfold sql_insert_bet. destruct (find_match (match_of_bet d db) db1);
          [reflexivity|contradiction]. }
    fold (new_bet_row d t db).
    match goal with
    | |- context [ {| committed := db; working := ?w; faults := []; now := t |} ] =>
        set (db2 := w)
    end.
    assert (Hb2 : find_bet (seq_bets db + 1) db2 <> None).
    { unfold find_bet. apply in_key_find. subst db2 db1. simpl.
      rewrite map_app. apply in_or_app. right. left. reflexivity. }
    assert (Hacc2 : forall acc, In acc (bd_team1_accounts d ++ bd_team2_accounts d) ->
                                In acc (account_ids db2)).
    { exact Hacc. }
    assert (Hfree2 : forall acc, has_allocation (seq_bets db + 1) acc db2 = false).
    { intros acc. exact (fresh_bet_has_no_allocation db acc Hi). }
    unfold bind at 1.
    change (seq_bets db1 + 1) with (seq_bets db + 1).
    rewrite (insert_loop_run (seq_bets db + 1) 1 (bd_bet_amount1 d) t db
               (bd_team1_accounts d) (or_introl eq_refl) Hnd1 db2 Hb2).
    2:{ intros acc Hin. apply Hacc2. apply in_or_app. left. exact Hin. }
    2:{ intros acc _. apply Hfree2. }
    unfold bind at 1.
    rewrite (insert_loop_run (seq_bets db + 1) 2 (bd_bet_amount2 d) t db
               (bd_team2_accounts d) (or_intror eq_refl) Hnd2).
    + unfold bind at 1. rewrite commit_ok. unfold ret, connect.
      unfold bet_created, set_bet_accounts, new_bet_row.
      subst db2 db1. simpl. rewrite <- app_assoc. reflexivity.
    + exact Hb2.
    + intros acc Hin. apply Hacc2. apply in_or_app. right. exact Hin.
    + intros acc Hin. rewrite has_allocation_app, Hfree2. simpl.
      apply no_row_for_other_account. exact (Hdisj acc Hin).
Qed.

Lemma bet_created_find (d : bet_data) (db : database) (t : Z) :
  integrity db ->
  find_bet (seq_bets db + 1) (bet_created d t db) = Some (new_bet_row d t db).
Proof.
  intros Hi.
  unfold find_bet, bet_created. simpl. apply find_bet_appended; [reflexivity|].
    exact (fresh_above_seq _ _ (bets_below_seq db Hi)).
Qed.

(** X10.  [create_bet] on a database that satisfies the constraints, for
    accounts that exist and are pairwise distinct over both sides, and a
    match that exists when one is named: without storage faults it commits
    and returns the next bet identifier; the new bet is found under it with
    status [active]; its allocations are exactly one row per account, side 1
    then side 2, with the stake of the side; the accounts table, and so
    every balance, is untouched. *)
Theorem create_bet_effect (d : bet_data) (db : database) (t : Z) :
  integrity db ->
  (forall id, names_match d = Some id -> In id (match_ids db)) ->
  NoDup (bd_team1_accounts d ++ bd_team2_accounts d) ->
  (forall acc, In acc (bd_team1_accounts d ++ bd_team2_accounts d) ->
               In acc (account_ids db)) ->
  create_bet d (connect db [] t)
  = (Ok (seq_bets db + 1), connect (bet_created d t db) [] t) /\
  find_bet (seq_bets db + 1) (bet_created d t db) = Some (new_bet_row d t db) /\
  allocations_of (seq_bets db + 1) (bet_created d t db)
  = map (allocation_row (seq_bets db + 1) 1 (bd_bet_amount1 d) t) (bd_team1_accounts d)
      ++ map (allocation_row (seq_bets db + 1) 2 (bd_bet_amount2 d) t)
             (bd_team2_accounts d) /\
  accounts (bet_created d t db) = accounts db /\
  results (bet_created d t db) = results db.
Proof.
  intros Hi Hmatch Hnd Hacc.
  split; [exact (create_bet_run d db t Hi Hmatch Hnd Hacc)|].
  split; [exact (bet_created_find d db t Hi)|].
  split; [|split; reflexivity].
  unfold allocations_of, bet_created. simpl.
    rewrite !filter_app, !new_rows_of_bet.
    rewrite old_rows_of_other_bets; [reflexivity|].
    intros ba Hin E.
    assert (H := allocation_has_bet db Hi ba Hin). rewrite E in H.
    assert (H' := bets_below_seq db Hi _ H). lia.
Qed.

Lemma create_bet_effect_witness :
  let d := bet_data_of_form sample_form 1050 700 in
  create_bet d (connect sample_db [] 10) = (Ok 1, connect (bet_created d 10 sample_db) [] 10) /\
  find_bet 1 (bet_created d 10 sample_db) = Some (new_bet_row d 10 sample_db) /\
  allocations_of 1 (bet_created d 10 sample_db)
  = [allocation_row 1 1 1050 10 1; allocation_row 1 2 700 10 2] /\
  accounts (bet_created d 10 sample_db) = accounts sample_db /\
  results (bet_created d 10 sample_db) = results sample_db.
Proof.
  intros d.
  apply (create_bet_effect d sample_db 10).
  - exact sample_db_integrity.
  - intros id H. discriminate H.
  - repeat constructor; simpl; intuition discriminate.
  - intros acc [H|[H|[]]]; subst acc; simpl; auto.
Defined.

(** ** A submission that goes through *)

Lemma find_set_balance_other (id id' : Z) (v : Q) (l : list account_row) :
  id' <> id ->
  find (fun a => a_account_id a =? id') (set_balance id v l)
  = find (fun a => a_account_id a =? id') l.
Proof.
  intros Hne. induction l as [|a l IH]; simpl; [reflexivity|].
  destruct (Z.eqb_spec (a_account_id a) id) as [E|E]; simpl.
  - destruct (Z.eqb_spec (a_account_id a) id'); [congruence|reflexivity].
  - destruct (a_account_id a =? id'); [reflexivity|exact IH].
Qed.

Lemma replace_account_allocations (d : account_dict) (t : Z) (db : database) :
  (find_account (ad_account_id d) db <> None ->
   forall bet_id, has_allocation bet_id (ad_account_id d) (replace_account d t db) = false) /\
  (forall bet_id acc, acc <> ad_account_id d ->
     has_allocation bet_id acc (replace_account d t db) = has_allocation bet_id acc db).
Proof.
  unfold replace_account, has_allocation.
  destruct (find_account (ad_account_id d) db) as [old|]; simpl.
  - split.
    + intros _ bet_id. rewrite has_allocation_filtered, Z.eqb_refl. reflexivity.
    + intros bet_id acc Hne. rewrite has_allocation_filtered.
      destruct (Z.eqb_spec acc (ad_account_id d)); [contradiction|reflexivity].
  - split; [intros H; contradiction|reflexivity].
Qed.

(** The loop of debits over distinct accounts that the cached frame knows
    and covers: every account of the loop ends with its cached balance minus
    the stake, in a row created now; nothing else is touched, except that
    the allocation rows of the debited accounts are gone. *)
Lemma debit_loop_run (amt : Q) (t : Z) (accs : list Z) :
  NoDup accs ->
  (forall acc, In acc accs -> is_int64 acc = true) ->
  forall (s : session) (db : database),
    (forall acc, In acc accs ->
       exists row, find (fun a => a_account_id a =? acc) (account_data s) = Some row /\
                   Qltb (a_balance row) amt = false) ->
    exists s' db',
      for_each accs (fun acc => update_account_balance acc amt "subtract")
        {| sess := s; conn := connect db [] t |}
      = (Ok tt, {| sess := s'; conn := connect db' [] t |}) /\
      (forall id, ~ In id accs ->
         find (fun a => a_account_id a =? id) (account_data s')
         = find (fun a => a_account_id a =? id) (account_data s)) /\
      (forall id, ~ In id accs -> find_account id db' = find_account id db) /\
      (forall acc, In acc accs ->
         exists row, find (fun a => a_account_id a =? acc) (account_data s) = Some row /\
                     balance_of acc db' = Some (a_balance row - amt)%Q) /\
      (forall acc, In acc accs -> find_account acc db <> None ->
         forall bet_id, has_allocation bet_id acc db' = false) /\
      (forall bet_id id, ~ In id accs ->
         has_allocation bet_id id db' = has_allocation bet_id id db) /\
      bets db' = bets db /\ matches db' = matches db /\ results db' = results db.
Proof.
  intros Hnd. induction Hnd as [|a accs Ha Hnd IH]; intros Hint s db Hall.
  - exists s, db. split; [reflexivity|].
    split; [reflexivity|]. split; [reflexivity|].
    split; [intros acc []|]. split; [intros acc []|].
    split; [reflexivity|]. repeat split.
  - destruct (Hall a (or_introl eq_refl)) as [row [Hrow Hcov]].
    assert (Hid : a_account_id row = a).
    { apply find_some in Hrow. destruct Hrow as [_ H]. apply Z.eqb_eq. exact H. }
    set (d := {| ad_account_id := a_account_id row; ad_name := Some (a_name row);
                 ad_balance := new_balance "subtract" (a_balance row) amt;
                 ad_remarks := Some (a_remarks row) |}).
    set (s1 := {| account_data :=
                    set_balance a (new_balance "subtract" (a_balance row) amt)
                                (account_data s);
                  active_bets := active_bets s |}).
    assert (Hrun := update_account_balance_run s db t a amt "subtract" row Hrow
                      (Hint a (or_introl eq_refl)) (or_intror Hcov)).
    fold d s1 in Hrun.
    assert (Hda : ad_account_id d = a) by exact Hid.
    destruct (replace_account_lookup d t db) as [Hnew [Hother [Hb [Hm [Hr _]]]]].
    destruct (replace_account_allocations d t db) as [Hgone Hkept].
    rewrite Hda in Hnew, Hother, Hgone, Hkept.
    assert (Hall1 : forall acc, In acc accs ->
              exists row1, find (fun x => a_account_id x =? acc) (account_data s1)
                           = Some row1 /\ Qltb (a_balance row1) amt = false).
    { intros acc Hin. destruct (Hall acc (or_intror Hin)) as [r [Hr1 Hr2]].
      exists r. split; [|exact Hr2]. subst s1. cbn [account_data].
      rewrite find_set_balance_other; [exact Hr1|].
      intros E. apply Ha. rewrite <- E. exact Hin. }
    destruct (IH (fun acc H => Hint acc (or_intror H)) s1 (replace_account d t db) Hall1)
      as [s' [db' [Hloop [Hs [Hdb [Hbal [Hdel [Hkeep [Hb' [Hm' Hr']]]]]]]]]].
    exists s', db'. split.
    { simpl. unfold bind at 1. rewrite Hrun. exact Hloop. }
    split.
    { intros id Hn. rewrite Hs by (intros H; apply Hn; right; exact H).
      subst s1. cbn [account_data]. apply find_set_balance_other.
      intros E. apply Hn. left. symmetry. exact E. }
    split.
    { intros id Hn. rewrite Hdb by (intros H; apply Hn; right; exact H).
      apply Hother. intros E. apply Hn. left. symmetry. exact E. }
    split.
    { intros acc [E|Hin].
      - subst acc. exists row. split; [exact Hrow|].
        unfold balance_of. rewrite (Hdb a Ha), Hnew. reflexivity.
      - destruct (Hbal acc Hin) as [r [Hr1 Hr2]]. exists r. split; [|exact Hr2].
        subst s1. cbn [account_data] in Hr1.
        rewrite find_set_balance_other in Hr1; [exact Hr1|].
        intros E. apply Ha. rewrite <- E. exact Hin. }
    split.
    { intros acc [E|Hin] Hex bet_id.
      - subst acc. rewrite (Hkeep bet_id a Ha). exact (Hgone Hex bet_id).
      - apply (Hdel acc Hin). rewrite Hother; [exact Hex|].
        intros E. apply Ha. rewrite <- E. exact Hin. }
    split.
    { intros bet_id id Hn.
      rewrite Hkeep by (intros H; apply Hn; right; exact H).
      apply Hkept. intros E. apply Hn. left. symmetry. exact E. }
    rewrite Hb', Hm', Hr'. repeat split; assumption.
Qed.

Lemma none_short (w : app) (amt : Q) (accs : list Z) :
  (forall acc, In acc accs ->
     exists row, session_account acc w = Some row /\ Qltb (a_balance row) amt = false) ->
  filter (is_short w amt) accs = [].
Proof.
  induction accs as [|a accs IH]; simpl; intros H; [reflexivity|].
  destruct (H a (or_introl eq_refl)) as [row [Hrow Hcov]].
  unfold is_short at 1. rewrite Hrow, Hcov.
  apply IH. intros acc Hin. apply H. right. exact Hin.
Qed.

Lemma refresh_run {A} (a : A) (s : session) (db : database) (t : Z) :
  (bets <- db_call get_active_bets ;;
   set_active_bets bets ;;
   accounts <- db_call get_accounts ;;
   set_account_data accounts ;;
   ret a) {| sess := s; conn := connect db [] t |}
  = (Ok a, {| sess := session_of db; conn := connect db [] t |}).
Proof. reflexivity. Qed.



(** ** The cashout panel *)

Lemma bet_match_exists (db : database) (id : Z) (b : bet_row) :
  integrity db -> find_bet id db = Some b ->
  exists m, find_match (b_match_id b) db = Some m.
Proof.
  intros Hi Hb. unfold find_bet in Hb. apply find_some in Hb. destruct Hb as [Hin _].
  assert (H := in_key_find m_match_id _ _ (bet_has_match db Hi b Hin)).
  unfold find_match. destruct (find (fun m => m_match_id m =? b_match_id b) (matches db)) as [m|].
  - exists m. reflexivity.
  - contradiction.
Qed.

(** [get_bet_details] of a stored bet reads the bet, its match and its
    accounts, and changes nothing. *)
Lemma get_bet_details_run (db : database) (t id : Z) (b : bet_row) (m : match_row) :
  find_bet id db = Some b -> find_match (b_match_id b) db = Some m ->
  get_bet_details id (connect db [] t)
  = (Ok {| det_bet_id := id; det_team1 := m_team1 m; det_team2 := m_team2 m;
           det_match_date := m_match_date m; det_match_time := m_match_time m;
           det_team1_odds := b_team1_odds b; det_team2_odds := b_team2_odds b;
           det_betting_value := b_betting_value b;
           det_accounts := q_bet_accounts id db |},
     connect db [] t).
Proof.
  intros Hb Hm.
  unfold get_bet_details, try_except, get_bet_details_body, connect.
  unfold bind at 1.
  erewrite execute_ok.
  2:{ unfold sql_select, q_bet_info, join_match. rewrite Hb, Hm. reflexivity. }
  cbn [hd_error]. unfold bind at 1.
  erewrite execute_ok by reflexivity.
  reflexivity.
Qed.

Lemma idle_cashout_loop (widgets : Z -> cashout_widgets) (l : list bet_detail_account)
    (w : app) :
  (forall acc, cw_apply_pressed (widgets acc) = false) ->
  for_collect l (cashout_account widgets) w = (Ok [], w).
Proof.
  intros Hidle. induction l as [|acc l IH]; simpl; [reflexivity|].
  unfold bind at 1. unfold cashout_account at 1.
  rewrite Hidle, andb_false_r. unfold ret at 1.
  unfold bind at 1. rewrite IH. reflexivity.
Qed.

(** X12.  "Complete Cashout" in a script run in which no "Apply Cashout"
    button is pressed: for a stored bet and without storage faults, the bet
    is completed with one result row of type [cashout] whose list of cashout
    details is empty, whatever amounts the panel shows, and no balance is
    changed.  The amounts credited by "Apply Cashout" in earlier runs are not
    part of what is recorded. *)
Theorem complete_cashout_records_no_amount (bet : active_bet_row)
    (widgets : Z -> cashout_widgets) (s : session) (db : database) (t : Z) (b : bet_row) :
  integrity db ->
  find_bet (ab_bet_id bet) db = Some b ->
  (forall acc, cw_apply_pressed (widgets acc) = false) ->
  exists db',
    cashout_panel bet widgets true {| sess := s; conn := connect db [] t |}
    = (Ok (Some Applied), {| sess := session_of db'; conn := connect db' [] t |}) /\
    results db'
    = results db ++ [ {| r_result_id := seq_results db + 1; r_bet_id := ab_bet_id bet;
                         r_winning_team := Some 0; r_result_type := "cashout";
                         r_profit_amount := None; r_loss_amount := None;
                         r_cashout_details := []; r_created_at := t |} ] /\
    find_bet (ab_bet_id bet) db' = Some (completed t b) /\
    accounts db' = accounts db.
Proof.
  intros Hi Hb Hidle.
  destruct (bet_match_exists db _ b Hi Hb) as [m Hm].
  set (d := {| rd_bet_id := ab_bet_id bet; rd_winning_team := Some 0;
               rd_result_type := "cashout"; rd_profit_amount := None;
               rd_loss_amount := None; rd_cashout_details := Some [];
               rd_winning_accounts := None |}).
  assert (Hsave : save_result d (connect db [] t) = (Ok tt, connect (settled d t db) [] t)).
  { apply (save_result_run d db t b Hb). discriminate. }
  exists (settled d t db). split.
  - unfold cashout_panel. unfold bind at 1. unfold db_call at 1. cbn [conn sess].
    rewrite (get_bet_details_run db t _ b m Hb Hm).
    unfold bind at 1. rewrite (idle_cashout_loop widgets _ _ Hidle).
    unfold bind at 1. unfold complete_cashout, try_except.
    unfold bind at 1. unfold db_call at 1. cbn [conn sess].
    fold d. rewrite Hsave. rewrite refresh_run. reflexivity.
  - split; [exact (settled_results d t db)|].
    split; [exact (settled_bet d t db b Hb)|].
    exact (settled_accounts d t db eq_refl).
Qed.

Lemma complete_cashout_records_no_amount_witness :
  let widgets := fun _ : Z => {| cw_cashed_out := true; cw_amount := 800;
                                 cw_apply_pressed := false |} in
  exists db',
    cashout_panel sample_bet widgets true
      {| sess := session_of staked_db; conn := connect staked_db [] 20 |}
    = (Ok (Some Applied), {| sess := session_of db'; conn := connect db' [] 20 |}) /\
    map r_cashout_details (results db') = [[]] /\
    accounts db' = accounts staked_db.
Proof.
  intros widgets.
  destruct (complete_cashout_records_no_amount sample_bet widgets (session_of staked_db)
              staked_db 20
              {| b_bet_id := 1; b_match_id := 1; b_team1_odds := 2; b_team2_odds := 3;
                 b_betting_value := 2100; b_status := "active";
                 b_created_at := 10; b_updated_at := 10 |})
    as [db' [Hrun [Hres [_ Hacc]]]].
  - exact staked_db_integrity.
  - reflexivity.
  - reflexivity.
  - exists db'. split; [exact Hrun|]. split; [|exact Hacc].
    rewrite Hres. reflexivity.
Defined.



(** ** Settling a bet that is not stored *)

Lemma complete_bet_missing (id t : Z) (db : database) :
  find_bet id db = None -> complete_bet id t db = db.
Proof.
  intros H. unfold complete_bet, set_bets.
  assert (Hmap : map (fun b => if b_bet_id b =? id then completed t b else b) (bets db)
                 = bets db).
  { unfold find_bet in H. induction (bets db) as [|b l IH]; simpl in *; [reflexivity|].
    destruct (b_bet_id b =? id); [discriminate|]. rewrite (IH H). reflexivity. }
  rewrite Hmap. destruct db; reflexivity.
Qed.

Lemma get_bet_details_missing (db : database) (t id : Z) :
  find_bet id db = None ->
  get_bet_details id (connect db [] t)
  = (Raise (ValueError (bet_not_found id)), connect db [] t).
Proof.
  intros H.
  unfold get_bet_details, try_except, get_bet_details_body, connect.
  unfold bind at 1.
  erewrite execute_ok.
  2:{ unfold sql_select, q_bet_info. rewrite H. reflexivity. }
  reflexivity.
Qed.

Lemma save_result_missing (d : result_data) (db : database) (t : Z) :
  find_bet (rd_bet_id d) db = None ->
  save_result d (connect db [] t) = (Raise fk_failed, connect db [] t).
Proof.
  intros H.
  unfold save_result, try_except, save_result_body, begin_transaction, connect.
  unfold bind at 1.
  rewrite (execute_ok _ db db t tt db eq_refl).
  unfold bind at 1.
  rewrite (execute_ok _ db db t tt (complete_bet (rd_bet_id d) t db) eq_refl).
  rewrite (complete_bet_missing _ t db H).
  unfold bind at 1.
  erewrite execute_raise.
  2:{ unfold sql_insert_result. rewrite H. reflexivity. }
  reflexivity.
Qed.

(** X14.  Settling a bet whose identifier is not stored (the cached list of
    active bets is older than the database), without storage faults.  Nothing
    is written and the cached frames stay as they are.  [get_bet_details]
    raises [ValueError] "Bet with ID ... not found"; "Apply Win" shows that
    error; "Apply Loss", which does not read the bet, shows the foreign key
    error of the result row after [save_result] has rolled back; and the
    cashout panel, which reads the bet outside any [try], lets the
    [ValueError] escape from the script. *)
Theorem settling_a_missing_bet (bet : active_bet_row) (winning_team : string)
    (widgets : Z -> cashout_widgets) (pressed : bool)
    (s : session) (db : database) (t : Z) :
  find_bet (ab_bet_id bet) db = None ->
  let w := {| sess := s; conn := connect db [] t |} in
  get_bet_details (ab_bet_id bet) (connect db [] t)
  = (Raise (ValueError (bet_not_found (ab_bet_id bet))), connect db [] t) /\
  apply_win bet winning_team w
  = (Ok (ErrorApplying (ValueError (bet_not_found (ab_bet_id bet)))), w) /\
  apply_loss bet w = (Ok (ErrorApplying fk_failed), w) /\
  cashout_panel bet widgets pressed w
  = (Raise (ValueError (bet_not_found (ab_bet_id bet))), w).
Proof.
  intros H w. assert (Hd := get_bet_details_missing db t _ H).
  split; [exact Hd|]. split; [|split].
  - unfold apply_win, try_except. unfold bind at 1. unfold db_call at 1.
    subst w. cbn [conn sess]. rewrite Hd. reflexivity.
  - unfold apply_loss, try_except. unfold bind at 1. unfold db_call at 1.
    subst w. cbn [conn sess].
    match goal with
    | |- context [save_result ?d _] => rewrite (save_result_missing d db t H)
    end.
    reflexivity.
  - unfold cashout_panel. unfold bind at 1. unfold db_call at 1.
    subst w. cbn [conn sess]. rewrite Hd. reflexivity.
Qed.

Lemma settling_a_missing_bet_witness :
  let w := {| sess := {| account_data := accounts sample_db; active_bets := [sample_bet] |};
              conn := connect sample_db [] 20 |} in
  apply_win sample_bet "Chennai Super Kings" w
  = (Ok (ErrorApplying (ValueError (bet_not_found 1))), w) /\
  apply_loss sample_bet w = (Ok (ErrorApplying fk_failed), w).
Proof.
  intros w.
  destruct (settling_a_missing_bet sample_bet "Chennai Super Kings"
              (fun _ => {| cw_cashed_out := false; cw_amount := 0;
                           cw_apply_pressed := false |})
              false {| account_data := accounts sample_db; active_bets := [sample_bet] |}
              sample_db 20 eq_refl) as [_ [Hwin [Hloss _]]].
  split; [exact Hwin|exact Hloss].
Defined.

(** ** The account lists of the form *)

Lemma in_selected_accounts (n : nat) (ticked : Z -> bool) (i : Z) :
  In i (selected_accounts n ticked) <-> (1 <= i <= Z.of_nat n /\ ticked i = true).
Proof.
  unfold selected_accounts. rewrite filter_In, in_map_iff. split.
  - intros [[k [Hk Hin]] Ht]. apply in_seq in Hin. split; [lia|exact Ht].
  - intros [Hr Ht]. split; [|exact Ht].
    exists (Z.to_nat i). split; [lia|]. apply in_seq. lia.
Qed.

Lemma NoDup_selected_accounts (n : nat) (ticked : Z -> bool) :
  NoDup (selected_accounts n ticked).
Proof.
  unfold selected_accounts. apply NoDup_filter.
  assert (H : forall l : list nat, NoDup l -> NoDup (map Z.of_nat l)).
  { induction l as [|x l IH]; simpl; intros Hl; [constructor|].
    inversion Hl as [|x' l' Hx Hl']; subst. constructor; [|exact (IH Hl')].
    intros Hin. apply in_map_iff in Hin. destruct Hin as [y [Hy Hin]].
    apply Nat2Z.inj in Hy. subst y. exact (Hx Hin). }
  apply H. apply seq_NoDup.
Qed.

(** X15.  The two account lists built by the form.  Each holds exactly the
    numbers between 1 and [num_accounts] whose box returned true, without
    repetition.  Taken together the two lists are free of repetitions exactly
    when no number has its box true on both sides: the loops themselves
    remove nothing, so an overlap of the boxes is an overlap of the lists
    handed to [create_bet]. *)
Theorem selected_accounts_spec (num_accounts : nat) (ticked1 ticked2 : Z -> bool) :
  let team1_accounts := selected_accounts num_accounts ticked1 in
  let team2_accounts := selected_accounts num_accounts ticked2 in
  (forall i, In i team1_accounts <-> (1 <= i <= Z.of_nat num_accounts /\ ticked1 i = true)) /\
  (forall i, In i team2_accounts <-> (1 <= i <= Z.of_nat num_accounts /\ ticked2 i = true)) /\
  NoDup team1_accounts /\ NoDup team2_accounts /\
  (NoDup (team1_accounts ++ team2_accounts) <->
   forall i, 1 <= i <= Z.of_nat num_accounts -> ticked1 i = true -> ticked2 i = false).
Proof.
  intros l1 l2.
  split; [intros i; apply in_selected_accounts|].
  split; [intros i; apply in_selected_accounts|].
  split; [apply NoDup_selected_accounts|].
  split; [apply NoDup_selected_accounts|].
  split.
  - intros Hnd i Hr H1. destruct (ticked2 i) eqn:H2; [exfalso|reflexivity].
    assert (Hi1 : In i l1) by (apply in_selected_accounts; split; assumption).
    assert (Hi2 : In i l2) by (apply in_selected_accounts; split; assumption).
    apply in_split in Hi1. destruct Hi1 as [p [q Hpq]].
    rewrite Hpq, <- app_assoc in Hnd. apply NoDup_remove_2 in Hnd.
    apply Hnd. apply in_or_app. right. apply in_or_app. right. exact Hi2.
  - intros Hdis. apply NoDup_app.
    + apply NoDup_selected_accounts.
    + apply NoDup_selected_accounts.
    + intros i Hi1 Hi2.
      apply in_selected_accounts in Hi1. apply in_selected_accounts in Hi2.
      destruct Hi1 as [Hr H1]. destruct Hi2 as [_ H2].
      rewrite (Hdis i Hr H1) in H2. discriminate.
Qed.

(** ** Active bets and history *)

Lemma NoDup_map_injective {A B} (f : A -> B) (l : list A) (x y : A) :
  NoDup (map f l) -> In x l -> In y l -> f x = f y -> x = y.
Proof.
  induction l as [|z l IH]; simpl; [intros _ []|].
  intros Hnd Hx Hy Hf. inversion Hnd as [|z' l' Hz Hl]; subst.
  destruct Hx as [Hx|Hx], Hy as [Hy|Hy].
  - congruence.
  - subst z. exfalso. apply Hz. rewrite Hf. apply in_map. exact Hy.
  - subst z. exfalso. apply Hz. rewrite <- Hf. apply in_map. exact Hx.
  - exact (IH Hl Hx Hy Hf).
Qed.

Lemma join_match_id (db : database) (b : bet_row) (x : active_bet_row) :
  In x (join_match db b) -> ab_bet_id x = b_bet_id b.
Proof.
  unfold join_match. destruct (find_match (b_match_id b) db); simpl.
  - intros [H|[]]. subst x. reflexivity.
  - intros [].
Qed.

Lemma joined_has_status (st : string) (db : database) (x : active_bet_row) :
  In x (flat_map (join_match db)
          (filter (fun b => String.eqb (b_status b) st) (bets db))) ->
  exists b, In b (bets db) /\ b_status b = st /\ ab_bet_id x = b_bet_id b.
Proof.
  intros H. apply in_flat_map in H. destruct H as [b [Hb Hx]].
  apply filter_In in Hb. destruct Hb as [Hin Hst].
  exists b. split; [exact Hin|]. split; [apply String.eqb_eq; exact Hst|].
  exact (join_match_id db b x Hx).
Qed.

Lemma status_is_joined (st : string) (db : database) (b : bet_row) :
  integrity db -> In b (bets db) -> b_status b = st ->
  exists x, In x (flat_map (join_match db)
                    (filter (fun b => String.eqb (b_status b) st) (bets db))) /\
            ab_bet_id x = b_bet_id b.
Proof.
  intros Hi Hin Hst.
  assert (Hm := in_key_find m_match_id _ _ (bet_has_match db Hi b Hin)).
  destruct (find_match (b_match_id b) db) as [m|] eqn:E;
    [|exfalso; apply Hm; exact E].
  eexists. split.
  - apply in_flat_map. exists b. split.
    + apply filter_In. split; [exact Hin|]. apply String.eqb_eq. exact Hst.
    + unfold join_match. rewrite E. left. reflexivity.
  - reflexivity.
Qed.

Lemma left_join_results_bet (db : database) (x : active_bet_row) (h : history_row) :
  In h (left_join_results db x) -> h_bet h = x.
Proof.
  unfold left_join_results. destruct (results_of (ab_bet_id x) db) as [|r rs].
  - intros [H|[]]. subst h. reflexivity.
  - intros H. apply in_map_iff in H. destruct H as [r' [H _]]. subst h. reflexivity.
Qed.

Lemma left_join_results_inhabited (db : database) (x : active_bet_row) :
  exists h, In h (left_join_results db x) /\ h_bet h = x.
Proof.
  unfold left_join_results. destruct (results_of (ab_bet_id x) db) as [|r rs].
  - eexists. split; [left; reflexivity|reflexivity].
  - eexists. split; [left; reflexivity|reflexivity].
Qed.

(** X16.  In a database that satisfies the constraints, the list of active
    bets and the history are decided by the status column alone: a stored bet
    has a row among the active bets exactly when its status is [active], and
    a row in the history exactly when its status is [completed]; so no bet is
    in both, and results play no part (a completed bet without a result row
    is still in the history, with empty result columns). *)
Theorem bets_are_listed_by_status (db : database) (b : bet_row) :
  integrity db -> In b (bets db) ->
  ((exists x, In x (q_active_bets db) /\ ab_bet_id x = b_bet_id b)
   <-> b_status b = "active") /\
  ((exists h, In h (q_completed_bets db) /\ ab_bet_id (h_bet h) = b_bet_id b)
   <-> b_status b = "completed") /\
  ~ ((exists x, In x (q_active_bets db) /\ ab_bet_id x = b_bet_id b) /\
     (exists h, In h (q_completed_bets db) /\ ab_bet_id (h_bet h) = b_bet_id b)).
Proof.
  intros Hi Hin.
  assert (Hsame : forall b', In b' (bets db) -> b_bet_id b' = b_bet_id b -> b' = b).
  { intros b' Hb' Hid.
    exact (NoDup_map_injective b_bet_id (bets db) b' b (unique_bets db Hi) Hb' Hin Hid). }
  assert (Hact : (exists x, In x (q_active_bets db) /\ ab_bet_id x = b_bet_id b)
                 <-> b_status b = "active").
  { split.
    - intros [x [Hx Hid]]. unfold q_active_bets in Hx. apply order_by_In in Hx.
      destruct (joined_has_status _ db x Hx) as [b' [Hb' [Hst Hid']]].
      rewrite <- (Hsame b' Hb'); [exact Hst|congruence].
    - intros Hst. destruct (status_is_joined _ db b Hi Hin Hst) as [x [Hx Hid]].
      exists x. split; [|exact Hid]. unfold q_active_bets. apply In_order_by. exact Hx. }
  assert (Hdone : (exists h, In h (q_completed_bets db) /\ ab_bet_id (h_bet h) = b_bet_id b)
                  <-> b_status b = "completed").
  { split.
    - intros [h [Hh Hid]]. unfold q_completed_bets in Hh. apply order_by_In in Hh.
      apply in_flat_map in Hh. destruct Hh as [x [Hx Hhx]].
      apply left_join_results_bet in Hhx. subst x.
      destruct (joined_has_status _ db _ Hx) as [b' [Hb' [Hst Hid']]].
      rewrite <- (Hsame b' Hb'); [exact Hst|congruence].
    - intros Hst. destruct (status_is_joined _ db b Hi Hin Hst) as [x [Hx Hid]].
      destruct (left_join_results_inhabited db x) as [h [Hh Hb]].
      exists h. split; [|rewrite Hb; exact Hid].
      unfold q_completed_bets. apply In_order_by. apply in_flat_map.
      exists x. split; [exact Hx|exact Hh]. }
  split; [exact Hact|]. split; [exact Hdone|].
  intros [Ha Hd]. apply Hact in Ha. apply Hdone in Hd. rewrite Ha in Hd. discriminate.
Qed.

Lemma bets_are_listed_by_status_witness :
  (exists x, In x (q_active_bets staked_db) /\ ab_bet_id x = 1) /\
  ~ (exists h, In h (q_completed_bets staked_db) /\ ab_bet_id (h_bet h) = 1).
Proof.
  destruct (bets_are_listed_by_status staked_db
              {| b_bet_id := 1; b_match_id := 1; b_team1_odds := 2; b_team2_odds := 3;
                 b_betting_value := 2100; b_status := "active";
                 b_created_at := 10; b_updated_at := 10 |}
              staked_db_integrity (or_introl eq_refl)) as [Hact [Hdone _]].
  split.
  - apply Hact. reflexivity.
  - intros H. apply Hdone in H. discriminate.
Defined.

(** ** The history *)

Lemma history_loop_run (db : database) (t : Z) (hs : list history_row) :
  for_collect hs
    (fun h => accounts <- execute (sql_select (q_bet_accounts (ab_bet_id (h_bet h)))) ;;
              ret [(h, accounts)])
    (connect db [] t)
  = (Ok (map (fun h => (h, q_bet_accounts (ab_bet_id (h_bet h)) db)) hs), connect db [] t).
Proof.
  induction hs as [|h hs IH]; [reflexivity|].
  cbn [for_collect map]. unfold bind at 1. unfold bind at 1. unfold connect at 1.
  erewrite execute_ok by reflexivity.
  unfold ret at 1. unfold bind at 1. fold (connect db [] t). rewrite IH. reflexivity.
Qed.

(** Without faults [get_bet_history] returns the rows of the history query,
    each with the accounts of its bet. *)
Lemma get_bet_history_run (db : database) (t : Z) :
  get_bet_history (connect db [] t)
  = (Ok (map (fun h => (h, q_bet_accounts (ab_bet_id (h_bet h)) db)) (q_completed_bets db)),
     connect db [] t).
Proof.
  unfold get_bet_history, try_except, get_bet_history_body.
  unfold bind at 1. unfold connect at 1.
  erewrite execute_ok by reflexivity.
  fold (connect db [] t). rewrite history_loop_run. reflexivity.
Qed.

Lemma count_insert_sorted {A} (leb : A -> A -> bool) (p : A -> bool) (x : A) (l : list A) :
  List.length (filter p (insert_sorted leb x l)) = List.length (filter p (x :: l)).
Proof.
  induction l as [|y l IH]; [reflexivity|].
  cbn [insert_sorted]. destruct (leb x y); [reflexivity|].
  cbn [filter] in *. destruct (p y), (p x); cbn [List.length] in *; lia.
Qed.

Lemma count_order_by {A} (leb : A -> A -> bool) (p : A -> bool) (l : list A) :
  List.length (filter p (order_by leb l)) = List.length (filter p l).
Proof.
  unfold order_by. induction l as [|x l IH]; [reflexivity|].
  cbn [fold_right]. rewrite count_insert_sorted. cbn [filter].
  destruct (p x); cbn [List.length]; lia.
Qed.

Lemma left_join_results_length (db : database) (x : active_bet_row) :
  List.length (left_join_results db x)
  = Nat.max 1%nat (List.length (results_of (ab_bet_id x) db)).
Proof.
  unfold left_join_results. destruct (results_of (ab_bet_id x) db) as [|r rs].
  - reflexivity.
  - rewrite length_map. cbn [List.length]. lia.
Qed.

Lemma filter_left_join_results (db : database) (id : Z) (x : active_bet_row) :
  filter (fun h => ab_bet_id (h_bet h) =? id) (left_join_results db x)
  = if ab_bet_id x =? id then left_join_results db x else [].
Proof.
  assert (H : forall l, (forall h, In h l -> h_bet h = x) ->
                        filter (fun h => ab_bet_id (h_bet h) =? id) l
                        = if ab_bet_id x =? id then l else []).
  { induction l as [|h l IH]; intros Hl.
    - destruct (ab_bet_id x =? id); reflexivity.
    - cbn [filter]. rewrite (Hl h (or_introl eq_refl)).
      rewrite IH by (intros h' Hh'; apply Hl; right; exact Hh').
      destruct (ab_bet_id x =? id); reflexivity. }
  apply H. intros h Hh. exact (left_join_results_bet db x h Hh).
Qed.

Lemma count_left_join (db : database) (id : Z) (xs : list active_bet_row) :
  List.length (filter (fun h => ab_bet_id (h_bet h) =? id)
                      (flat_map (left_join_results db) xs))
  = Nat.mul (List.length (filter (fun x => ab_bet_id x =? id) xs))
            (Nat.max 1%nat (List.length (results_of id db))).
Proof.
  induction xs as [|x xs IH]; [reflexivity|].
  cbn [flat_map filter]. rewrite filter_app, length_app, IH, filter_left_join_results.
  destruct (Z.eqb_spec (ab_bet_id x) id) as [E|E].
  - rewrite left_join_results_length, E. cbn [List.length]. lia.
  - cbn [List.length]. lia.
Qed.

Lemma count_join_match (db : database) (id : Z) (bs : list bet_row) :
  (forall b, In b bs -> find_match (b_match_id b) db <> None) ->
  List.length (filter (fun x => ab_bet_id x =? id) (flat_map (join_match db) bs))
  = List.length (filter (fun b => b_bet_id b =? id) bs).
Proof.
  induction bs as [|b bs IH]; intros H; [reflexivity|].
  cbn [flat_map filter]. rewrite filter_app, length_app.
  rewrite IH by (intros b' Hb'; apply H; right; exact Hb').
  assert (Hb := H b (or_introl eq_refl)).
  unfold join_match. destruct (find_match (b_match_id b) db) as [m|]; [|contradiction].
  cbn [filter ab_bet_id]. destruct (b_bet_id b =? id); reflexivity.
Qed.

Lemma count_key {A} (key : A -> Z) (p : A -> bool) (l : list A) (x : A) :
  NoDup (map key l) -> In x l -> p x = true ->
  List.length (filter (fun y => key y =? key x) (filter p l)) = 1%nat.
Proof.
  induction l as [|z l IH]; [intros _ []|].
  intros Hnd Hin Hp. cbn [map] in Hnd. inversion Hnd as [|k ks Hz Hl]; subst.
  assert (Hnone : forall l', (forall y, In y l' -> key y <> key x) ->
                             filter (fun y => key y =? key x) (filter p l') = []).
  { induction l' as [|y l' IH']; intros Hl'; [reflexivity|].
    cbn [filter]. assert (Hy := Hl' y (or_introl eq_refl)).
    destruct (p y); cbn [filter].
    - destruct (Z.eqb_spec (key y) (key x)); [contradiction|].
      apply IH'. intros y' Hy'. apply Hl'. right. exact Hy'.
    - apply IH'. intros y' Hy'. apply Hl'. right. exact Hy'. }
  destruct Hin as [Hin|Hin].
  - subst z. cbn [filter]. rewrite Hp. cbn [filter]. rewrite Z.eqb_refl.
    cbn [List.length]. rewrite Hnone; [reflexivity|].
    intros y Hy E. apply Hz. rewrite <- E. apply in_map. exact Hy.
  - cbn [filter].
    assert (Hne : key z <> key x).
    { intros E. apply Hz. rewrite E. apply in_map. exact Hin. }
    destruct (p z); cbn [filter].
    + destruct (Z.eqb_spec (key z) (key x)); [contradiction|]. exact (IH Hl Hin Hp).
    + exact (IH Hl Hin Hp).
Qed.

Lemma count_paired {A B} (p : A -> bool) (c : A -> B) (l : list A) :
  List.length (filter (fun r => p (fst r)) (map (fun h => (h, c h)) l))
  = List.length (filter p l).
Proof.
  induction l as [|h l IH]; [reflexivity|].
  cbn [map filter fst]. destruct (p h); cbn [List.length]; rewrite IH; reflexivity.
Qed.

(** X17.  The history of a completed bet.  In a database that satisfies the
    constraints and without storage faults, [get_bet_history] returns for a
    completed bet as many rows as the bet has result rows, and one row when
    it has none; so a bet that was settled twice is listed twice.  Every row
    carries the accounts that the bet has at the time of the call. *)
Theorem history_has_one_row_per_result (db : database) (t : Z) (b : bet_row) :
  integrity db -> In b (bets db) -> b_status b = "completed" ->
  exists rows,
    get_bet_history (connect db [] t) = (Ok rows, connect db [] t) /\
    List.length (filter (fun r => ab_bet_id (h_bet (fst r)) =? b_bet_id b) rows)
    = Nat.max 1%nat (List.length (results_of (b_bet_id b) db)) /\
    (forall r, In r rows -> snd r = q_bet_accounts (ab_bet_id (h_bet (fst r))) db).
Proof.
  intros Hi Hin Hst. eexists. split; [apply get_bet_history_run|]. split.
  - rewrite (count_paired (fun h => ab_bet_id (h_bet h) =? b_bet_id b)).
    unfold q_completed_bets. rewrite count_order_by, count_left_join.
    rewrite count_join_match.
    + rewrite (count_key b_bet_id _ (bets db) b (unique_bets db Hi) Hin).
      * lia.
      * apply String.eqb_eq. exact Hst.
    + intros b' Hb'. apply filter_In in Hb'. destruct Hb' as [Hb' _].
      exact (in_key_find m_match_id _ _ (bet_has_match db Hi b' Hb')).
  - intros r Hr. apply in_map_iff in Hr. destruct Hr as [h [Hr _]]. subst r. reflexivity.
Qed.

Lemma history_has_one_row_per_result_witness :
  let loss := {| rd_bet_id := 1; rd_winning_team := Some 0; rd_result_type := "loss";
                 rd_profit_amount := None; rd_loss_amount := None;
                 rd_cashout_details := None; rd_winning_accounts := None |} in
  let db := committed (snd (save_result loss
                              (snd (save_result loss (connect staked_db [] 20))))) in
  exists rows,
    get_bet_history (connect db [] 40) = (Ok rows, connect db [] 40) /\
    List.length (filter (fun r => ab_bet_id (h_bet (fst r)) =? 1) rows) = 2%nat.
Proof.
  intros loss db.
  assert (H : conn_integrity (snd (save_result loss
                                     (snd (save_result loss (connect staked_db [] 20)))))).
  { apply preserves_save_result. apply preserves_save_result.
    split; exact staked_db_integrity. }
  assert (Hi : integrity db) by exact (proj1 H).
  destruct (history_has_one_row_per_result db 40
              {| b_bet_id := 1; b_match_id := 1; b_team1_odds := 2; b_team2_odds := 3;
                 b_betting_value := 2100; b_status := "completed";
                 b_created_at := 10; b_updated_at := 20 |} Hi)
    as [rows [Hrun [Hcount _]]].
  - vm_compute. left. reflexivity.
  - reflexivity.
  - exists rows. split; [exact Hrun|].
    etransitivity; [exact Hcount|]. vm_compute. reflexivity.
Defined.

(** ** The Save button of the side bar *)

(** X18.  The Save button of an account in the side bar, whose number is a
    64-bit integer (the numbers come from [range(1, num_accounts + 1)]).
    Without storage faults the account is written with the name [Account i]
    and the balance and remarks of the widgets, and the cached frame is read
    again from the database, so that it shows the saved row.  When the
    statement of the save fails, the error is shown and neither the database
    nor the cached frame has changed (unlike [update_account_balance], the
    button writes the cache only after the save). *)
Theorem save_button_keeps_cache_in_step (i : Z) (balance : Q) (remarks : string)
    (s : session) (db : database) (fs : list bool) (t : Z) :
  is_int64 i = true ->
  let d := {| ad_account_id := i; ad_name := Some (default_account_name i);
              ad_balance := balance; ad_remarks := Some remarks |} in
  (exists db',
     save_account_button i balance remarks {| sess := s; conn := connect db [] t |}
     = (Ok Applied,
        {| sess := {| account_data := q_active_accounts db';
                      active_bets := active_bets s |};
           conn := connect db' [] t |}) /\
     find_account i db' = Some (replaced_account_row d t) /\
     In (replaced_account_row d t) (q_active_accounts db')) /\
  (exists c',
     save_account_button i balance remarks {| sess := s; conn := connect db (true :: fs) t |}
     = (Ok (ErrorApplying OperationalError), {| sess := s; conn := c' |}) /\
     committed c' = db /\ working c' = db /\ faults c' = fs).
Proof.
  intros Hint d. split.
  - exists (replace_account d t db).
    destruct (replace_account_lookup d t db) as [Hfind _].
    split.
    { unfold save_account_button, try_except. unfold bind at 1. unfold db_call at 1.
      cbn [conn sess]. fold d. rewrite (save_account_run d db t Hint). reflexivity. }
    split; [exact Hfind|].
    unfold q_active_accounts. apply In_order_by. apply filter_In.
    split; [|reflexivity].
    unfold find_account in Hfind. apply find_some in Hfind. exact (proj1 Hfind).
  - eexists. split; [reflexivity|]. repeat split.
Qed.

Lemma save_button_keeps_cache_in_step_witness :
  exists db',
    save_account_button 2 750 "topped up" (app_on sample_db [] 10)
    = (Ok Applied,
       {| sess := {| account_data := q_active_accounts db';
                     active_bets := active_bets (session_of sample_db) |};
          conn := connect db' [] 10 |}) /\
    balance_of 2 db' = Some 750%Q.
Proof.
  destruct (proj1 (save_button_keeps_cache_in_step 2 750 "topped up"
                     (session_of sample_db) sample_db [] 10 eq_refl))
    as [db' [Hrun [Hfind _]]].
  exists db'. split; [exact Hrun|].
  unfold balance_of. rewrite Hfind. reflexivity.
Defined.

(** ** Settlement is final *)

(** Any property of the database that the statements of the source keep is
    kept by the ten methods of the store, on the file and on the working
    copy, whatever they return or raise and whichever storage calls fail. *)
Section StoreInvariant.
Variable J : database -> Prop.
Hypothesis J_replace_account : forall d, keeps J (sql_insert_or_replace_account d).
Hypothesis J_insert_match : forall t1 t2 d tm, keeps J (sql_insert_match t1 t2 d tm).
Hypothesis J_insert_bet : forall m o1 o2 v, keeps J (sql_insert_bet m o1 o2 v).
Hypothesis J_insert_bet_account :
  forall b a n amt, keeps J (sql_insert_bet_account b a n amt).
Hypothesis J_complete_bet : forall id, keeps J (sql_complete_bet id).
Hypothesis J_insert_result :
  forall id w ty p l c, keeps J (sql_insert_result id w ty p l c).
Hypothesis J_credit_account : forall p id, keeps J (sql_credit_account p id).
Hypothesis J_update_settings : forall m v, keeps J (sql_update_settings m v).

Lemma holds_storage_call : respects (conn_holds J) storage_call.
Proof.
  intros c Hc. unfold storage_call. destruct (faults c) as [|b fs]; exact Hc.
Qed.

Lemma holds_execute {A} (st : statement A) :
  keeps J st -> respects (conn_holds J) (execute st).
Proof.
  intros Hst. unfold execute. apply respects_bind; [exact holds_storage_call|].
  intros _ c [Hc Hw].
  destruct (st (now c) (working c)) as [[a db']|e] eqn:E; simpl.
  - split; [exact Hc|]. exact (Hst _ _ _ _ E Hw).
  - split; assumption.
Qed.

Lemma holds_select {A} (q : database -> A) :
  respects (conn_holds J) (execute (sql_select q)).
Proof.
  apply holds_execute. intros t db a db' H Hj. injection H as _ <-. exact Hj.
Qed.

Lemma holds_begin : respects (conn_holds J) begin_transaction.
Proof.
  apply holds_execute. intros t db a db' H Hj. injection H as _ <-. exact Hj.
Qed.

Lemma holds_commit : respects (conn_holds J) commit.
Proof.
  unfold commit. apply respects_bind; [exact holds_storage_call|].
  intros _ c [Hc Hw]. split; exact Hw.
Qed.

Lemma holds_rollback_and_raise {A} (e : exn) :
  respects (conn_holds J) (@rollback_and_raise A e).
Proof.
  unfold rollback_and_raise, rollback. apply respects_bind.
  - intros c [Hc Hw]. split; exact Hc.
  - intros _. apply respects_raise.
Qed.

Lemma holds_get_accounts : respects (conn_holds J) get_accounts.
Proof.
  apply respects_try_except; [|intros e; apply respects_raise].
  apply holds_select.
Qed.

Lemma holds_save_account (d : account_dict) : respects (conn_holds J) (save_account d).
Proof.
  apply respects_try_except; [|intros e; apply holds_rollback_and_raise].
  apply respects_bind; [|intros _; exact holds_commit].
  apply holds_execute. apply J_replace_account.
Qed.

Lemma holds_create_match (d : match_data) : respects (conn_holds J) (create_match d).
Proof.
  apply respects_try_except; [|intros e; apply holds_rollback_and_raise].
  apply respects_bind.
  - apply holds_execute. apply J_insert_match.
  - intros id. apply respects_bind; [exact holds_commit|].
    intros _. apply respects_ret.
Qed.

Lemma holds_create_bet (d : bet_data) : respects (conn_holds J) (create_bet d).
Proof.
  apply respects_try_except; [|intros e; apply holds_rollback_and_raise].
  unfold create_bet_body.
  apply respects_bind; [exact holds_begin|].
  intros _. apply respects_bind.
  { destruct (bd_match_id d) as [id|]; [destruct (id =? 0)|];
      try (apply holds_execute; apply J_insert_match).
    apply respects_ret. }
  intros match_id. apply respects_bind.
  { apply holds_execute. apply J_insert_bet. }
  intros bet_id. apply respects_bind.
  { apply respects_for_each. intros acc. apply holds_execute.
    apply J_insert_bet_account. }
  intros _. apply respects_bind.
  { apply respects_for_each. intros acc. apply holds_execute.
    apply J_insert_bet_account. }
  intros _. apply respects_bind; [exact holds_commit|].
  intros _. apply respects_ret.
Qed.

Lemma holds_get_active_bets : respects (conn_holds J) get_active_bets.
Proof.
  apply respects_try_except; [|intros e; apply respects_raise].
  apply holds_select.
Qed.

Lemma holds_get_bet_details (bet_id : Z) :
  respects (conn_holds J) (get_bet_details bet_id).
Proof.
  apply respects_try_except; [|intros e; apply respects_raise].
  apply respects_bind; [apply holds_select|].
  intros [b|]; [|apply respects_raise].
  apply respects_bind; [apply holds_select|].
  intros l. apply respects_ret.
Qed.

Lemma holds_save_result (d : result_data) : respects (conn_holds J) (save_result d).
Proof.
  apply respects_try_except; [|intros e; apply holds_rollback_and_raise].
  unfold save_result_body.
  apply respects_bind; [exact holds_begin|].
  intros _. apply respects_bind.
  { apply holds_execute. apply J_complete_bet. }
  intros _. apply respects_bind.
  { apply holds_execute. apply J_insert_result. }
  intros _. apply respects_bind; [|intros _; exact holds_commit].
  destruct (String.eqb (rd_result_type d) "win"); [|apply respects_ret].
  destruct (rd_winning_accounts d) as [accs|]; [|apply respects_raise].
  apply respects_for_each. intros acc. apply holds_execute.
  apply J_credit_account.
Qed.

Lemma holds_get_settings : respects (conn_holds J) get_settings.
Proof.
  apply respects_try_except; [|intros e; apply respects_ret].
  apply respects_bind; [apply holds_select|].
  intros [s|]; [apply respects_ret|apply respects_raise].
Qed.

Lemma holds_save_settings (m v : Q) : respects (conn_holds J) (save_settings m v).
Proof.
  apply respects_try_except; [|intros e; apply holds_rollback_and_raise].
  apply respects_bind; [|intros _; exact holds_commit].
  apply holds_execute. apply J_update_settings.
Qed.

Lemma holds_get_bet_history : respects (conn_holds J) get_bet_history.
Proof.
  apply respects_try_except; [|intros e; apply respects_ret].
  apply respects_bind; [apply holds_select|].
  intros l. apply respects_for_collect. intros h.
  apply respects_bind; [apply holds_select|].
  intros accs. apply respects_ret.
Qed.
End StoreInvariant.

(** A lookup by key in a list whose rows were rewritten without touching the
    keys, and in a list that has grown at its end. *)
Lemma find_key_map {A} (key : A -> Z) (f : A -> A) (id : Z) (l : list A) :
  (forall x, key (f x) = key x) ->
  find (fun a => key a =? id) (map f l) = option_map f (find (fun a => key a =? id) l).
Proof.
  intros Hf. induction l as [|x l IH]; simpl; [reflexivity|].
  rewrite Hf. destruct (key x =? id); [reflexivity|exact IH].
Qed.

Lemma find_key_grown {A} (key : A -> Z) (id : Z) (l l' : list A) (x : A) :
  find (fun a => key a =? id) l = Some x ->
  find (fun a => key a =? id) (l ++ l') = Some x.
Proof.
  induction l as [|y l IH]; simpl; [discriminate|].
  destruct (key y =? id); [intros H; exact H|exact IH].
Qed.

(** No statement of the source takes a bet out of [completed]: the only
    statement that writes the status sets it to [completed], and the others
    leave the stored bets alone or add a new one behind them. *)
Lemma is_completed_same_bets (id : Z) (db db' : database) :
  bets db' = bets db -> is_completed id db -> is_completed id db'.
Proof.
  intros E [b [Hb Hs]]. exists b. split; [|exact Hs].
  unfold find_bet in *. rewrite E. exact Hb.
Qed.

Lemma replace_account_keeps_completed (id : Z) (d : account_dict) :
  keeps (is_completed id) (sql_insert_or_replace_account d).
Proof.
  intros t db a db' H. unfold sql_insert_or_replace_account in H.
  destruct (is_int64 (ad_account_id d)); [|discriminate].
  injection H as _ <-. apply is_completed_same_bets.
  exact (proj1 (proj2 (proj2 (replace_account_lookup d t db)))).
Qed.

Lemma insert_match_keeps_completed (id : Z) (t1 t2 d tm : string) :
  keeps (is_completed id) (sql_insert_match t1 t2 d tm).
Proof.
  intros t db a db' H. unfold sql_insert_match in H. injection H as _ <-.
  apply is_completed_same_bets. reflexivity.
Qed.

Lemma insert_bet_keeps_completed (id m : Z) (o1 o2 v : Q) :
  keeps (is_completed id) (sql_insert_bet m o1 o2 v).
Proof.
  intros t db a db' H [b [Hb Hs]]. unfold sql_insert_bet in H.
  destruct (find_match m db); [|discriminate]. injection H as _ <-.
  exists b. split; [|exact Hs].
  unfold find_bet in *. cbn [bets]. apply find_key_grown. exact Hb.
Qed.

Lemma insert_bet_account_keeps_completed (id b a n : Z) (amt : Q) :
  keeps (is_completed id) (sql_insert_bet_account b a n amt).
Proof.
  intros t db u db' H. unfold sql_insert_bet_account in H.
  destruct (negb ((n =? 1) || (n =? 2))); [discriminate|].
  destruct (has_allocation b a db); [discriminate|].
  destruct (find_bet b db); [|discriminate].
  destruct (find_account a db); [|discriminate].
  injection H as _ <-. apply is_completed_same_bets. reflexivity.
Qed.

Lemma complete_bet_keeps_completed (id id' : Z) :
  keeps (is_completed id) (sql_complete_bet id').
Proof.
  intros t db u db' H [b [Hb Hs]]. unfold sql_complete_bet in H. injection H as _ <-.
  unfold is_completed, find_bet, complete_bet in *. cbn [bets set_bets].
  rewrite (find_key_map b_bet_id) by (intros x; destruct (b_bet_id x =? id'); reflexivity).
  rewrite Hb. cbn [option_map]. eexists. split; [reflexivity|].
  destruct (b_bet_id b =? id'); [reflexivity|exact Hs].
Qed.

Lemma insert_result_keeps_completed (id id' : Z) (w : option Z) (ty : string)
    (p l : option Q) (c : list (Z * Q)) :
  keeps (is_completed id) (sql_insert_result id' w ty p l c).
Proof.
  intros t db u db' H. unfold sql_insert_result in H.
  destruct (find_bet id' db); [|discriminate]. injection H as _ <-.
  apply is_completed_same_bets. reflexivity.
Qed.

Lemma credit_account_keeps_completed (id : Z) (p : Q) (acc : Z) :
  keeps (is_completed id) (sql_credit_account p acc).
Proof.
  intros t db u db' H. unfold sql_credit_account in H. injection H as _ <-.
  apply is_completed_same_bets. reflexivity.
Qed.

Lemma update_settings_keeps_completed (id : Z) (m v : Q) :
  keeps (is_completed id) (sql_update_settings m v).
Proof.
  intros t db u db' H. unfold sql_update_settings in H. injection H as _ <-.
  apply is_completed_same_bets. reflexivity.
Qed.

(** The credit of one account by [credit_account]. *)
Lemma credit_account_balance (p : Q) (id t : Z) (db : database) (old : account_row) :
  find_account id db = Some old ->
  balance_of id (credit_account p id t db) = Some (a_balance old + p)%Q.
Proof.
  intros Hold. unfold balance_of, find_account, credit_account in *.
  cbn [accounts set_accounts].
  rewrite (find_key_map a_account_id)
    by (intros x; destruct (a_account_id x =? id); reflexivity).
  rewrite Hold. cbn [option_map].
  assert (E : (a_account_id old =? id) = true).
  { apply find_some in Hold. exact (proj2 Hold). }
  rewrite E. reflexivity.
Qed.



(** ** An account on both sides *)

(** On working storage and for stored accounts, a loop of inserts into
    [bet_accounts] for a stored bet goes through or stops at the primary
    key. *)
Lemma insert_loop_ok_or_duplicate (bet_id tn : Z) (amt : Q) (t : Z) (dbc : database)
    (accs : list Z) :
  tn = 1 \/ tn = 2 ->
  forall dbw,
    find_bet bet_id dbw <> None ->
    (forall acc, In acc accs -> find_account acc dbw <> None) ->
    exists r dbw',
      for_each accs (fun acc => execute (sql_insert_bet_account bet_id acc tn amt))
        {| committed := dbc; working := dbw; faults := []; now := t |}
      = (r, {| committed := dbc; working := dbw'; faults := []; now := t |}) /\
      (r = Ok tt \/ r = Raise duplicate_allocation) /\
      accounts dbw' = accounts dbw /\ bets dbw' = bets dbw.
Proof.
  intros Htn. induction accs as [|a accs IH]; intros dbw Hbet Hacc.
  - exists (Ok tt), dbw. repeat split. left. reflexivity.
  - cbn [for_each]. unfold bind at 1.
    assert (Et : negb ((tn =? 1) || (tn =? 2)) = false).
    { destruct Htn as [-> | ->]; reflexivity. }
    destruct (has_allocation bet_id a dbw) eqn:Ehas.
    + erewrite execute_raise.
      2:{ unfold sql_insert_bet_account. rewrite Et, Ehas. reflexivity. }
      exists (Raise duplicate_allocation), dbw. repeat split. right. reflexivity.
    + destruct (find_bet bet_id dbw) as [b|] eqn:Eb; [|contradiction].
      destruct (find_account a dbw) as [row|] eqn:Ea;
        [|exfalso; exact (Hacc a (or_introl eq_refl) Ea)].
      erewrite execute_ok.
      2:{ unfold sql_insert_bet_account. rewrite Et, Ehas, Eb, Ea. reflexivity. }
      match goal with
      | |- context [ {| committed := dbc; working := ?w; faults := []; now := t |} ] =>
          destruct (IH w) as [r [dbw' [Hrun [Hr [Ha Hb]]]]]
      end.
      * unfold find_bet in *. cbn [bets set_bet_accounts]. rewrite Eb. discriminate.
      * intros acc Hin. unfold find_account. cbn [accounts set_bet_accounts].
        exact (Hacc acc (or_intror Hin)).
      * exists r, dbw'. split; [exact Hrun|]. split; [exact Hr|].
        split; [rewrite Ha|rewrite Hb]; reflexivity.
Qed.

(** [create_bet] for a new match, on working storage and for stored
    accounts: its body returns the identifier of the bet or stops at the
    primary key of [bet_accounts]. *)
Lemma create_bet_body_ok_or_duplicate (d : bet_data) (db : database) (t : Z) :
  bd_match_id d = None ->
  (forall acc, In acc (bd_team1_accounts d ++ bd_team2_accounts d) ->
               find_account acc db <> None) ->
  exists r c1,
    create_bet_body d (connect db [] t) = (r, c1) /\
    faults c1 = [] /\
    ((exists id, r = Ok id) \/ r = Raise duplicate_allocation).
Proof.
  intros Hm Hacc.
  unfold create_bet_body, begin_transaction, connect. rewrite Hm.
  unfold bind at 1. rewrite (execute_ok _ db db t tt db eq_refl).
  unfold bind at 1. erewrite execute_ok by reflexivity.
  unfold bind at 1. erewrite execute_ok.
  2:{ unfold sql_insert_bet.
      match goal with
      | |- context [find_match ?id ?w] =>
          assert (Hf : find_match id w <> None);
          [|destruct (find_match id w); [reflexivity|contradiction]]
      end.
      unfold find_match. apply in_key_find. cbn [matches].
      rewrite map_app. apply in_or_app. right. left. reflexivity. }
  match goal with
  | |- context [bind (for_each _ (fun acc => execute (sql_insert_bet_account ?b acc 1 _)))
                     _ {| committed := db; working := ?w; faults := []; now := t |}] =>
      destruct (insert_loop_ok_or_duplicate b 1 (bd_bet_amount1 d) t db
                  (bd_team1_accounts d) (or_introl eq_refl) w)
        as [r1 [dbw1 [E1 [Hr1 [Ha1 Hb1]]]]]
  end.
  { unfold find_bet. apply in_key_find. cbn [bets].
    rewrite map_app. apply in_or_app. right. left. reflexivity. }
  { intros acc Hin. unfold find_account. cbn [accounts].
    apply Hacc. apply in_or_app. left. exact Hin. }
  unfold bind at 1. rewrite E1.
  destruct Hr1 as [-> | ->].
  2:{ eexists. eexists. split; [reflexivity|]. split; [reflexivity|].
      right. reflexivity. }
  match goal with
  | |- context [bind (for_each _ (fun acc => execute (sql_insert_bet_account ?b acc 2 _)))
                     _ _] =>
      destruct (insert_loop_ok_or_duplicate b 2 (bd_bet_amount2 d) t db
                  (bd_team2_accounts d) (or_intror eq_refl) dbw1)
        as [r2 [dbw2 [E2 [Hr2 [Ha2 Hb2]]]]]
  end.
  { unfold find_bet. rewrite Hb1. apply in_key_find. cbn [bets].
    rewrite map_app. apply in_or_app. right. left. reflexivity. }
  { intros acc Hin. unfold find_account. rewrite Ha1. cbn [accounts].
    apply Hacc. apply in_or_app. right. exact Hin. }
  unfold bind at 1. rewrite E2.
  destruct Hr2 as [-> | ->].
  2:{ eexists. eexists. split; [reflexivity|]. split; [reflexivity|].
      right. reflexivity. }
  unfold bind at 1. rewrite commit_ok.
  eexists. eexists. split; [reflexivity|]. split; [reflexivity|].
  left. eexists. reflexivity.
Qed.

(** With an account on both sides, it stops at the primary key, and the
    rollback leaves the connection as it was. *)
Lemma create_bet_duplicate (d : bet_data) (x : Z) (db : database) (t : Z) :
  bd_match_id d = None ->
  In x (bd_team1_accounts d) -> In x (bd_team2_accounts d) ->
  (forall acc, In acc (bd_team1_accounts d ++ bd_team2_accounts d) ->
               find_account acc db <> None) ->
  create_bet d (connect db [] t) = (Raise duplicate_allocation, connect db [] t).
Proof.
  intros Hm H1 H2 Hacc.
  destruct (create_bet_body_ok_or_duplicate d db t Hm Hacc) as [r [c1 [Hbody [Hf Hr]]]].
  destruct (create_bet_body_overlap d x (connect db [] t) H1 H2) as [e He].
  rewrite Hbody in He. cbn [fst] in He.
  destruct Hr as [[id ->]| ->]; [discriminate|].
  destruct (create_bet_body_fails_cleanly d _ _ _ Hbody) as [Hc Hn].
  unfold create_bet, try_except. rewrite Hbody.
  unfold rollback_and_raise, rollback, bind, modify, raise. cbn [fst snd].
  rewrite Hc, Hf, Hn. reflexivity.
Qed.

Lemma filter_none {A} (p : A -> bool) (l : list A) :
  (forall x, In x l -> p x = false) -> filter p l = [].
Proof.
  induction l as [|x l IH]; intros H; [reflexivity|].
  cbn [filter]. rewrite (H x (or_introl eq_refl)).
  apply IH. intros y Hy. apply H. right. exact Hy.
Qed.

(** C6 (amended).  A submission with some account on both sides never places
    a bet and writes nothing: whatever the storage faults, the committed
    database, the working copy and the session are those of before.  The
    handler has no answer of its own for it.  It answers with the first of
    its checks that fails: sides of different sizes; otherwise a selected
    account that is not in the cached frame, which is the [IndexError] of the
    lookup; otherwise a cached balance below the stake, which is the report of
    the shortfalls.  When all three pass, [create_bet] is called and raises,
    and its error is shown under "Error placing bet": on working storage and
    for stored accounts it is the error of the primary key of [bet_accounts],
    and the application state is exactly what it was. *)
Theorem place_bet_overlap_fails_without_writes (f : betting_form) (x : Z)
    (s : session) (db : database) (fs : list bool) (t : Z) :
  In x (f_team1_accounts f) -> In x (f_team2_accounts f) ->
  let w := {| sess := s; conn := connect db fs t |} in
  let n1 := List.length (f_team1_accounts f) in
  let n2 := List.length (f_team2_accounts f) in
  let selected := f_team1_accounts f ++ f_team2_accounts f in
  (exists r w',
     place_bet f w = (r, w') /\
     (forall id, r <> Ok (BetPlaced id)) /\
     sess w' = s /\ committed (conn w') = db /\ working (conn w') = db) /\
  (n1 <> n2 -> place_bet f w = (Ok (UnequalAccounts n1 n2), w)) /\
  (n1 = n2 ->
   (exists acc, In acc selected /\ session_account acc w = None) ->
   place_bet f w = (Ok (ErrorPlacingBet IndexError), w)) /\
  (n1 = n2 ->
   (forall acc, In acc selected -> session_account acc w <> None) ->
   (exists acc,
       (In acc (f_team1_accounts f) /\ is_short w (f_bet_amount1 f) acc = true) \/
       (In acc (f_team2_accounts f) /\ is_short w (f_bet_amount2 f) acc = true)) ->
   place_bet f w
   = (Ok (InsufficientAccounts
            (shortfalls w (f_team1_accounts f) (f_bet_amount1 f) "Team 1"
               ++ shortfalls w (f_team2_accounts f) (f_bet_amount2 f) "Team 2")),
      w)) /\
  (n1 = n2 ->
   (forall acc, In acc selected -> session_account acc w <> None) ->
   (forall acc, In acc (f_team1_accounts f) -> is_short w (f_bet_amount1 f) acc = false) ->
   (forall acc, In acc (f_team2_accounts f) -> is_short w (f_bet_amount2 f) acc = false) ->
   (exists e c',
       place_bet f w = (Ok (ErrorPlacingBet e), {| sess := s; conn := c' |}) /\
       committed c' = db /\ working c' = db) /\
   (fs = [] ->
    (forall acc, In acc selected -> find_account acc db <> None) ->
    place_bet f w = (Ok (ErrorPlacingBet duplicate_allocation), w))).
Proof.
  intros H1 H2 w n1 n2 selected.
  assert (Hne : f_team1_accounts f <> []).
  { intros E. rewrite E in H1. destruct H1. }
  split; [exact (place_bet_overlap_never_places f x s db fs t H1 H2)|].
  split.
  { intros Hn. unfold place_bet. subst n1 n2.
    destruct (f_team1_accounts f) as [|x1 l1]; [destruct H1|].
    destruct (f_team2_accounts f) as [|x2 l2]; [destruct H2|].
    destruct (Nat.eqb_spec (List.length (x1 :: l1)) (List.length (x2 :: l2)))
      as [E|E]; [contradiction|reflexivity]. }
  split.
  { intros Hlen Hmiss. rewrite (place_bet_enters_try f w Hne Hlen). unfold try_except.
    rewrite (place_bet_try_missing f _ _ w Hmiss). reflexivity. }
  split.
  { intros Hlen Hall Hshort. rewrite (place_bet_enters_try f w Hne Hlen).
    unfold try_except. rewrite (place_bet_try_short f _ _ w Hall Hshort). reflexivity. }
  intros Hlen Hall Hs1 Hs2.
  assert (Hstep : forall e c',
             create_bet (bet_data_of_form f (f_bet_amount1 f) (f_bet_amount2 f))
                        (connect db fs t) = (Raise e, c') ->
             place_bet f w = (Ok (ErrorPlacingBet e), {| sess := s; conn := c' |})).
  { intros e c' Hc.
    rewrite (place_bet_enters_try f w Hne Hlen). unfold try_except, place_bet_try.
    unfold bind at 1.
    rewrite check_balances_run
      by (intros acc Hacc; apply Hall; apply in_or_app; left; exact Hacc).
    unfold bind at 1.
    rewrite check_balances_run
      by (intros acc Hacc; apply Hall; apply in_or_app; right; exact Hacc).
    rewrite (filter_none _ _ Hs1), (filter_none _ _ Hs2). cbn [map List.app].
    unfold bind at 1. unfold db_call at 1.
    subst w. cbn [conn sess]. rewrite Hc. reflexivity. }
  split.
  - destruct (create_bet_overlap
                (bet_data_of_form f (f_bet_amount1 f) (f_bet_amount2 f)) x db fs t H1 H2)
      as [e [c' [Hc [Hcom [Hwork _]]]]].
    exists e, c'. split; [exact (Hstep e c' Hc)|]. split; assumption.
  - intros Hfs Hstored. subst fs.
    exact (Hstep _ _ (create_bet_duplicate
                        (bet_data_of_form f (f_bet_amount1 f) (f_bet_amount2 f))
                        x db t eq_refl H1 H2 Hstored)).
Qed.

(** C6, on the sample database: account 1 is ticked on both sides and holds
    enough; the primary key stops [create_bet] and nothing has changed. *)
Lemma place_bet_overlap_fails_without_writes_witness :
  place_bet overlapping_form (app_on sample_db [] 10)
  = (Ok (ErrorPlacingBet duplicate_allocation), app_on sample_db [] 10).
Proof.
  destruct (place_bet_overlap_fails_without_writes overlapping_form 1
              (session_of sample_db) sample_db [] 10
              (or_introl eq_refl) (or_introl eq_refl))
    as [_ [_ [_ [_ H]]]].
  apply H.
  - reflexivity.
  - intros acc [E|[E|[]]]; subst acc; discriminate.
  - intros acc [E|[]]. subst acc. reflexivity.
  - intros acc [E|[]]. subst acc. reflexivity.
  - reflexivity.
  - intros acc [E|[E|[]]]; subst acc; discriminate.
Defined.
